(** * multi-carrier-tracker: a shallow embedding of the tracking servers

    The repository holds several generations of one Express server
    (src/server.js, the two programs of src/app.js, and two further
    variants).  Each is embedded in a module of its own, over a common
    model of the JavaScript built-ins they call: UTF-16 strings,
    [toLowerCase], [trim], [encodeURIComponent], and the backtracking
    regular expressions behind [match], [test] and [replace]. *)

From Stdlib Require Import NArith ZArith Lia Bool List Ascii String.
From stdpp Require Import base option list gmap.

Set Default Proof Using "Type".

(** ** JavaScript strings *)

(** A JavaScript string is a sequence of UTF-16 code units. *)
Abbreviation jsstring := (list N).

(** Source literals are written in the file as UTF-8; [js] decodes them
    into code units (every literal of the sources is in the basic plane,
    so one, two and three byte sequences suffice). *)
Fixpoint utf16_of_utf8 (bs : list N) : jsstring :=
  match bs with
  | [] => []
  | b0 :: t0 =>
    if (b0 <? 0x80)%N then b0 :: utf16_of_utf8 t0
    else
      match t0 with
      | [] => [b0]
      | b1 :: t1 =>
        if (b0 <? 0xE0)%N
        then N.lor (N.shiftl (N.land b0 0x1F) 6) (N.land b1 0x3F)
               :: utf16_of_utf8 t1
        else
          match t1 with
          | [] => [b0; b1]
          | b2 :: t2 =>
            N.lor (N.shiftl (N.land b0 0x0F) 12)
                  (N.lor (N.shiftl (N.land b1 0x3F) 6) (N.land b2 0x3F))
              :: utf16_of_utf8 t2
          end
      end
  end.

Definition js (s : string) : jsstring :=
  utf16_of_utf8 (List.map N_of_ascii (list_ascii_of_string s)).

Module Js.

(** [x || ""] for a value that is a string or absent. *)
Definition or_empty (x : option jsstring) : jsstring := default [] x.

(** Truthiness of a string-or-absent value: [undefined], [null] and the
    empty string are falsy. *)
Definition truthy (x : option jsstring) : bool :=
  match x with
  | Some (_ :: _) => true
  | _ => false
  end.

Definition in_range (lo hi c : N) : bool := ((lo <=? c) && (c <=? hi))%N.

(** [String.prototype.toLowerCase], one code unit at a time.  Latin
    capitals map to their small letters; U+0130 and the Kelvin and
    Angstrom signs have the special mappings of the Unicode tables.  Code
    units of other scripts are left as they are: the servers only compare
    the result with ASCII literals, and no further code unit lower-cases
    to an ASCII letter. *)
Definition lower_unit (c : N) : jsstring :=
  if in_range 0x41 0x5A c then [c + 32]%N
  else if in_range 0xC0 0xDE c && negb (c =? 0xD7)%N then [c + 32]%N
  else if (c =? 0x130)%N then [0x69; 0x307]%N
  else if (c =? 0x212A)%N then [0x6B]%N
  else if (c =? 0x212B)%N then [0xE5]%N
  else [c].

Definition toLowerCase (s : jsstring) : jsstring := flat_map lower_unit s.

(** White space and line terminators: what [\s] matches and [trim]
    strips. *)
Definition is_space (c : N) : bool :=
  in_range 9 13 c || (c =? 0x20)%N || (c =? 0xA0)%N || (c =? 0x1680)%N
  || in_range 0x2000 0x200A c || (c =? 0x2028)%N || (c =? 0x2029)%N
  || (c =? 0x202F)%N || (c =? 0x205F)%N || (c =? 0x3000)%N
  || (c =? 0xFEFF)%N.

Fixpoint trimStart (s : jsstring) : jsstring :=
  match s with
  | c :: t => if is_space c then trimStart t else s
  | [] => []
  end.

Definition trimEnd (s : jsstring) : jsstring := rev (trimStart (rev s)).

Definition trim (s : jsstring) : jsstring := trimEnd (trimStart s).

Fixpoint starts_with (p s : jsstring) : bool :=
  match p, s with
  | [], _ => true
  | a :: p', b :: s' => (a =? b)%N && starts_with p' s'
  | _ :: _, [] => false
  end.

(** [String.prototype.includes]. *)
Fixpoint includes (s p : jsstring) : bool :=
  starts_with p s ||
  match s with
  | [] => false
  | _ :: t => includes t p
  end.

(** *** encodeURIComponent *)

Definition hex_digit (n : N) : N :=
  if (n <? 10)%N then (0x30 + n)%N else (0x41 + (n - 10))%N.

Definition pct (byte : N) : jsstring :=
  [0x25; hex_digit (N.shiftr byte 4); hex_digit (N.land byte 0xF)]%N.

Definition utf8 (cp : N) : list N :=
  if (cp <? 0x80)%N then [cp]
  else if (cp <? 0x800)%N then
    [N.lor 0xC0 (N.shiftr cp 6); N.lor 0x80 (N.land cp 0x3F)]
  else if (cp <? 0x10000)%N then
    [N.lor 0xE0 (N.shiftr cp 12);
     N.lor 0x80 (N.land (N.shiftr cp 6) 0x3F);
     N.lor 0x80 (N.land cp 0x3F)]
  else
    [N.lor 0xF0 (N.shiftr cp 18);
     N.lor 0x80 (N.land (N.shiftr cp 12) 0x3F);
     N.lor 0x80 (N.land (N.shiftr cp 6) 0x3F);
     N.lor 0x80 (N.land cp 0x3F)].

(** The characters [encodeURIComponent] leaves alone:
    letters, digits and [- _ . ! ~ * ' ( )]. *)
Definition uri_unreserved (c : N) : bool :=
  in_range 0x41 0x5A c || in_range 0x61 0x7A c || in_range 0x30 0x39 c
  || existsb (N.eqb c) [0x2D; 0x5F; 0x2E; 0x21; 0x7E; 0x2A; 0x27; 0x28; 0x29]%N.

Definition is_high_surrogate (c : N) : bool := in_range 0xD800 0xDBFF c.
Definition is_low_surrogate (c : N) : bool := in_range 0xDC00 0xDFFF c.

(** [None] stands for the URIError raised on a lone surrogate. *)
Fixpoint encode (s : jsstring) : option jsstring :=
  match s with
  | [] => Some []
  | c :: t =>
    if uri_unreserved c then cons c <$> encode t
    else if is_low_surrogate c then None
    else if is_high_surrogate c then
      match t with
      | d :: t' =>
        if is_low_surrogate d
        then app (flat_map pct
                    (utf8 ((c - 0xD800) * 0x400 + (d - 0xDC00) + 0x10000)%N))
               <$> encode t'
        else None
      | [] => None
      end
    else app (flat_map pct (utf8 c)) <$> encode t
  end.

End Js.

(** ** Exceptions *)

(** A thrown error: the name of its class and its message. *)
Record exn := Exn {
  name : string;
  message : jsstring
}.

Definition TypeError (msg : string) : exn := Exn "TypeError" (js msg).
Definition URIError : exn := Exn "URIError" (js "URI malformed").
Definition Error (msg : string) : exn := Exn "Error" (js msg).

Inductive outcome (A : Type) :=
| Return (a : A)
| Throw (e : exn).
Arguments Return {A} a.
Arguments Throw {A} e.

Definition encodeURIComponent (s : jsstring) : outcome jsstring :=
  match Js.encode s with
  | Some r => Return r
  | None => Throw URIError
  end.

(** ** Regular expressions

    The pattern language of the sources, with the backtracking semantics
    of ECMAScript: alternatives are tried left to right, quantifiers are
    greedy unless marked lazy, and the first way of matching that is found
    is the match.  [run] lists the ways a pattern can match at a position in
    that order of preference, so its head is what the engine reports. *)

Module RegExp.

Inductive citem :=
| IChar (c : N)
| IRange (lo hi : N)
| ISpace (neg : bool)      (* \s and \S *)
| IDigit (neg : bool)      (* \d and \D *)
| IWord (neg : bool).      (* \w and \W *)

Inductive regex :=
| Eps
| Chr (c : N)
| Class (negated : bool) (items : list citem)
| Seq (r1 r2 : regex)
| Alt (r1 r2 : regex)
| Group (n : nat) (r : regex)
| Quant (min : nat) (max : option nat) (greedy : bool) (r : regex)
| Bol
| WordBoundary.

(** The Canonicalize operation of the [i] flag (without the [u] flag):
    one code unit is upper-cased, unless that would turn a non-ASCII unit
    into an ASCII one.  As in [Js.lower_unit], the Latin range is covered;
    every letter that occurs in a pattern of the sources is in it. *)
Definition upper_unit (c : N) : N :=
  if Js.in_range 0x61 0x7A c then (c - 32)%N
  else if Js.in_range 0xE0 0xFE c && negb (c =? 0xF7)%N then (c - 32)%N
  else if (c =? 0xFF)%N then 0x178%N
  else if (c =? 0xB5)%N then 0x39C%N
  else c.

Definition canon (ic : bool) (c : N) : N := if ic then upper_unit c else c.

Definition is_digit (c : N) : bool := Js.in_range 0x30 0x39 c.

Definition is_word (c : N) : bool :=
  Js.in_range 0x61 0x7A c || Js.in_range 0x41 0x5A c || is_digit c
  || (c =? 0x5F)%N.

Definition is_word_opt (c : option N) : bool :=
  match c with Some c => is_word c | None => false end.

(** The code units from [lo] to [hi]. *)
Definition units (lo hi : N) : list N :=
  List.map (fun i => (lo + N.of_nat i)%N) (seq 0 (N.to_nat (hi + 1 - lo))).

Definition item_has (ic : bool) (it : citem) (c : N) : bool :=
  match it with
  | IChar a => (canon ic a =? canon ic c)%N
  | IRange lo hi =>
    if ic then existsb (fun a => (canon ic a =? canon ic c)%N) (units lo hi)
    else Js.in_range lo hi c
  | ISpace neg => xorb neg (Js.is_space c)
  | IDigit neg => xorb neg (is_digit c)
  | IWord neg => xorb neg (is_word c)
  end.

Definition class_has (ic : bool) (items : list citem) (c : N) : bool :=
  existsb (fun it => item_has ic it c) items.

(** The state of a match in progress: the code unit before the current
    position, the input from the current position on, the captures made so
    far, and the number of code units matched since the match began (the
    endIndex of the specification). *)
Record mstate := MState {
  prev : option N;
  rest : jsstring;
  caps : list (nat * jsstring);
  pos : nat
}.

Definition step (d : N) (t : jsstring) (st : mstate) : mstate :=
  {| prev := Some d; rest := t; caps := caps st; pos := S (pos st) |}.

(** The text between two states of one match. *)
Definition consumed (st st' : mstate) : jsstring :=
  take (pos st' - pos st) (rest st).

Definition set_cap (n : nat) (v : jsstring) (st : mstate) : mstate :=
  {| prev := prev st; rest := rest st;
     caps := (n, v) :: List.filter (fun kv => negb (fst kv =? n)%nat) (caps st);
     pos := pos st |}.

Definition get_cap (st : mstate) (n : nat) : option jsstring :=
  snd <$> List.find (fun kv => (fst kv =? n)%nat) (caps st).

Fixpoint groups (r : regex) : list nat :=
  match r with
  | Seq a b | Alt a b => groups a ++ groups b
  | Group n a => n :: groups a
  | Quant _ _ _ a => groups a
  | _ => []
  end.

(** Entering an iteration of a quantifier forgets the captures of the
    groups inside it. *)
Definition clear_caps (gs : list nat) (st : mstate) : mstate :=
  {| prev := prev st; rest := rest st;
     caps := List.filter (fun kv => negb (existsb (Nat.eqb (fst kv)) gs)) (caps st);
     pos := pos st |}.

Definition dec_max (max : option nat) : option nat := Nat.pred <$> max.

(** RepeatMatcher.  [body] runs one iteration.  An iteration that consumes
    nothing once the minimum is reached is rejected, so [min] plus the length
    of the input bounds the number of iterations: [fuel] starts above that
    bound and is never what stops the loop. *)
Fixpoint rep (body : mstate -> list mstate) (greedy : bool)
         (fuel min : nat) (max : option nat) (st : mstate) : list mstate :=
  match max with
  | Some 0 => [st]
  | _ =>
    match fuel with
    | 0 => []
    | S fuel' =>
      let more :=
        flat_map
          (fun st' =>
             if (min =? 0)%nat && (pos st' =? pos st)%nat
             then []
             else rep body greedy fuel' (Nat.pred min) (dec_max max) st')
          (body st) in
      if negb (min =? 0)%nat then more
      else if greedy then more ++ [st]
      else st :: more
    end
  end.

Fixpoint run (ic : bool) (r : regex) (st : mstate) : list mstate :=
  match r with
  | Eps => [st]
  | Chr c =>
    match rest st with
    | d :: t => if (canon ic c =? canon ic d)%N then [step d t st] else []
    | [] => []
    end
  | Class neg items =>
    match rest st with
    | d :: t => if xorb neg (class_has ic items d) then [step d t st] else []
    | [] => []
    end
  | Seq a b => flat_map (run ic b) (run ic a st)
  | Alt a b => run ic a st ++ run ic b st
  | Group n a => List.map (fun st' => set_cap n (consumed st st') st') (run ic a st)
  | Quant min max greedy a =>
    rep (fun st => run ic a (clear_caps (groups a) st)) greedy
        (S (min + length (rest st))) min max st
  | Bol => match prev st with None => [st] | Some _ => [] end
  | WordBoundary =>
    if xorb (is_word_opt (prev st)) (is_word_opt (head (rest st)))
    then [st] else []
  end.

(** A regular expression object: its pattern and its [i] flag. *)
Record regexp := RegExp {
  pattern : regex;
  ignoreCase : bool
}.

Definition ngroups (re : regexp) : nat := list_max (groups (pattern re)).

(** The array [exec] returns: the whole match at 0, then one entry for
    each group, [None] being [undefined]. *)
Record match_array := MatchArray {
  index : nat;
  elems : list (option jsstring)
}.

Definition match_at (re : regexp) (p : option N) (s : jsstring) : option mstate :=
  head (run (ignoreCase re) (pattern re)
            {| prev := p; rest := s; caps := []; pos := 0 |}).

Fixpoint exec_from (re : regexp) (p : option N) (s : jsstring) (i : nat)
  : option match_array :=
  match match_at re p s with
  | Some st' =>
    Some {| index := i;
            elems := Some (take (pos st') s)
                       :: List.map (get_cap st') (seq 1 (ngroups re)) |}
  | None =>
    match s with
    | [] => None
    | c :: t => exec_from re (Some c) t (S i)
    end
  end.

(** [re.exec(s)], and [s.match(re)] for a pattern without the [g] flag. *)
Definition exec (re : regexp) (s : jsstring) : option match_array :=
  exec_from re None s 0.

(** [re.test(s)]. *)
Definition test (re : regexp) (s : jsstring) : bool := bool_decide (is_Some (exec re s)).

(** [m[i]]: out of range and unmatched groups are both [undefined]. *)
Definition at_ (m : match_array) (i : nat) : option jsstring :=
  mjoin (elems m !! i).

(** [s.replace(re, by)] for a pattern with the [g] flag and a replacement
    without [$]: every match, found from left to right, is replaced; after
    an empty match the search moves on by one code unit. *)
Fixpoint replace_from (re : regexp) (by_ : jsstring) (p : option N)
         (s : jsstring) (skip : nat) : jsstring :=
  match skip with
  | S k =>
    match s with
    | [] => []
    | c :: t => replace_from re by_ (Some c) t k
    end
  | 0 =>
    match match_at re p s with
    | Some st' =>
      by_ ++
      match s with
      | [] => []
      | c :: t =>
        match pos st' with
        | 0 => c :: replace_from re by_ (Some c) t 0
        | S k => replace_from re by_ (Some c) t k
        end
      end
    | None =>
      match s with
      | [] => []
      | c :: t => c :: replace_from re by_ (Some c) t 0
      end
    end
  end.

Definition replace_g (re : regexp) (by_ : jsstring) (s : jsstring) : jsstring :=
  replace_from re by_ None s 0.

(** *** Writing patterns *)

Definition lit (s : jsstring) : regex := foldr (fun c r => Seq (Chr c) r) Eps s.
Definition seqs (rs : list regex) : regex := foldr Seq Eps rs.
Fixpoint alts (rs : list regex) : regex :=
  match rs with
  | [] => Eps
  | [r] => r
  | r :: rs' => Alt r (alts rs')
  end.
Definition star (r : regex) : regex := Quant 0 None true r.
Definition plus (r : regex) : regex := Quant 1 None true r.
Definition opt (r : regex) : regex := Quant 0 (Some 1) true r.
Definition times (lo hi : nat) (r : regex) : regex := Quant lo (Some hi) true r.
Definition space : regex := Class false [ISpace false].
Definition digit : regex := Class false [IDigit false].
Definition chars (s : jsstring) : list citem := List.map IChar s.

End RegExp.

(** *** Pattern syntax

    The sources write their patterns as regular expression literals.
    [Syntax.parse] reads that notation, so that the patterns below are
    the text of the source. *)

Module Syntax.
Import RegExp.

(** The ASCII character of a code unit, NUL for the others (which are
    never syntax). *)
Definition sym (c : N) : ascii :=
  if (c <? 128)%N then ascii_of_N c else zero.

Definition hex_value (c : N) : option N :=
  if Js.in_range 0x30 0x39 c then Some (c - 0x30)%N
  else if Js.in_range 0x41 0x46 c then Some (c - 0x41 + 10)%N
  else if Js.in_range 0x61 0x66 c then Some (c - 0x61 + 10)%N
  else None.

(** What follows a backslash, as a class member. *)
Definition escape (s : jsstring) : option (citem * jsstring) :=
  match s with
  | [] => None
  | c :: t =>
    match sym c with
    | "s"%char => Some (ISpace false, t)
    | "S"%char => Some (ISpace true, t)
    | "d"%char => Some (IDigit false, t)
    | "D"%char => Some (IDigit true, t)
    | "w"%char => Some (IWord false, t)
    | "W"%char => Some (IWord true, t)
    | "n"%char => Some (IChar 10, t)
    | "t"%char => Some (IChar 9, t)
    | "r"%char => Some (IChar 13, t)
    | "f"%char => Some (IChar 12, t)
    | "v"%char => Some (IChar 11, t)
    | "u"%char =>
      match t with
      | h3 :: h2 :: h1 :: h0 :: t' =>
        a ← hex_value h3; b ← hex_value h2; c ← hex_value h1; d ← hex_value h0;
        Some (IChar (((a * 16 + b) * 16 + c) * 16 + d)%N, t')
      | _ => None
      end
    | _ => Some (IChar c, t)
    end
  end.

(** One member of a class: an escape or a plain code unit. *)
Definition class_atom (s : jsstring) : option (citem * jsstring) :=
  match s with
  | [] => None
  | c :: t =>
    match sym c with
    | "\"%char =>
      match t with
      | b :: t' => if (b =? 0x62)%N then Some (IChar 8, t') else escape t
      | [] => None
      end
    | _ => Some (IChar c, t)
    end
  end.

(** The members of a class up to the closing bracket; [a-b] is a range
    when both ends are single code units. *)
Fixpoint class_items (fuel : nat) (s : jsstring) : option (list citem * jsstring) :=
  match fuel with
  | 0 => None
  | S fuel' =>
    match s with
    | [] => None
    | c :: t =>
      if (c =? 0x5D)%N then Some ([], t)
      else
        '(a, s1) ← class_atom s;
        match a, s1 with
        | IChar lo, dash :: s2 =>
          if (dash =? 0x2D)%N && negb (bool_decide (head s2 = Some 0x5D%N))
          then
            '(b, s3) ← class_atom s2;
            match b with
            | IChar hi =>
              '(items, s4) ← class_items fuel' s3; Some (IRange lo hi :: items, s4)
            | _ =>
              '(items, s4) ← class_items fuel' s3;
              Some (a :: IChar 0x2D :: b :: items, s4)
            end
          else '(items, s4) ← class_items fuel' s1; Some (a :: items, s4)
        | _, _ => '(items, s4) ← class_items fuel' s1; Some (a :: items, s4)
        end
    end
  end.

Fixpoint number (s : jsstring) (acc : nat) : nat * jsstring :=
  match s with
  | c :: t =>
    if is_digit c then number t (10 * acc + N.to_nat (c - 0x30)) else (acc, s)
  | [] => (acc, s)
  end.

(** The bounds of a quantifier, if one starts here. *)
Definition bounds (s : jsstring) : option (nat * option nat * jsstring) :=
  match s with
  | [] => None
  | c :: t =>
    match sym c with
    | "*"%char => Some (0, None, t)
    | "+"%char => Some (1, None, t)
    | "?"%char => Some (0, Some 1, t)
    | "{"%char =>
      if bool_decide (is_digit <$> head t = Some true) then
        let '(lo, s1) := number t 0 in
        match s1 with
        | d :: s2 =>
          if (d =? 0x7D)%N then Some (lo, Some lo, s2)
          else if (d =? 0x2C)%N then
            match s2 with
            | e :: s3 =>
              if (e =? 0x7D)%N then Some (lo, None, s3)
              else
                let '(hi, s4) := number s2 0 in
                match s4 with
                | f :: s5 => if (f =? 0x7D)%N then Some (lo, Some hi, s5) else None
                | [] => None
                end
            | [] => None
            end
          else None
        | [] => None
        end
      else None
    | _ => None
    end
  end.

Definition quantified (a : regex) (s : jsstring) : regex * jsstring :=
  match bounds s with
  | Some (lo, hi, s1) =>
    match s1 with
    | q :: s2 =>
      if (q =? 0x3F)%N then (Quant lo hi false a, s2) else (Quant lo hi true a, s1)
    | [] => (Quant lo hi true a, s1)
    end
  | None => (a, s)
  end.

(** Disjunction, alternative and term of the ECMAScript grammar; [g] is
    the number of capturing groups opened so far. *)
Fixpoint disjunction (fuel : nat) (s : jsstring) (g : nat)
  : option (regex * jsstring * nat) :=
  match fuel with
  | 0 => None
  | S fuel' =>
    '(a, s1, g1) ← alternative fuel' s g;
    match s1 with
    | c :: s2 =>
      if (c =? 0x7C)%N
      then '(b, s3, g3) ← disjunction fuel' s2 g1; Some (Alt a b, s3, g3)
      else Some (a, s1, g1)
    | [] => Some (a, s1, g1)
    end
  end
with alternative (fuel : nat) (s : jsstring) (g : nat)
  : option (regex * jsstring * nat) :=
  match fuel with
  | 0 => None
  | S fuel' =>
    match s with
    | [] => Some (Eps, s, g)
    | c :: _ =>
      if (c =? 0x7C)%N || (c =? 0x29)%N then Some (Eps, s, g)
      else
        '(t, s1, g1) ← term fuel' s g;
        '(r, s2, g2) ← alternative fuel' s1 g1;
        Some (Seq t r, s2, g2)
    end
  end
with term (fuel : nat) (s : jsstring) (g : nat)
  : option (regex * jsstring * nat) :=
  match fuel with
  | 0 => None
  | S fuel' =>
    match s with
    | [] => None
    | c :: t =>
      match sym c with
      | "^"%char => Some (Bol, t, g)
      | "\"%char =>
        match t with
        | b :: t' =>
          if (b =? 0x62)%N then Some (WordBoundary, t', g)
          else
            '(it, s1) ← escape t;
            let a := match it with IChar x => Chr x | _ => Class false [it] end in
            let '(r, s2) := quantified a s1 in Some (r, s2, g)
        | [] => None
        end
      | "["%char =>
        let '(neg, t1) :=
          match t with
          | x :: t' => if (x =? 0x5E)%N then (true, t') else (false, t)
          | [] => (false, t)
          end in
        '(items, s1) ← class_items (S (length t1)) t1;
        let '(r, s2) := quantified (Class neg items) s1 in Some (r, s2, g)
      | "("%char =>
        match t with
        | q :: colon :: t' =>
          if (q =? 0x3F)%N && (colon =? 0x3A)%N then
            '(a, s1, g1) ← disjunction fuel' t' g;
            match s1 with
            | close :: s2 =>
              if (close =? 0x29)%N
              then let '(r, s3) := quantified a s2 in Some (r, s3, g1)
              else None
            | [] => None
            end
          else
            '(a, s1, g1) ← disjunction fuel' t (S g);
            match s1 with
            | close :: s2 =>
              if (close =? 0x29)%N
              then let '(r, s3) := quantified (Group (S g) a) s2 in Some (r, s3, g1)
              else None
            | [] => None
            end
        | _ => None
        end
      | _ => let '(r, s1) := quantified (Chr c) t in Some (r, s1, g)
      end
    end
  end.

Definition parse (src : jsstring) : option regex :=
  '(r, s, _) ← disjunction (3 * length src + 3) src 0;
  match s with [] => Some r | _ => None end.

(** [new RegExp(src, flags)]; a pattern that does not parse is a
    SyntaxError. *)
Definition compile (src : jsstring) (flags : string) : option regexp :=
  r ← parse src;
  Some (RegExp r (existsb (Ascii.eqb "i") (list_ascii_of_string flags))).

End Syntax.

(** A regular expression literal [/src/flags] of the sources.  The
    patterns are all well formed (each is checked where it is used), so the
    default is never taken. *)
Definition re (src : string) (flags : string) : RegExp.regexp :=
  default (RegExp.RegExp (RegExp.Class false []) false)
          (Syntax.compile (js src) flags).

(** ** Values, objects and responses *)

(** The values that reach the code modelled here: request parameters are
    strings, or absent, or another JSON scalar; extracted fields are
    strings, [null] or [undefined]. *)
Inductive value :=
| VUndefined
| VNull
| VBool (b : bool)
| VString (s : jsstring).

Global Instance value_eq_dec : EqDecision value.
Proof. solve_decision. Defined.

Definition truthy (v : value) : bool :=
  match v with
  | VBool b => b
  | VString (_ :: _) => true
  | _ => false
  end.

(** [a || b]. *)
Definition or_ (a b : value) : value := if truthy a then a else b.
Infix "|||" := or_ (at level 50, left associativity).

(** The ToString conversion. *)
Definition toString (v : value) : jsstring :=
  match v with
  | VUndefined => js "undefined"
  | VNull => js "null"
  | VBool true => js "true"
  | VBool false => js "false"
  | VString s => s
  end.

(** An object literal: its properties in insertion order. *)
Abbreviation object := (list (string * value)).

Definition get (k : string) (o : object) : option value :=
  snd <$> List.find (fun kv => String.eqb (fst kv) k) o.

Fixpoint set (k : string) (v : value) (o : object) : object :=
  match o with
  | [] => [(k, v)]
  | (k', v') :: o' => if String.eqb k' k then (k, v) :: o' else (k', v') :: set k v o'
  end.

(** [{ ...o, ...more }]. *)
Definition spread (o more : object) : object :=
  fold_left (fun acc kv => set (fst kv) (snd kv) acc) more o.

(** JSON.stringify leaves out the properties that are [undefined]. *)
Definition json (o : object) : object :=
  List.filter (fun kv => negb (bool_decide (snd kv = VUndefined))) o.

Record response := Response {
  status : nat;
  body : object
}.

(** [res.json(o)] and [res.status(n).json(o)]. *)
Definition res_json (o : object) : response := Response 200 (json o).
Definition res_status_json (n : nat) (o : object) : response := Response n (json o).

(** ** Computations that may throw and that use the browser *)

Global Instance outcome_ret : MRet outcome := @Return.
Global Instance outcome_bind : MBind outcome :=
  fun A B f m => match m with Return a => f a | Throw e => Throw e end.

(** What a page load gives the scrapers: the text nodes of the body as the
    tree walker joins them, [document.body.innerText], and the title. *)
Record page := Page {
  text_nodes : jsstring;
  innerText : jsstring;
  title : jsstring
}.

(** The headless browser, outside the program: loading a URL gives a page
    or fails (navigation error, time-out, a browser that does not start). *)
Record browser := Browser {
  load : jsstring -> outcome page;
  (** Typing a tracking number into the form of a carrier's site and
      reading [page.textContent('body')] afterwards (a string or [null]). *)
  submit : jsstring -> jsstring -> outcome value
}.

(** A computation threads the list of URLs the browser was sent to. *)
Definition io (A : Type) : Type := list jsstring -> outcome A * list jsstring.

Global Instance io_ret : MRet io := fun A a t => (Return a, t).
Global Instance io_bind : MBind io :=
  fun A B f m t =>
    match m t with
    | (Return a, t') => f a t'
    | (Throw e, t') => (Throw e, t')
    end.

Definition lift {A} (o : outcome A) : io A := fun t => (o, t).
Definition throw {A} (e : exn) : io A := lift (Throw e).

(** [try { m } catch (e) { h(e) }]. *)
Definition try_catch {A} (m : io A) (h : exn -> io A) : io A :=
  fun t =>
    match m t with
    | (Return a, t') => (Return a, t')
    | (Throw e, t') => h e t'
    end.

Definition goto (b : browser) (url : jsstring) : io page :=
  fun t => (load b url, t ++ [url]).

Definition fill_and_read (b : browser) (site number : jsstring) : io value :=
  fun t => (submit b site number, t ++ [site]).

(** [m?.[i]] for the result [m] of [text.match(re)]. *)
Definition capture (m : option RegExp.match_array) (i : nat) : value :=
  match m ≫= (fun a => RegExp.at_ a i) with
  | Some s => VString s
  | None => VUndefined
  end.

(** [text.match(re)?.[i]]. *)
Definition match_ (text : jsstring) (r : RegExp.regexp) (i : nat) : value :=
  capture (RegExp.exec r text) i.

(** [(v || "").toLowerCase()] and [v.toLowerCase()]: only strings have the
    method, and reading it off [undefined] or [null] is a TypeError too. *)
Definition toLowerCase (v : value) : outcome jsstring :=
  match v with
  | VString s => Return (Js.toLowerCase s)
  | VUndefined | VNull => Throw (TypeError "Cannot read properties of undefined")
  | VBool _ => Throw (TypeError "toLowerCase is not a function")
  end.

(** The parameters of a tracking request, as the handlers destructure
    them from the query or the body. *)
Record request := Request {
  carrier : value;
  code : value
}.

(** ** src/server.js *)

Module Server.

Definition officialLink (carrier code : value) : outcome value :=
  c ← toLowerCase (carrier ||| VString []);
  if bool_decide (c = js "dhl") then
    e ← encodeURIComponent (toString code);
    mret (VString (js "https://www.dhl.com/mx-es/home/rastreo.html?tracking-id=" ++ e))
  else if bool_decide (c = js "fedex") then
    e ← encodeURIComponent (toString code);
    mret (VString (js "https://www.fedex.com/fedextrack/?trknbr=" ++ e
                     ++ js "&cntry_code=mx_esp"))
  else if bool_decide (c = js "ups") then
    e ← encodeURIComponent (toString code);
    mret (VString (js "https://www.ups.com/track?loc=es_MX&tracknum=" ++ e
                     ++ js "&requester=ST/"))
  else if bool_decide (c = js "delta") || bool_decide (c = js "delta-cargo")
          || bool_decide (c = js "deltacargo") then
    e ← encodeURIComponent (toString code);
    mret (VString (js "https://www.deltacargo.com/Cargo/trackShipment?airbillnumber=" ++ e))
  else if bool_decide (c = js "expeditors") then
    mret (VString (js "https://www.expeditors.com/tracking"))
  else mret VNull.

Definition readBodyText (p : page) : jsstring :=
  RegExp.replace_g (re "[ \t]+" "g") (js " ")
    (RegExp.replace_g (re "\u00A0" "g") (js " ") (text_nodes p)).

Definition scrapeFedEx (b : browser) (url : jsstring) : io object :=
  p ← goto b url;
  let text := readBodyText p in
  let status :=
    match_ text (re "Estado de la entrega\s*([^\n]+)" "i") 1
    ||| match_ text (re "\bEntregado\b" "i") 0
    ||| match_ text (re "\bEn camino\b" "i") 0
    ||| match_ text (re "\bDelivered\b" "i") 0
    ||| VNull in
  let deliveredAt :=
    match_ text (re "Entregado\s*(?:el|on)\s*([^\n]+)" "i") 1
    ||| match_ text (re "Delivered\s*(?:on)\s*([^\n]+)" "i") 1
    ||| VNull in
  let signedBy :=
    match_ text (re "Firmado por[:\s]+([A-ZÁÉÍÓÚÑ.\s]+)" "i") 1
    ||| match_ text (re "Signed by[:\s]+([A-Za-z.\s]+)" "i") 1
    ||| VNull in
  let eta :=
    match_ text (re "Entrega (?:estimada|prevista|programada)\s*[:\-]?\s*([^\n]+)" "i") 1
    ||| match_ text (re "Estimated delivery\s*[:\-]?\s*([^\n]+)" "i") 1
    ||| VNull in
  let origin :=
    match_ text (re "\bDESDE\b\s*([A-ZÁÉÍÓÚÑ ,\-]+)" "i") 1
    ||| match_ text (re "\bFROM\b\s*([A-Z ,\-]+)" "i") 1
    ||| VNull in
  let destination :=
    match_ text (re "\bDESTINO\b\s*([A-ZÁÉÍÓÚÑ ,\-]+)" "i") 1
    ||| match_ text (re "\bTO\b\s*([A-Z ,\-]+)" "i") 1
    ||| VNull in
  mret [("status", status); ("deliveredAt", deliveredAt); ("signedBy", signedBy);
        ("eta", eta); ("origin", origin); ("destination", destination)]%string.

Definition scrapeDHL (b : browser) (url : jsstring) : io object :=
  p ← goto b url;
  let text := readBodyText p in
  let status :=
    match_ text (re "Estado\s*[:\-]?\s*([^\n]+)" "i") 1
    ||| match_ text (re "\bEntregado\b" "i") 0
    ||| match_ text (re "\bEn tránsito\b" "i") 0
    ||| VNull in
  let eta :=
    match_ text (re "Fecha de entrega (?:estimada|prevista)\s*[:\-]?\s*([^\n]+)" "i") 1
    ||| match_ text (re "Estimated delivery\s*[:\-]?\s*([^\n]+)" "i") 1
    ||| VNull in
  let deliveredAt :=
    match_ text (re "Entregado\s*(?:el|on)\s*([^\n]+)" "i") 1
    ||| VNull in
  mret [("status", status); ("eta", eta); ("deliveredAt", deliveredAt)]%string.

Definition scrapeUPS (b : browser) (url : jsstring) : io object :=
  p ← goto b url;
  let text := readBodyText p in
  let status :=
    match_ text (re "Estado\s*[:\-]?\s*([^\n]+)" "i") 1
    ||| match_ text (re "\bEntregado\b" "i") 0
    ||| match_ text (re "\bEn tránsito\b" "i") 0
    ||| match_ text (re "\bDelivered\b" "i") 0
    ||| match_ text (re "\bIn Transit\b" "i") 0
    ||| VNull in
  let eta :=
    match_ text (re "Entrega (?:estimada|prevista)\s*[:\-]?\s*([^\n]+)" "i") 1
    ||| match_ text (re "Estimated Delivery\s*[:\-]?\s*([^\n]+)" "i") 1
    ||| VNull in
  let deliveredAt :=
    match_ text (re "Entregado\s*(?:el|on)\s*([^\n]+)" "i") 1
    ||| match_ text (re "Delivered\s*(?:on)\s*([^\n]+)" "i") 1
    ||| VNull in
  let signedBy :=
    match_ text (re "Firmado por[:\s]+([A-ZÁÉÍÓÚÑ.\s]+)" "i") 1
    ||| match_ text (re "Signed by[:\s]+([A-Za-z.\s]+)" "i") 1
    ||| VNull in
  mret [("status", status); ("eta", eta); ("deliveredAt", deliveredAt);
        ("signedBy", signedBy)]%string.

Definition scrapeDeltaCargo (b : browser) (url : jsstring) : io object :=
  p ← goto b url;
  let text := readBodyText p in
  let status :=
    match_ text (re "Estado\s*[:\-]?\s*([^\n]+)" "i") 1
    ||| match_ text (re "En tránsito|Entregado|Listo para retiro" "i") 0
    ||| VNull in
  let eta :=
    match_ text (re "Fecha (?:estimada|prevista)\s*[:\-]?\s*([^\n]+)" "i") 1
    ||| VNull in
  let lastScan :=
    match_ text (re "(?:Última actualización|Last update)\s*[:\-]?\s*([^\n]+)" "i") 1
    ||| VNull in
  mret [("status", status); ("eta", eta); ("lastScan", lastScan)]%string.

Definition scrapeExpeditors (b : browser) (url : jsstring) : io object :=
  p ← goto b url;
  let text := readBodyText p in
  let status :=
    match_ text (re "Status\s*[:\-]?\s*([^\n]+)" "i") 1
    ||| match_ text (re "Entregado|En tránsito|Listo" "i") 0
    ||| VNull in
  mret [("status", status)]%string.

Definition scrapeByCarrier (b : browser) (carrier : value) (url : jsstring)
  : io object :=
  c ← lift (toLowerCase (carrier ||| VString []));
  if Js.includes c (js "fedex") then scrapeFedEx b url
  else if Js.includes c (js "dhl") then scrapeDHL b url
  else if Js.includes c (js "ups") then scrapeUPS b url
  else if Js.includes c (js "delta") then scrapeDeltaCargo b url
  else if Js.includes c (js "expeditors") then scrapeExpeditors b url
  else mret [].

Definition missing_parameters : response :=
  res_status_json 400
    [("ok", VBool false);
     ("error", VString (js "Faltan parámetros: carrier y code"))]%string.

Definition unsupported (carrier : value) : response :=
  res_status_json 400
    [("ok", VBool false); ("error", VString (js "Carrier no soportado"));
     ("carrier", carrier)]%string.

Definition internal_error : response :=
  res_status_json 500
    [("ok", VBool false); ("error", VString (js "Error interno"))]%string.

(** [app.get("/api/track", ...)]; [USE_SCRAPE] is the environment flag
    read when the server starts. *)
Definition api_track (USE_SCRAPE : bool) (b : browser) (req : request)
  : io response :=
  try_catch
    (let carrier := carrier req in
     let code := code req in
     if negb (truthy carrier) || negb (truthy code) then mret missing_parameters
     else
       url ← lift (officialLink carrier code);
       if negb (truthy url) then mret (unsupported carrier)
       else
         details ←
           (if USE_SCRAPE
            then try_catch (scrapeByCarrier b carrier (toString url))
                           (fun _ => mret [])
            else mret []);
         mret (res_json
                 (spread [("ok", VBool true); ("carrier", carrier); ("code", code);
                          ("officialUrl", url)]%string details)))
    (fun _ => mret internal_error).

End Server.

(** ** src/app.js, first program: the server with scraping off by default *)

Module App.

Definition officialLink (carrier code : value) : outcome value :=
  c ← toLowerCase (carrier ||| VString []);
  if bool_decide (c = js "dhl") then
    e ← encodeURIComponent (toString code);
    mret (VString (js "https://www.dhl.com/mx-es/home/rastreo.html?tracking-id=" ++ e))
  else if bool_decide (c = js "fedex") then
    e ← encodeURIComponent (toString code);
    mret (VString (js "https://www.fedex.com/fedextrack/?trknbr=" ++ e
                     ++ js "&cntry_code=mx_esp"))
  else if bool_decide (c = js "ups") then
    e ← encodeURIComponent (toString code);
    mret (VString (js "https://www.ups.com/track?loc=es_MX&tracknum=" ++ e
                     ++ js "&requester=ST/"))
  else if bool_decide (c = js "delta") || bool_decide (c = js "delta-cargo") then
    e ← encodeURIComponent (toString code);
    mret (VString (js "https://www.deltacargo.com/Cargo/trackShipment?airbillnumber=" ++ e))
  else if bool_decide (c = js "expeditors") then
    mret (VString (js "https://www.expeditors.com/tracking"))
  else mret VNull.

(** [withPage] refuses to start the browser unless [USE_SCRAPE] is set;
    the page it hands to [fn] is modelled by the page load itself. *)
Definition withPage {A} (USE_SCRAPE : bool) (fn : io A) : io A :=
  if negb USE_SCRAPE then throw (Error "SCRAPE_DISABLED") else fn.

Definition scrapeFedEx (USE_SCRAPE : bool) (b : browser) (url : jsstring) : io object :=
  withPage USE_SCRAPE
    (p ← goto b url;
     (* document.body.innerText || "" *)
     let text := toString (VString (innerText p) ||| VString []) in
     let status :=
       match_ text (re "Estado de la entrega\s*([^\n]+)" "i") 1
       ||| match_ text (re "\bEntregado\b" "i") 0
       ||| match_ text (re "\bDelivered\b" "i") 0
       ||| VNull in
     let deliveredAt :=
       match_ text (re "Entregado\s+El\s+([^\n]+)" "i") 1
       ||| match_ text (re "Delivered\s+on\s+([^\n]+)" "i") 1
       ||| VNull in
     let signedBy :=
       match_ text (re "Firmado por[:\s]+([A-ZÁÉÍÓÚÑ.\s]+)" "i") 1
       ||| match_ text (re "Signed by[:\s]+([A-Za-z.\s]+)" "i") 1
       ||| VNull in
     let eta :=
       match_ text (re "Entrega (?:estimada|prevista|programada)\s*[:\-]?\s*([^\n]+)" "i") 1
       ||| match_ text (re "Estimated delivery\s*[:\-]?\s*([^\n]+)" "i") 1
       ||| VNull in
     mret [("status", status); ("deliveredAt", deliveredAt); ("signedBy", signedBy);
           ("eta", eta)]%string).

Definition scrapeByCarrier (USE_SCRAPE : bool) (b : browser) (carrier : value)
           (url : jsstring) : io object :=
  c ← lift (toLowerCase (carrier ||| VString []));
  if Js.includes c (js "fedex") then scrapeFedEx USE_SCRAPE b url
  else mret [].

(** [app.post("/api/track", ...)]. *)
Definition api_track (USE_SCRAPE : bool) (b : browser) (req : request)
  : io response :=
  try_catch
    (let carrier := carrier req in
     let code := code req in
     if negb (truthy carrier) || negb (truthy code)
     then mret Server.missing_parameters
     else
       url ← lift (officialLink carrier code);
       if negb (truthy url) then mret (Server.unsupported carrier)
       else
         details ← try_catch (scrapeByCarrier USE_SCRAPE b carrier (toString url))
                             (fun _ => mret []);
         mret (res_json
                 (spread [("ok", VBool true); ("carrier", carrier); ("code", code);
                          ("officialUrl", url)]%string details)))
    (fun _ => mret Server.internal_error).

End App.

(** ** src/app.js, second program: form-filling scrapers behind a cache *)

Module AppCache.

Definition CACHE_TTL_MS : Z := 10 * 60 * 1000.

Record entry := Entry {
  value_ : object;
  expires : Z
}.

(** The [Map] from keys to entries. *)
Abbreviation cache := (gmap jsstring entry).

(** [getFromCache(key)], at the time [now] that [Date.now()] returns:
    the value or [null], and the cache afterwards. *)
Definition getFromCache (now : Z) (key : jsstring) (c : cache)
  : option object * cache :=
  match c !! key with
  | None => (None, c)
  | Some e =>
    if (now <? expires e)%Z then (Some (value_ e), c)
    else (None, delete key c)
  end.

(** [setInCache(key, value)] at the time [now]. *)
Definition setInCache (now : Z) (key : jsstring) (v : object) (c : cache) : cache :=
  let expires := (now + CACHE_TTL_MS)%Z in
  <[key := {| value_ := v; expires := expires |}]> c.

Definition months : list jsstring :=
  List.map js
    ["January"; "February"; "March"; "April"; "May"; "June"; "July"; "August";
     "September"; "October"; "November"; "December";
     "Enero"; "Febrero"; "Marzo"; "Abril"; "Mayo"; "Junio"; "Julio"; "Agosto";
     "Septiembre"; "Octubre"; "Noviembre"; "Diciembre";
     "Jan"; "Feb"; "Mar"; "Apr"; "May"; "Jun"; "Jul"; "Aug"; "Sep"; "Oct"; "Nov"; "Dec";
     "Ene"; "Feb"; "Mar"; "Abr"; "May"; "Jun"; "Jul"; "Ago"; "Sep"; "Oct"; "Nov"; "Dic"
    ]%string.

(** [xs.join(sep)]. *)
Fixpoint join (sep : jsstring) (xs : list jsstring) : jsstring :=
  match xs with
  | [] => []
  | [x] => x
  | x :: xs' => x ++ sep ++ join sep xs'
  end.

(** [new RegExp(src, flags)] for a pattern computed at run time. *)
Definition new_RegExp (src : jsstring) (flags : string) : RegExp.regexp :=
  default (RegExp.RegExp (RegExp.Class false []) false) (Syntax.compile src flags).

(** The pattern of [extractDate] is written in a template literal, where
    the escapes are those of strings: there [\b] is the backspace U+0008,
    and [\d] and [\s] are the letters d and s.  This is the string the
    RegExp constructor receives. *)
Definition dateRegex_source : jsstring :=
  [8%N] ++ js "(d{1,2})s+(" ++ join (js "|") months ++ js ")s+(d{4})" ++ [8%N].

Definition extractDate (text : jsstring) : value :=
  let dateRegex := new_RegExp dateRegex_source "i" in
  match RegExp.exec dateRegex text with
  | Some m => VString (Js.trim (default [] (RegExp.at_ m 0)))
  | None => VNull
  end.

Definition statuses : list jsstring :=
  List.map js
    ["Delivered"; "Out for delivery"; "In Transit"; "In transit"; "Shipped";
     "Shipment information received";
     "Entregado"; "En reparto"; "En tránsito"; "En transito"; "En Camino";
     "Recibido"; "Despachado"; "En camino"]%string.

(** The [for ... of] loop of [extractStatus] over the statuses left. *)
Fixpoint extractStatus_loop (statuses : list jsstring) (text : jsstring) : value :=
  match statuses with
  | [] => VNull
  | status :: more =>
    let regex := new_RegExp status "i" in
    if RegExp.test regex text then VString status
    else extractStatus_loop more text
  end.

Definition extractStatus (text : jsstring) : value :=
  extractStatus_loop statuses text.

(** The five scrapers differ in the site they open and the form they
    fill; what they do with the text of the page is the same. *)
Definition scrape_site (site : jsstring) (b : browser) (trackingNumber : jsstring)
  : io object :=
  bodyText ← fill_and_read b site trackingNumber;
  let latestDate := extractDate (toString (bodyText ||| VString [])) in
  let latestStatus :=
    extractStatus (toString (bodyText ||| VString [])) ||| VString (js "Unknown") in
  mret [("latest_status", latestStatus); ("latest_date", latestDate)]%string.

Definition scrapeDHL := scrape_site (js "https://www.dhl.com/mx-es/home/rastreo.html").
Definition scrapeFedEx := scrape_site (js "https://www.fedex.com/es-mx/tracking.html").
Definition scrapeUPS := scrape_site (js "https://es-us.ups.com/track?loc=es_US&requester=ST/").
Definition scrapeDelta := scrape_site (js "https://www.deltacargo.com/Cargo/trackShipment").
Definition scrapeExpeditors := scrape_site (js "https://www.expeditors.com/tracking").

(** The object [scrapers], read as a map from carrier ids (the names it
    inherits from Object.prototype are not carriers and are left out). *)
Definition scrapers : gmap jsstring (browser -> jsstring -> io object) :=
  {[ js "dhl" := scrapeDHL; js "fedex" := scrapeFedEx; js "ups" := scrapeUPS;
     js "delta" := scrapeDelta; js "expeditors" := scrapeExpeditors ]}.

(** A request to [/track/:carrier?number=...]. *)
Record track_request := TrackRequest {
  param_carrier : jsstring;
  query_number : value
}.

Definition trackingNumber_of (req : track_request) : jsstring :=
  Js.trim (toString (query_number req ||| VString [])).

(** The template literal [`${carrier}:${trackingNumber}`]. *)
Definition cacheKey (carrier trackingNumber : jsstring) : jsstring :=
  carrier ++ js ":" ++ trackingNumber.

(** [app.get('/track/:carrier', ...)].  [now] is the clock when the cache
    is read and [later] the clock when the result is stored.  The cache is
    the state of the server between requests. *)
Definition track (b : browser) (now later : Z) (req : track_request) (c : cache)
  : io (response * cache) :=
  let carrier := param_carrier req in
  let trackingNumber := trackingNumber_of req in
  match scrapers !! carrier with
  | None =>
    mret (res_status_json 404
            [("error", VString (js "Unsupported carrier '" ++ carrier ++ js "'"))]%string,
          c)
  | Some scraper =>
    if negb (truthy (VString trackingNumber)) then
      mret (res_status_json 400
              [("error", VString (js "Missing " ++ [34%N] ++ js "number" ++ [34%N]
                                    ++ js " query parameter"))]%string,
            c)
    else
      let cacheKey := cacheKey carrier trackingNumber in
      let '(cached, c) := getFromCache now cacheKey c in
      match cached with
      | Some cached =>
        mret (res_json
                (spread (spread [("carrier", VString carrier);
                                 ("trackingNumber", VString trackingNumber)]%string
                                cached)
                        [("cached", VBool true)]%string),
              c)
      | None =>
        try_catch
          (result ← scraper b trackingNumber;
           let c := setInCache later cacheKey result c in
           mret (res_json
                   (spread (spread [("carrier", VString carrier);
                                    ("trackingNumber", VString trackingNumber)]%string
                                   result)
                           [("cached", VBool false)]%string),
                 c))
          (fun err =>
             mret (res_status_json 500
                     [("error", VString (message err) ||| VString (js "Tracking failed"))]%string,
                   c))
      end
  end.

End AppCache.

(** ** src/unnamed/part_000: one generic scraper for every carrier *)

Module Part000.

Definition officialLink (carrier code : value) : outcome value :=
  c ← toLowerCase carrier;
  if bool_decide (c = js "dhl") then
    e ← encodeURIComponent (toString code);
    mret (VString (js "https://www.dhl.com/mx-es/home/rastreo.html?tracking-id=" ++ e))
  else if bool_decide (c = js "fedex") then
    e ← encodeURIComponent (toString code);
    mret (VString (js "https://www.fedex.com/fedextrack/?trknbr=" ++ e
                     ++ js "&cntry_code=mx_esp"))
  else if bool_decide (c = js "ups") then
    e ← encodeURIComponent (toString code);
    mret (VString (js "https://www.ups.com/track?loc=es_MX&tracknum=" ++ e
                     ++ js "&requester=ST/"))
  else if bool_decide (c = js "delta") || bool_decide (c = js "delta-cargo")
          || bool_decide (c = js "deltacargo") then
    e ← encodeURIComponent (toString code);
    mret (VString (js "https://www.deltacargo.com/Cargo/trackShipment?airbillnumber=" ++ e))
  else if bool_decide (c = js "expeditors") then
    mret (VString (js "https://www.expeditors.com/tracking"))
  else mret VNull.

Definition statusCandidates : list RegExp.regexp :=
  [re "entregado" "i";
   re "en tránsito" "i";
   re "en camino" "i";
   re "recogido" "i";
   re "listo para entrega" "i";
   re "demorado" "i";
   re "delivered" "i";
   re "out for delivery" "i";
   re "in transit" "i";
   re "picked up" "i";
   re "delayed" "i"].

Definition etaRegexes : list RegExp.regexp :=
  [re "entrega (estimada|prevista|programada)\s*[:\-]?\s*([0-9]{1,2}\/[0-9]{1,2}\/[0-9]{2,4})" "i";
   re "(fecha|entrega) (estimada|prevista|programada)\s*[:\-]?\s*([A-Za-zÁÉÍÓÚÑa-z]+\.?\s*\d{1,2},?\s*\d{4})" "i";
   re "(estimated|scheduled)\s*delivery\s*[:\-]?\s*([A-Za-z]+\s*\d{1,2},?\s*\d{4})" "i";
   re "(estimated|scheduled)\s*delivery\s*[:\-]?\s*([0-9]{1,2}\/[0-9]{1,2}\/[0-9]{2,4})" "i"].

(** The loop over [etaRegexes]: the first pattern that matches ends it,
    and [etaText] becomes the last element of its match array. *)
Fixpoint eta_loop (regexes : list RegExp.regexp) (text : jsstring) : value :=
  match regexes with
  | [] => VNull
  | r :: more =>
    match RegExp.exec r text with
    | Some m => capture (Some m) (length (RegExp.elems m) - 1)
    | None => eta_loop more text
    end
  end.

Record parsed := Parsed {
  status_ : value;
  etaText : value
}.

Definition extractStatusAndEta (bigText : jsstring) : parsed :=
  let text := Js.trim (RegExp.replace_g (re "\s+" "g") (js " ") bigText) in
  let foundStatus := List.find (fun r => RegExp.test r text) statusCandidates in
  let status :=
    match foundStatus with
    | Some r => match_ text r 0
    | None => VNull
    end in
  {| status_ := status; etaText := eta_loop etaRegexes text |}.

(** [scrapePublicPage(url)]: the visible text and the title of the page. *)
Definition scrapePublicPage (b : browser) (url : jsstring) : io (jsstring * jsstring) :=
  p ← goto b url;
  let bodyText := toString (VString (innerText p) ||| VString []) in
  mret (bodyText, title p).

(** [app.post("/api/track", ...)].  The three variables assigned inside the
    inner [try] keep their initial [null] when the scrape throws. *)
Definition api_track (b : browser) (req : request) : io response :=
  try_catch
    (let carrier := carrier req in
     let code := code req in
     if negb (truthy carrier) || negb (truthy code)
     then mret Server.missing_parameters
     else
       url ← lift (officialLink carrier code);
       if negb (truthy url) then mret (Server.unsupported carrier)
       else
         '(status, etaText, title) ←
           try_catch
             ('(bodyText, pageTitle) ← scrapePublicPage b (toString url);
              let parsed := extractStatusAndEta bodyText in
              mret (status_ parsed, etaText parsed, VString pageTitle))
             (fun _ => mret (VNull, VNull, VNull));
         mret (res_json
                 [("ok", VBool true); ("carrier", carrier); ("code", code);
                  ("officialUrl", url); ("status", status ||| VNull);
                  ("eta", etaText ||| VNull); ("title", title)]%string))
    (fun _ => mret Server.internal_error).

End Part000.

(** ** src/unnamed/part_001: the scrapers over sanitized text *)

Module Part001.

(** [officialLink] is, word for word, that of src/server.js. *)
Definition officialLink (carrier code : value) : outcome value :=
  Server.officialLink carrier code.

(** [sanitize(text)]. *)
Definition sanitize (text : value) : jsstring :=
  Js.trim
    (RegExp.replace_g (re "ir al contenido principal" "gi") []
       (RegExp.replace_g (re "skip to main content" "gi") []
          (RegExp.replace_g (re "[ \t]+" "g") (js " ")
             (RegExp.replace_g (re "\u00A0" "g") (js " ")
                (toString (text ||| VString [])))))).

Definition readBodyText (p : page) : jsstring := text_nodes p.

(** [cap(s)]. *)
Definition cap (s : value) : value :=
  if truthy s
  then VString (RegExp.replace_g (re "\s{2,}" "g") (js " ") (Js.trim (toString s)))
  else s.

Definition main_content (destination : value) : value :=
  if truthy destination && RegExp.test (re "main content" "i") (toString destination)
  then VNull else destination.

Definition scrapeFedEx (b : browser) (url : jsstring) : io object :=
  p ← goto b url;
  let text := sanitize (VString (readBodyText p)) in
  let status := cap (
    match_ text (re "(?:^|\n)\s*Estado de la entrega\s*([^\n]+)" "i") 1
    ||| match_ text (re "(?:^|\n)\s*(Entregado|En camino|Listo para la entrega)\b" "i") 1
    ||| match_ text (re "(?:^|\n)\s*(Delivered|In transit|On vehicle for delivery)\b" "i") 1) in
  let deliveredAt := cap (
    match_ text (re "(?:^|\n)\s*Entregado\s*(?:el|on)?\s*([^\n]+)" "i") 1
    ||| match_ text (re "ENTREGADO[\s\S]{0,120}?El\s+([^\n]+)" "i") 1
    ||| match_ text (re "Delivered[\s\S]{0,120}?(?:on)?\s+([^\n]+)" "i") 1) in
  let signedBy := cap (
    match_ text (re "(?:^|\n)\s*Firmado por[:\s]+([A-ZÁÉÍÓÚÑ .-]{3,})" "i") 1
    ||| match_ text (re "(?:^|\n)\s*Signed by[:\s]+([A-Za-z .-]{3,})" "i") 1) in
  let origin := cap (
    match_ text (re "(?:^|\n)\s*DESDE\s*([A-ZÁÉÍÓÚÑ ,.-]+)\b" "") 1
    ||| match_ text (re "(?:^|\n)\s*FROM\s*([A-Z ,.-]+)\b" "") 1) in
  let destination := cap (
    match_ text (re "(?:^|\n)\s*ENTREGADO\s*([A-ZÁÉÍÓÚÑ ,.-]+)\b" "") 1) in
  let destination :=
    if negb (truthy destination) then
      cap (
        match_ text (re "(?:^|\n)\s*LISTO PARA LA ENTREGA\s*([A-ZÁÉÍÓÚÑ ,.-]+)\b" "") 1
        ||| match_ text (re "(?:^|\n)\s*EN CAMINO\s*([A-ZÁÉÍÓÚÑ ,.-]+)\b" "") 1
        ||| match_ text (re "(?:^|\n)\s*TO\s*([A-Z ,.-]+)\b" "") 1)
    else destination in
  let destination := main_content destination in
  let eta := cap (
    match_ text (re "Entrega (?:estimada|prevista|programada)\s*[:\-]?\s*([^\n]+)" "i") 1
    ||| match_ text (re "Estimated delivery\s*[:\-]?\s*([^\n]+)" "i") 1
    ||| VNull) in
  mret [("status", status); ("deliveredAt", deliveredAt); ("signedBy", signedBy);
        ("eta", eta); ("origin", origin); ("destination", destination)]%string.

Definition scrapeDHL (b : browser) (url : jsstring) : io object :=
  p ← goto b url;
  let text := sanitize (VString (readBodyText p)) in
  let status := cap (
    match_ text (re "(?:^|\n)\s*Estado\s*[:\-]?\s*([^\n]+)" "i") 1
    ||| match_ text (re "(?:^|\n)\s*(En tránsito|Entregado|Listo para la entrega)\b" "i") 1
    ||| match_ text (re "(?:^|\n)\s*(In transit|Delivered|Out for delivery)\b" "i") 1) in
  let eta := cap (
    match_ text (re "Fecha de entrega (?:estimada|prevista)\s*[:\-]?\s*([^\n]+)" "i") 1
    ||| match_ text (re "Estimated delivery\s*[:\-]?\s*([^\n]+)" "i") 1
    ||| VNull) in
  let deliveredAt := cap (
    match_ text (re "(?:^|\n)\s*Entregado\s*(?:el|on)\s*([^\n]+)" "i") 1
    ||| VNull) in
  mret [("status", status); ("eta", eta); ("deliveredAt", deliveredAt)]%string.

Definition scrapeUPS (b : browser) (url : jsstring) : io object :=
  p ← goto b url;
  let text := sanitize (VString (readBodyText p)) in
  let status := cap (
    match_ text (re "(?:^|\n)\s*Estado\s*[:\-]?\s*([^\n]+)" "i") 1
    ||| match_ text (re "(?:^|\n)\s*(Entregado|En tránsito|Listo para entrega)\b" "i") 1
    ||| match_ text (re "(?:^|\n)\s*(Delivered|In Transit|Out for Delivery)\b" "i") 1) in
  let eta := cap (
    match_ text (re "Entrega (?:estimada|prevista)\s*[:\-]?\s*([^\n]+)" "i") 1
    ||| match_ text (re "Estimated Delivery\s*[:\-]?\s*([^\n]+)" "i") 1
    ||| VNull) in
  let deliveredAt := cap (
    match_ text (re "(?:^|\n)\s*Entregado\s*(?:el|on)\s*([^\n]+)" "i") 1
    ||| match_ text (re "(?:^|\n)\s*Delivered\s*(?:on)\s*([^\n]+)" "i") 1
    ||| VNull) in
  let signedBy := cap (
    match_ text (re "(?:^|\n)\s*Firmado por[:\s]+([A-ZÁÉÍÓÚÑ .-]{3,})" "i") 1
    ||| match_ text (re "(?:^|\n)\s*Signed by[:\s]+([A-Za-z .-]{3,})" "i") 1
    ||| VNull) in
  let destination := cap (
    match_ text (re "(?:^|\n)\s*ENTREGADO\s*([A-ZÁÉÍÓÚÑ ,.-]+)\b" "") 1
    ||| match_ text (re "(?:^|\n)\s*DELIVERED\s*([A-Z ,.-]+)\b" "") 1) in
  let destination := main_content destination in
  mret [("status", status); ("eta", eta); ("deliveredAt", deliveredAt);
        ("signedBy", signedBy); ("destination", destination)]%string.

Definition scrapeDeltaCargo (b : browser) (url : jsstring) : io object :=
  p ← goto b url;
  let text := sanitize (VString (readBodyText p)) in
  let status := cap (
    match_ text (re "(?:^|\n)\s*Estado\s*[:\-]?\s*([^\n]+)" "i") 1
    ||| match_ text (re "(?:^|\n)\s*(En tránsito|Entregado|Listo|En bodega)\b" "i") 1
    ||| match_ text (re "(?:^|\n)\s*(In Transit|Delivered|Ready|At warehouse)\b" "i") 1) in
  let eta := cap (
    match_ text (re "(?:^|\n)\s*Fecha (?:estimada|prevista)\s*[:\-]?\s*([^\n]+)" "i") 1
    ||| match_ text (re "(?:^|\n)\s*Estimated (?:date|time)\s*[:\-]?\s*([^\n]+)" "i") 1
    ||| VNull) in
  let lastScan := cap (
    match_ text (re "(?:^|\n)\s*(Última actualización|Last update)\s*[:\-]?\s*([^\n]+)" "i") 2
    ||| VNull) in
  mret [("status", status); ("eta", eta); ("lastScan", lastScan)]%string.

Definition scrapeExpeditors (b : browser) (url : jsstring) : io object :=
  p ← goto b url;
  let text := sanitize (VString (readBodyText p)) in
  let status := cap (
    match_ text (re "(?:^|\n)\s*Status\s*[:\-]?\s*([^\n]+)" "i") 1
    ||| match_ text (re "(?:^|\n)\s*(Delivered|In Transit|Available|Ready)" "i") 1
    ||| match_ text (re "(?:^|\n)\s*(Entregado|En tránsito|Disponible|Listo)" "i") 1
    ||| VNull) in
  mret [("status", status)]%string.

Definition scrapeByCarrier (b : browser) (carrier : value) (url : jsstring)
  : io object :=
  c ← lift (toLowerCase (carrier ||| VString []));
  if Js.includes c (js "fedex") then scrapeFedEx b url
  else if Js.includes c (js "dhl") then scrapeDHL b url
  else if Js.includes c (js "ups") then scrapeUPS b url
  else if Js.includes c (js "delta") then scrapeDeltaCargo b url
  else if Js.includes c (js "expeditors") then scrapeExpeditors b url
  else mret [].

(** [app.get("/api/track", ...)]. *)
Definition api_track (USE_SCRAPE : bool) (b : browser) (req : request)
  : io response :=
  try_catch
    (let carrier := carrier req in
     let code := code req in
     if negb (truthy carrier) || negb (truthy code)
     then mret Server.missing_parameters
     else
       url ← lift (officialLink carrier code);
       if negb (truthy url) then mret (Server.unsupported carrier)
       else
         details ←
           (if USE_SCRAPE
            then try_catch (scrapeByCarrier b carrier (toString url))
                           (fun _ => mret [])
            else mret []);
         mret (res_json
                 (spread [("ok", VBool true); ("carrier", carrier); ("code", code);
                          ("officialUrl", url)]%string details)))
    (fun _ => mret Server.internal_error).

End Part001.

(** ** src/app.js, second program: the air waybill of [scrapeDelta] *)

(** What [scrapeDelta] of the second program of src/app.js computes from
    the tracking number before it fills the form of Delta Cargo: the number
    without separators, and its split into the prefix and the serial number
    of an air waybill ([slice(0, 3)] and [slice(3)]). *)
Module ScrapeDelta.

Definition normalized (trackingNumber : jsstring) : jsstring :=
  RegExp.replace_g (re "[^A-Za-z0-9]" "g") [] trackingNumber.

Definition awbPrefix (trackingNumber : jsstring) : jsstring :=
  take 3 (normalized trackingNumber).

Definition awbNumber (trackingNumber : jsstring) : jsstring :=
  drop 3 (normalized trackingNumber).

End ScrapeDelta.


(** * Properties *)

(** ** Vocabulary of the statements *)

(** The carrier ids the registry of src/server.js answers to: the five
    carriers and the aliases of Delta Cargo. *)
Definition carrier_ids : list jsstring :=
  [js "dhl"; js "fedex"; js "ups"; js "delta"; js "delta-cargo"; js "deltacargo";
   js "expeditors"].

Definition supported (carrier : jsstring) : bool :=
  bool_decide (Js.toLowerCase carrier ∈ carrier_ids).

(** The URL of each id, given the encoded code. *)
Definition link (c e : jsstring) : jsstring :=
  if bool_decide (c = js "dhl") then
    js "https://www.dhl.com/mx-es/home/rastreo.html?tracking-id=" ++ e
  else if bool_decide (c = js "fedex") then
    js "https://www.fedex.com/fedextrack/?trknbr=" ++ e ++ js "&cntry_code=mx_esp"
  else if bool_decide (c = js "ups") then
    js "https://www.ups.com/track?loc=es_MX&tracknum=" ++ e ++ js "&requester=ST/"
  else if bool_decide (c = js "expeditors") then
    js "https://www.expeditors.com/tracking"
  else js "https://www.deltacargo.com/Cargo/trackShipment?airbillnumber=" ++ e.

(** The response that carries the official link and nothing else. *)
Definition link_only (carrier code : value) (url : jsstring) : response :=
  Response 200 [("ok", VBool true); ("carrier", carrier); ("code", code);
                ("officialUrl", VString url)]%string.

(** [w] stands at the head of [s], up to the case folding of the [i] flag
    when [ic] is set. *)
Fixpoint prefix_ci (ic : bool) (w s : jsstring) : bool :=
  match w, s with
  | [], _ => true
  | a :: w', b :: s' => (RegExp.canon ic a =? RegExp.canon ic b)%N && prefix_ci ic w' s'
  | _ :: _, [] => false
  end.

(** [w] occurs somewhere in [s]. *)
Fixpoint occurs (ic : bool) (w s : jsstring) : bool :=
  prefix_ci ic w s ||
  match s with
  | [] => false
  | _ :: t => occurs ic w t
  end.

(** The leftmost occurrence of [w] in [s], as it is written in [s], with
    its position counted from [i]. *)
Fixpoint find_ci (ic : bool) (w s : jsstring) (i : nat) : option (nat * jsstring) :=
  if prefix_ci ic w s then Some (i, take (length w) s)
  else
    match s with
    | [] => None
    | _ :: t => find_ci ic w t (S i)
    end.

(** Two strings that the [i] flag does not tell apart. *)
Definition same_ci (x y : jsstring) : Prop :=
  List.map RegExp.upper_unit x = List.map RegExp.upper_unit y.

(** The length of the run of code units satisfying [P] at the head of [s]. *)
Fixpoint span (P : N -> bool) (s : jsstring) : nat :=
  match s with
  | c :: t => if P c then S (span P t) else 0
  | [] => 0
  end.

(** Every run of code units satisfying [P] replaced by [by_]; [in_run]
    tells that the run has begun before [s]. *)
Fixpoint squeeze (P : N -> bool) (by_ : jsstring) (in_run : bool) (s : jsstring)
  : jsstring :=
  match s with
  | [] => []
  | c :: t =>
    if P c then (if in_run then squeeze P by_ true t else by_ ++ squeeze P by_ true t)
    else c :: squeeze P by_ false t
  end.

Definition is_blank (c : N) : bool := (c =? 32)%N || (c =? 9)%N.

(** A matcher state moved [n] code units on. *)
Definition advance (n : nat) (st : RegExp.mstate) : RegExp.mstate :=
  {| RegExp.prev := match last (take n (RegExp.rest st)) with
                    | Some c => Some c
                    | None => RegExp.prev st
                    end;
     RegExp.rest := drop n (RegExp.rest st);
     RegExp.caps := RegExp.caps st;
     RegExp.pos := RegExp.pos st + n |}.

(** The key as the specification words it: carrier and code, both trimmed
    and in lower case, joined by a colon. *)
Definition spec_cache_key (carrier code : jsstring) : jsstring :=
  Js.toLowerCase (Js.trim carrier) ++ js ":" ++ Js.toLowerCase (Js.trim code).

(** The key the handler computes for a request. *)
Definition request_key (req : AppCache.track_request) : jsstring :=
  AppCache.cacheKey (AppCache.param_carrier req) (AppCache.trackingNumber_of req).

(** What the handler of part_000 answers when the scrape fails: the link,
    with [status], [eta] and [title] left at [null]. *)
Definition link_and_nulls (cr cd : value) (url : jsstring) : response :=
  Response 200 [("ok", VBool true); ("carrier", cr); ("code", cd);
                ("officialUrl", VString url); ("status", VNull); ("eta", VNull);
                ("title", VNull)]%string.

(** A browser whose every page load times out. *)
Definition offline : browser :=
  {| load := fun _ => Throw (Exn "TimeoutError" (js "Timeout 45000ms exceeded"));
     submit := fun _ _ => Throw (Exn "TimeoutError" (js "Timeout 45000ms exceeded")) |}.

(** The words [statusCandidates] of part_000 looks for, in its order. *)
Definition status_keywords : list jsstring :=
  List.map js
    ["entregado"; "en tránsito"; "en camino"; "recogido"; "listo para entrega";
     "demorado"; "delivered"; "out for delivery"; "in transit"; "picked up";
     "delayed"]%string.

(** The canonical vocabulary the specification names. *)
Definition canonical_vocabulary : list jsstring :=
  List.map js
    ["delivered"; "out_for_delivery"; "in_transit"; "picked_up"; "delayed";
     "unknown"]%string.

(** The text [extractStatusAndEta] works on: runs of white space squeezed
    to one blank, then trimmed. *)
Definition normalized (bigText : jsstring) : jsstring :=
  Js.trim (squeeze Js.is_space [32%N] false bigText).

(** A string without white space. *)
Definition solid (x : jsstring) : bool := forallb (fun c => negb (Js.is_space c)) x.

(** No-break spaces turned into blanks. *)
Definition unbreak (s : jsstring) : jsstring :=
  List.map (fun c => if (0xA0 =? c)%N then 32%N else c) s.



(** The two phrases of the date examples. *)
Definition entrega_estimada : jsstring := js "Entrega estimada: 27/08/2025".
Definition estimated_delivery : jsstring := js "Estimated delivery: August 27, 2025".

(** The four candidates of [etaRegexes], by position. *)
Definition eta_candidate (i : nat) : RegExp.regexp :=
  nth i Part000.etaRegexes (RegExp.RegExp (RegExp.Class false []) false).

(** Every white space of [x] is one blank, followed by a code unit that is
    not white space. *)
Fixpoint spaced (x : jsstring) : bool :=
  match x with
  | [] => true
  | c :: t =>
    (if Js.is_space c
     then (c =? 32)%N && match t with d :: _ => negb (Js.is_space d) | [] => false end
     else true) && spaced t
  end.

(** A string of UTF-16 code units, as every JavaScript string is: each
    unit is below 2^16. *)
Definition utf16 (s : jsstring) : bool := forallb (fun c => c <? 0x10000)%N s.

(** The code units [encodeURIComponent] writes: those it leaves alone and
    the per cent sign of its escapes. *)
Definition url_safe (c : N) : bool := Js.uri_unreserved c || (c =? 0x25)%N.

(** The characters that delimit the parts of a URL and of its query. *)
Definition url_delimiters : jsstring := js "&=?#/:;+, ".

(** The carrier ids of the second program of src/app.js: the keys of
    [scrapers]. *)
Definition legacy_ids : list jsstring :=
  [js "dhl"; js "fedex"; js "ups"; js "delta"; js "expeditors"].

(** The property names that every object literal inherits from
    Object.prototype; [scrapers[carrier]] finds them too. *)
Definition object_prototype_names : list jsstring :=
  List.map js
    ["constructor"; "__defineGetter__"; "__defineSetter__"; "hasOwnProperty";
     "__lookupGetter__"; "__lookupSetter__"; "isPrototypeOf"; "propertyIsEnumerable";
     "toString"; "valueOf"; "__proto__"; "toLocaleString"]%string.

(** The answer 200 of [/track/:carrier]: the carrier, the number, the
    fields of the result and the [cached] flag. *)
Definition tracked (carrier trackingNumber : jsstring) (result : object) (cached : bool)
  : response :=
  res_json (spread (spread [("carrier", VString carrier);
                            ("trackingNumber", VString trackingNumber)]%string result)
                   [("cached", VBool cached)]%string).

(** The answer of [/track/:carrier] that carries only an error message. *)
Definition failure (status : nat) (msg : jsstring) : response :=
  Response status [("error", VString msg)]%string.

(** Every code unit of [s] that satisfies [P] is a blank, and no code unit
    that satisfies [P] follows it. *)
Fixpoint tidy (P : N -> bool) (s : jsstring) : bool :=
  match s with
  | [] => true
  | c :: t =>
    (if P c
     then (c =? 32)%N && match t with d :: _ => negb (P d) | [] => true end
     else true) && tidy P t
  end.

(** The fields of the answer 200 of the handler of part_000. *)
Definition part000_answer (cr cd : value) (url : jsstring) (st eta ti : value)
  : response :=
  Response 200 [("ok", VBool true); ("carrier", cr); ("code", cd);
                ("officialUrl", VString url); ("status", st); ("eta", eta);
                ("title", ti)]%string.

(** [null] or a string that is not empty. *)
Definition null_or_text (v : value) : Prop :=
  v = VNull \/ exists s, v = VString s /\ s <> [].

(** The fields that the scraper of each carrier of src/server.js returns,
    by carrier id (the three ids of Delta Cargo share one scraper). *)
Definition server_fields (c : jsstring) : list string :=
  if bool_decide (c = js "fedex") then
    ["status"; "deliveredAt"; "signedBy"; "eta"; "origin"; "destination"]%string
  else if bool_decide (c = js "dhl") then ["status"; "eta"; "deliveredAt"]%string
  else if bool_decide (c = js "ups") then
    ["status"; "eta"; "deliveredAt"; "signedBy"]%string
  else if bool_decide (c = js "expeditors") then ["status"]%string
  else ["status"; "eta"; "lastScan"]%string.

(** The four fields every answer 200 of [/api/track] begins with. *)
Definition link_fields (cr cd : value) (url : jsstring) : object :=
  [("ok", VBool true); ("carrier", cr); ("code", cd); ("officialUrl", VString url)]%string.

(** No two code units in a row satisfy [P]. *)
Fixpoint sparse (P : N -> bool) (s : jsstring) : bool :=
  match s with
  | c :: t => match t with d :: _ => negb (P c && P d) | [] => true end && sparse P t
  | [] => true
  end.

(** [s] does not begin, and does not end, with a code unit that satisfies
    [P]. *)
Definition clear_start (P : N -> bool) (s : jsstring) : bool :=
  match s with d :: _ => negb (P d) | [] => true end.

Definition clear_end (P : N -> bool) (s : jsstring) : bool :=
  match last s with Some d => negb (P d) | None => true end.

(** The fields that the scraper of each carrier of part_001 can return,
    by carrier id. *)
Definition part001_fields (c : jsstring) : list string :=
  if bool_decide (c = js "fedex") then
    ["status"; "deliveredAt"; "signedBy"; "eta"; "origin"; "destination"]%string
  else if bool_decide (c = js "dhl") then ["status"; "eta"; "deliveredAt"]%string
  else if bool_decide (c = js "ups") then
    ["status"; "eta"; "deliveredAt"; "signedBy"; "destination"]%string
  else if bool_decide (c = js "expeditors") then ["status"]%string
  else ["status"; "eta"; "lastScan"]%string.

(** A value that is [null], [undefined] or a string: what a match, and
    what a field computed from matches, can be. *)
Definition stringish (v : value) : Prop :=
  v = VNull \/ v = VUndefined \/ exists s, v = VString s.

(** A browser that shows the same page at every address. *)
Definition showing (p : page) : browser :=
  {| load := fun _ => Return p; submit := fun _ _ => Throw URIError |}.


(** An ASCII letter or digit. *)
Definition alnum (c : N) : bool :=
  Js.in_range 0x41 0x5A c || Js.in_range 0x61 0x7A c || Js.in_range 0x30 0x39 c.

(** ** The regular expression engine *)

Section Engine.
Import RegExp.

Lemma flat_map_singleton {A} (l : list A) : flat_map (fun x => [x]) l = l.
Proof. induction l as [|x l IH]; [reflexivity|]. cbn. now rewrite IH. Qed.

Lemma filter_all {A} (l : list A) : List.filter (fun _ => true) l = l.
Proof. induction l as [|x l IH]; [reflexivity|]. cbn. now rewrite IH. Qed.

Lemma clear_caps_nil (st : mstate) : clear_caps [] st = st.
Proof. destruct st as [p s cs n]. unfold clear_caps. cbn. now rewrite filter_all. Qed.

Lemma run_seq_eps (ic : bool) (a : regex) (st : mstate) :
  run ic (Seq a Eps) st = run ic a st.
Proof. cbn. apply flat_map_singleton. Qed.

Lemma advance_0 (st : mstate) : advance 0 st = st.
Proof. destruct st as [p s cs n]. unfold advance. cbn. now rewrite drop_0, Nat.add_0_r. Qed.

Lemma advance_step (n : nat) (d : N) (t : jsstring) (st : mstate) :
  rest st = d :: t -> advance n (step d t st) = advance (S n) st.
Proof.
  intros H. unfold advance, step. cbn. rewrite H. cbn. f_equal; [|lia].
  destruct (take n t) as [|x l] eqn:E; [reflexivity|].
  change (d :: x :: l) with ([d] ++ x :: l). rewrite last_app. cbn.
  destruct (last (x :: l)) eqn:E'; [reflexivity|].
  apply last_None in E'. discriminate.
Qed.

Lemma prefix_ci_length (ic : bool) (w s : jsstring) :
  prefix_ci ic w s = true -> length w <= length s.
Proof.
  revert s. induction w as [|a w IH]; intros [|b s]; cbn; try lia; try discriminate.
  intros [_ H]%andb_true_iff. apply IH in H. lia.
Qed.

(** A pattern without operators matches where its text stands. *)
Lemma run_lit (ic : bool) (w : jsstring) (st : mstate) :
  run ic (lit w) st = if prefix_ci ic w (rest st) then [advance (length w) st] else [].
Proof.
  revert st. induction w as [|a w IH]; intros st.
  - cbn. now rewrite advance_0.
  - cbn [lit foldr run]. fold (lit w).
    destruct (rest st) as [|d t] eqn:E; cbn [prefix_ci]; [reflexivity|].
    destruct (canon ic a =? canon ic d)%N; cbn [andb flat_map]; [|reflexivity].
    rewrite IH, app_nil_r. cbn [rest step].
    destruct (prefix_ci ic w t); [|reflexivity].
    now rewrite (advance_step _ d t st E).
Qed.

Lemma groups_lit (w : jsstring) : groups (lit w) = [].
Proof. induction w as [|a w IH]; [reflexivity|]. cbn. exact IH. Qed.

Lemma match_at_lit (ic : bool) (w : jsstring) (p : option N) (s : jsstring) :
  match_at (RegExp (lit w) ic) p s
  = if prefix_ci ic w s then Some (advance (length w) (MState p s [] 0)) else None.
Proof.
  unfold match_at. cbn [pattern ignoreCase]. rewrite run_lit. cbn [rest].
  now destruct (prefix_ci ic w s).
Qed.

Lemma exec_from_lit (ic : bool) (w : jsstring) (p : option N) (s : jsstring) (i : nat) :
  exec_from (RegExp (lit w) ic) p s i
  = (fun im => MatchArray (fst im) [Some (snd im)]) <$> find_ci ic w s i.
Proof.
  revert p i. induction s as [|c s IH]; intros p i.
  - cbn [exec_from find_ci]. rewrite match_at_lit.
    destruct (prefix_ci ic w []) eqn:E; [|reflexivity].
    cbn. unfold ngroups. cbn [pattern]. rewrite groups_lit. reflexivity.
  - cbn [exec_from find_ci]. rewrite match_at_lit.
    destruct (prefix_ci ic w (c :: s)) eqn:E; [|apply IH].
    cbn [fmap option_fmap option_map fst snd advance pos].
    unfold ngroups. cbn [pattern]. rewrite groups_lit. reflexivity.
Qed.

Lemma prefix_ci_take (ic : bool) (w s : jsstring) :
  prefix_ci ic w s = true ->
  List.map (canon ic) (take (length w) s) = List.map (canon ic) w.
Proof.
  revert s. induction w as [|a w IH]; intros [|b s]; cbn; try discriminate; try reflexivity.
  intros [Hab H]%andb_true_iff. apply N.eqb_eq in Hab. rewrite (IH _ H). now rewrite Hab.
Qed.

Lemma prefix_ci_app (ic : bool) (w x post : jsstring) :
  List.map (canon ic) x = List.map (canon ic) w -> prefix_ci ic w (x ++ post) = true.
Proof.
  revert x. induction w as [|a w IH]; intros [|b x]; cbn; try discriminate; try reflexivity.
  intros H. injection H as Hab H. rewrite Hab, N.eqb_refl. cbn. now apply IH.
Qed.

Lemma occurs_app (ic : bool) (w pre x post : jsstring) :
  List.map (canon ic) x = List.map (canon ic) w -> occurs ic w (pre ++ x ++ post) = true.
Proof.
  intros H. induction pre as [|c pre IH].
  - cbn [app]. destruct (x ++ post) eqn:E; cbn [occurs]; rewrite <- E;
      now rewrite (prefix_ci_app ic w x post H).
  - cbn [app occurs]. rewrite IH. apply orb_true_r.
Qed.




Lemma find_ci_none (ic : bool) (w s : jsstring) (i : nat) :
  occurs ic w s = false -> find_ci ic w s i = None.
Proof.
  revert i. induction s as [|c s IH]; intros i; cbn [occurs find_ci].
  - rewrite orb_false_r. now intros ->.
  - intros [-> H]%orb_false_iff. now apply IH.
Qed.

Lemma find_ci_some (ic : bool) (w s : jsstring) (i : nat) :
  occurs ic w s = true ->
  exists j m, find_ci ic w s i = Some (j, m)
              /\ List.map (canon ic) m = List.map (canon ic) w.
Proof.
  revert i. induction s as [|c s IH]; intros i; cbn [occurs find_ci].
  - rewrite orb_false_r. intros H. rewrite H. eexists _, _. split; [reflexivity|].
    now apply prefix_ci_take.
  - destruct (prefix_ci ic w (c :: s)) eqn:E.
    + intros _. eexists _, _. split; [reflexivity|]. now apply prefix_ci_take.
    + cbn. intros H. apply IH. exact H.
Qed.

Lemma find_ci_infix (ic : bool) (w s : jsstring) (i j : nat) (m : jsstring) :
  find_ci ic w s i = Some (j, m) -> exists pre post, s = pre ++ m ++ post.
Proof.
  revert i. induction s as [|c s IH]; intros i; cbn [find_ci].
  - destruct (prefix_ci ic w []); [|discriminate]. intros [= _ <-].
    exists [], []. now rewrite take_nil.
  - destruct (prefix_ci ic w (c :: s)).
    + intros [= _ <-]. exists [], (drop (length w) (c :: s)). cbn [app].
      now rewrite take_drop.
    + intros H. destruct (IH _ H) as (pre & post & ->). now exists (c :: pre), post.
Qed.

Lemma test_lit (ic : bool) (w s : jsstring) :
  test (RegExp (lit w) ic) s = occurs ic w s.
Proof.
  unfold test, exec. rewrite exec_from_lit.
  destruct (occurs ic w s) eqn:E.
  - destruct (find_ci_some ic w s 0 E) as (j & m & -> & _). reflexivity.
  - now rewrite (find_ci_none ic w s 0 E).
Qed.


(** Replacing one code unit by another maps over the string. *)
Lemma replace_unit (a b : N) (p : option N) (s : jsstring) :
  replace_from (RegExp (lit [a]) false) [b] p s 0
  = List.map (fun c => if (a =? c)%N then b else c) s.
Proof.
  revert p. induction s as [|c s IH]; intros p; cbn [replace_from List.map];
    rewrite match_at_lit; [reflexivity|].
  cbn [prefix_ci canon]. rewrite andb_true_r.
  destruct (a =? c)%N.
  - cbn [advance pos length Nat.add app]. now rewrite IH.
  - now rewrite IH.
Qed.

Lemma span_le (P : N -> bool) (s : jsstring) : span P s <= length s.
Proof. induction s as [|c s IH]; cbn; [lia|]. destruct (P c); lia. Qed.

Lemma head_app_Some {A} (l l' : list A) (x : A) :
  head l = Some x -> head (l ++ l') = Some x.
Proof. destruct l; [discriminate|]. now cbn. Qed.

(** A greedy loop over a class takes the whole run of its code units. *)
Lemma rep_class_star (ic neg : bool) (items : list citem) (fuel : nat) (st : mstate) :
  length (rest st) < fuel ->
  head (rep (fun st => run ic (Class neg items) (clear_caps [] st)) true fuel 0 None st)
  = Some (advance (span (fun c => xorb neg (class_has ic items c)) (rest st)) st).
Proof.
  revert st. induction fuel as [|f IH]; intros st Hf; [lia|].
  cbn [rep Nat.eqb negb andb]. rewrite clear_caps_nil. cbn [run].
  destruct (rest st) as [|d t] eqn:E; cbn [span].
  - cbn. now rewrite advance_0.
  - destruct (xorb neg (class_has ic items d)); cbn [flat_map]; [|cbn; now rewrite advance_0].
    cbn [pos step].
    replace (S (pos st) =? pos st)%nat with false
      by (symmetry; apply Nat.eqb_neq; lia).
    rewrite app_nil_r. apply head_app_Some.
    rewrite IH by (cbn [rest step]; cbn in Hf; lia).
    cbn [rest step]. now rewrite (advance_step _ d t st E).
Qed.

Lemma run_class_plus (ic neg : bool) (items : list citem) (st : mstate) :
  head (run ic (Quant 1 None true (Class neg items)) st)
  = match rest st with
    | d :: _ =>
      if xorb neg (class_has ic items d)
      then Some (advance (span (fun c => xorb neg (class_has ic items c)) (rest st)) st)
      else None
    | [] => None
    end.
Proof.
  cbn [run rep Nat.eqb negb andb Nat.pred dec_max fmap option_fmap option_map].
  rewrite clear_caps_nil. cbn [run].
  destruct (rest st) as [|d t] eqn:E; [reflexivity|]. cbn [span].
  destruct (xorb neg (class_has ic items d)); [|reflexivity].
  cbn [flat_map]. rewrite app_nil_r.
  rewrite (rep_class_star ic neg items _ (step d t st)) by (cbn [rest step length]; lia).
  cbn [rest step]. now rewrite (advance_step _ d t st E).
Qed.

(** Replacing the runs of a class: what [replace_from] computes when the
    pattern matches exactly the runs of [P]. *)
Lemma replace_from_squeeze (re : regexp) (P : N -> bool) (by_ : jsstring) :
  (forall p s,
      pos <$> match_at re p s
      = match s with
        | d :: _ => if P d then Some (span P s) else None
        | [] => None
        end) ->
  forall s p,
    replace_from re by_ p s 0 = squeeze P by_ false s
    /\ replace_from re by_ p s (span P s) = squeeze P by_ true s.
Proof.
  intros H. induction s as [|c t IH]; intros p.
  - assert (E := H p []). cbn [replace_from span squeeze].
    destruct (match_at re p []); cbn in E; [discriminate|]. now split.
  - assert (A : replace_from re by_ p (c :: t) 0 = squeeze P by_ false (c :: t)).
    { assert (E := H p (c :: t)). cbn [replace_from squeeze]. cbn [span] in E.
      destruct (P c) eqn:Pc; rewrite ?Pc in E.
      - destruct (match_at re p (c :: t)) as [st'|]; cbn in E; [|discriminate].
        injection E as E. rewrite E.
        f_equal. apply IH.
      - destruct (match_at re p (c :: t)); cbn in E; [discriminate|].
        f_equal. apply IH. }
    split; [exact A|]. cbn [span squeeze]. destruct (P c) eqn:Pc.
    + cbn [replace_from]. apply IH.
    + rewrite A. cbn [squeeze]. now rewrite Pc.
Qed.

Lemma match_at_class_plus (ic neg : bool) (items : list citem) (p : option N)
      (s : jsstring) :
  pos <$> match_at (RegExp (Seq (Quant 1 None true (Class neg items)) Eps) ic) p s
  = match s with
    | d :: _ =>
      if xorb neg (class_has ic items d)
      then Some (span (fun c => xorb neg (class_has ic items c)) s)
      else None
    | [] => None
    end.
Proof.
  unfold match_at. cbn [pattern ignoreCase]. rewrite run_seq_eps, run_class_plus.
  cbn [rest]. destruct s as [|d t]; [reflexivity|].
  now destruct (xorb neg (class_has ic items d)).
Qed.

End Engine.

(** ** Strings *)

Lemma trimStart_app (a b : jsstring) :
  Js.trimStart (a ++ b)
  = if forallb Js.is_space a then Js.trimStart b else Js.trimStart a ++ b.
Proof.
  induction a as [|c a IH]; [reflexivity|]. cbn [app Js.trimStart forallb].
  destruct (Js.is_space c); [exact IH|reflexivity].
Qed.

Lemma trimStart_spaces (ws : jsstring) :
  forallb Js.is_space ws = true -> Js.trimStart ws = [].
Proof.
  induction ws as [|c ws IH]; [reflexivity|]. cbn.
  intros [-> H]%andb_true_iff. now apply IH.
Qed.

Lemma trimStart_split (s : jsstring) :
  exists ws, s = ws ++ Js.trimStart s /\ forallb Js.is_space ws = true.
Proof.
  induction s as [|c s (ws & E & H)]; [now exists []|]. cbn [Js.trimStart].
  destruct (Js.is_space c) eqn:Hc.
  - exists (c :: ws). cbn. rewrite Hc, H. split; [now f_equal|reflexivity].
  - now exists [].
Qed.

Lemma trimStart_head (s : jsstring) :
  match Js.trimStart s with
  | c :: _ => Js.is_space c = false
  | [] => True
  end.
Proof.
  induction s as [|c s IH]; [exact I|]. cbn [Js.trimStart].
  destruct (Js.is_space c) eqn:Hc; [exact IH|exact Hc].
Qed.

Lemma trimStart_idem (s : jsstring) : Js.trimStart (Js.trimStart s) = Js.trimStart s.
Proof.
  assert (H := trimStart_head s). destruct (Js.trimStart s) as [|c t]; [reflexivity|].
  cbn. now rewrite H.
Qed.

Lemma forallb_rev {A} (f : A -> bool) (l : list A) : forallb f (rev l) = forallb f l.
Proof.
  induction l as [|x l IH]; [reflexivity|]. cbn. rewrite forallb_app, IH. cbn.
  rewrite andb_true_r. apply andb_comm.
Qed.

Lemma trimEnd_split (s : jsstring) :
  exists ws, s = Js.trimEnd s ++ ws /\ forallb Js.is_space ws = true.
Proof.
  unfold Js.trimEnd. destruct (trimStart_split (rev s)) as (ws & E & H).
  exists (rev ws). rewrite forallb_rev. split; [|exact H].
  rewrite <- rev_app_distr, <- E. now rewrite rev_involutive.
Qed.

Lemma trimEnd_app_spaces (s ws : jsstring) :
  forallb Js.is_space ws = true -> Js.trimEnd (s ++ ws) = Js.trimEnd s.
Proof.
  intros H. unfold Js.trimEnd. rewrite rev_app_distr, trimStart_app.
  now rewrite forallb_rev, H.
Qed.

Lemma trimEnd_idem (s : jsstring) : Js.trimEnd (Js.trimEnd s) = Js.trimEnd s.
Proof. unfold Js.trimEnd. now rewrite rev_involutive, trimStart_idem. Qed.

Lemma trimEnd_nil : Js.trimEnd [] = [].
Proof. reflexivity. Qed.

(** Trimming the end keeps the first code unit of a string that does not
    begin with white space. *)
Lemma trimEnd_head (c : N) (t : jsstring) :
  Js.is_space c = false -> exists t', Js.trimEnd (c :: t) = c :: t'.
Proof.
  intros Hc. destruct (trimEnd_split (c :: t)) as (ws & E & H).
  destruct (Js.trimEnd (c :: t)) as [|d t'] eqn:Et.
  - cbn in E. subst ws. cbn in H. rewrite Hc in H. discriminate.
  - injection E as -> _. now exists t'.
Qed.

Lemma trim_idem (s : jsstring) : Js.trim (Js.trim s) = Js.trim s.
Proof.
  unfold Js.trim. assert (H := trimStart_head s).
  destruct (Js.trimStart s) as [|c t]; [reflexivity|].
  destruct (trimEnd_head c t H) as (t' & E). rewrite E.
  cbn [Js.trimStart]. rewrite H, <- E. apply trimEnd_idem.
Qed.

(** White space around a string does not change what [trim] leaves. *)
Lemma trim_padding (ws1 s ws2 : jsstring) :
  forallb Js.is_space ws1 = true -> forallb Js.is_space ws2 = true ->
  Js.trim (ws1 ++ s ++ ws2) = Js.trim s.
Proof.
  intros H1 H2. unfold Js.trim. rewrite trimStart_app, H1, trimStart_app.
  destruct (forallb Js.is_space s) eqn:Hs.
  - now rewrite (trimStart_spaces _ H2), (trimStart_spaces _ Hs).
  - now apply trimEnd_app_spaces.
Qed.

Lemma trim_infix (s : jsstring) : exists a b, s = a ++ Js.trim s ++ b.
Proof.
  unfold Js.trim. destruct (trimStart_split s) as (a & E & _).
  destruct (trimEnd_split (Js.trimStart s)) as (b & E' & _).
  exists a, b. now rewrite <- E', <- E.
Qed.

(** ** The result cache (src/app.js, second program) *)

(** C5: a value stored with [setInCache] is returned by [getFromCache] at
    once and as long as the clock is below [expires], which is the time of
    the store plus ten minutes; from then on the read is a miss that deletes
    the entry.  Nothing but that read removes it. *)
Theorem cache_put_get_lazy_expiry (key : jsstring) (v : object)
        (c : gmap jsstring AppCache.entry) (t now : Z) :
  let c' := AppCache.setInCache t key v c in
  AppCache.getFromCache t key c' = (Some v, c')
  /\ AppCache.getFromCache now key c'
     = (if (now <? t + 10 * 60 * 1000)%Z then (Some v, c') else (None, delete key c'))
  /\ delete key c' !! key = None
  /\ AppCache.expires <$> c' !! key = Some (t + 10 * 60 * 1000)%Z.
Proof.
  cbv zeta. unfold AppCache.getFromCache, AppCache.setInCache, AppCache.CACHE_TTL_MS.
  rewrite lookup_insert_eq. cbn [AppCache.expires AppCache.value_].
  split; [|split; [|split]].
  - replace (t <? t + 10 * 60 * 1000)%Z with true by (symmetry; apply Z.ltb_lt; lia).
    reflexivity.
  - destruct (now <? t + 10 * 60 * 1000)%Z; reflexivity.
  - apply lookup_delete_eq.
  - reflexivity.
Qed.



(** C6, as stated, fails: the tracking number keeps its letter case in the
    key, so [abc] and [ABC] are cached apart. *)
Lemma cache_key_keeps_letter_case :
  request_key (AppCache.TrackRequest (js "dhl") (VString (js "ABC")))
  <> spec_cache_key (js "dhl") (js "ABC")
  /\ request_key (AppCache.TrackRequest (js "dhl") (VString (js "abc")))
     <> request_key (AppCache.TrackRequest (js "dhl") (VString (js "ABC"))).
Proof. split; vm_compute; discriminate. Qed.

(** C6, amended: the key is the carrier exactly as the route gives it, a
    colon, and the tracking number trimmed, in the letter case it came in;
    so requests whose numbers differ only in the white space around them
    share one cache entry. *)
Theorem cache_key_trims_number (carrier n ws1 ws2 : jsstring) :
  forallb Js.is_space ws1 = true -> forallb Js.is_space ws2 = true ->
  request_key (AppCache.TrackRequest carrier (VString (ws1 ++ n ++ ws2)))
  = carrier ++ js ":" ++ Js.trim n
  /\ request_key (AppCache.TrackRequest carrier (VString (ws1 ++ n ++ ws2)))
     = request_key (AppCache.TrackRequest carrier (VString n)).
Proof.
  intros H1 H2.
  assert (E : forall s, AppCache.trackingNumber_of (AppCache.TrackRequest carrier (VString s))
                        = Js.trim s).
  { intros s. unfold AppCache.trackingNumber_of. cbn [AppCache.query_number].
    now destruct s. }
  unfold request_key, AppCache.cacheKey. cbn [AppCache.param_carrier].
  rewrite !E, (trim_padding ws1 n ws2 H1 H2). now split.
Qed.

Lemma cache_key_trims_number_witness :
  request_key (AppCache.TrackRequest (js "dhl") (VString (js "  12Ab ")))
  = js "dhl:12Ab".
Proof.
  exact (proj1 (cache_key_trims_number (js "dhl") (js "12Ab") (js "  ") (js " ")
                                       eq_refl eq_refl)).
Defined.

(** ** Carrier resolution *)

Lemma or_empty_string (s : jsstring) :
  toLowerCase (VString s ||| VString []) = Return (Js.toLowerCase s).
Proof. destruct s; reflexivity. Qed.

Lemma supported_cases (s : jsstring) :
  supported s = true ->
  Js.toLowerCase s = js "dhl" \/ Js.toLowerCase s = js "fedex"
  \/ Js.toLowerCase s = js "ups" \/ Js.toLowerCase s = js "delta"
  \/ Js.toLowerCase s = js "delta-cargo" \/ Js.toLowerCase s = js "deltacargo"
  \/ Js.toLowerCase s = js "expeditors".
Proof.
  unfold supported, carrier_ids. intros Hs%bool_decide_eq_true.
  rewrite !elem_of_cons in Hs. rewrite elem_of_nil in Hs. tauto.
Qed.

Lemma officialLink_unsupported (s : jsstring) (cd : value) :
  supported s = false -> Server.officialLink (VString s) cd = Return VNull.
Proof.
  unfold supported, Server.officialLink. intros Hs.
  apply bool_decide_eq_false in Hs.
  rewrite or_empty_string. cbn [mbind outcome_bind].
  unfold carrier_ids in Hs. rewrite !not_elem_of_cons in Hs. destruct_and!.
  rewrite !bool_decide_eq_false_2 by done. reflexivity.
Qed.

Lemma officialLink_supported (s : jsstring) (cd : value) (e : jsstring) :
  supported s = true ->
  Js.encode (toString cd) = Some e ->
  Server.officialLink (VString s) cd = Return (VString (link (Js.toLowerCase s) e)).
Proof.
  intros Hs He. unfold Server.officialLink, link, encodeURIComponent.
  rewrite or_empty_string, He. cbn [mbind outcome_bind].
  destruct (supported_cases s Hs) as [H|[H|[H|[H|[H|[H|H]]]]]]; rewrite H.
  all: vm_compute; reflexivity.
Qed.

Lemma officialLink_malformed (s : jsstring) (cd : value) :
  supported s = true ->
  Js.toLowerCase s <> js "expeditors" ->
  Js.encode (toString cd) = None ->
  Server.officialLink (VString s) cd = Throw URIError.
Proof.
  intros Hs Hx He. unfold Server.officialLink, encodeURIComponent.
  rewrite or_empty_string, He. cbn [mbind outcome_bind].
  destruct (supported_cases s Hs) as [H|[H|[H|[H|[H|[H|H]]]]]]; try easy; rewrite H.
  all: vm_compute; reflexivity.
Qed.

Lemma officialLink_expeditors (s : jsstring) (cd : value) :
  Js.toLowerCase s = js "expeditors" ->
  Server.officialLink (VString s) cd
  = Return (VString (js "https://www.expeditors.com/tracking")).
Proof.
  intros H. unfold Server.officialLink. rewrite or_empty_string.
  cbn [mbind outcome_bind]. rewrite H. vm_compute. reflexivity.
Qed.

Lemma part000_officialLink_string (s : jsstring) (cd : value) :
  Part000.officialLink (VString s) cd = Server.officialLink (VString s) cd.
Proof. unfold Part000.officialLink, Server.officialLink. now rewrite or_empty_string. Qed.

Lemma supported_truthy (s : jsstring) : supported s = true -> truthy (VString s) = true.
Proof. destruct s; [ vm_compute; discriminate | reflexivity ]. Qed.

Lemma link_truthy (c e : jsstring) : truthy (VString (link c e)) = true.
Proof. unfold link. repeat case_bool_decide; reflexivity. Qed.

Lemma truthy_defined (v : value) : truthy v = true -> bool_decide (v = VUndefined) = false.
Proof. destruct v; cbn; try discriminate; reflexivity. Qed.

Lemma res_json_link_only (cr cd : value) (url : jsstring) :
  truthy cr = true -> truthy cd = true ->
  res_json (spread [("ok", VBool true); ("carrier", cr); ("code", cd);
                    ("officialUrl", VString url)]%string [])
  = link_only cr cd url.
Proof.
  intros Hc Hk. unfold res_json, json, link_only.
  cbn [spread fold_left List.filter snd negb].
  rewrite (truthy_defined _ Hc), (truthy_defined _ Hk). reflexivity.
Qed.

(** ** The handlers *)

Lemma goto_throws {A} (b : browser) (url : jsstring) (e : exn) (k : page -> io A)
      (t : list jsstring) :
  load b url = Throw e -> (goto b url ≫= k) t = (Throw e, t ++ [url]).
Proof. intros H. unfold mbind, io_bind, goto. rewrite H. reflexivity. Qed.

Lemma lift_bind {A B} (a : A) (k : A -> io B) (t : list jsstring) :
  (lift (Return a) ≫= k) t = k a t.
Proof. reflexivity. Qed.

Ltac eval_includes :=
  repeat match goal with
         | |- context [Js.includes ?a ?b] =>
           let v := eval vm_compute in (Js.includes a b) in
           change (Js.includes a b) with v
         end.

Lemma server_scrapeByCarrier_throws (b : browser) (s url : jsstring) (e : exn)
      (t : list jsstring) :
  supported s = true -> load b url = Throw e ->
  Server.scrapeByCarrier b (VString s) url t = (Throw e, t ++ [url]).
Proof.
  intros Hs Hl. unfold Server.scrapeByCarrier.
  rewrite or_empty_string, lift_bind.
  destruct (supported_cases s Hs) as [H|[H|[H|[H|[H|[H|H]]]]]]; rewrite H;
    eval_includes; cbv iota; now apply goto_throws.
Qed.

Lemma part001_scrapeByCarrier_throws (b : browser) (s url : jsstring) (e : exn)
      (t : list jsstring) :
  supported s = true -> load b url = Throw e ->
  Part001.scrapeByCarrier b (VString s) url t = (Throw e, t ++ [url]).
Proof.
  intros Hs Hl. unfold Part001.scrapeByCarrier.
  rewrite or_empty_string, lift_bind.
  destruct (supported_cases s Hs) as [H|[H|[H|[H|[H|[H|H]]]]]]; rewrite H;
    eval_includes; cbv iota; now apply goto_throws.
Qed.

Lemma server_fetch_failure (b : browser) (s : jsstring) (cd : value)
      (enc : jsstring) (e : exn) :
  supported s = true -> truthy cd = true ->
  Js.encode (toString cd) = Some enc ->
  load b (link (Js.toLowerCase s) enc) = Throw e ->
  Server.api_track true b (Request (VString s) cd) []
  = (Return (link_only (VString s) cd (link (Js.toLowerCase s) enc)),
     [link (Js.toLowerCase s) enc]).
Proof.
  intros Hs Hk He Hl. unfold Server.api_track. cbn [carrier code].
  rewrite (supported_truthy s Hs), Hk. cbn [negb orb].
  rewrite (officialLink_supported s cd enc Hs He).
  unfold try_catch at 1. rewrite lift_bind. rewrite link_truthy. cbn [negb].
  unfold mbind at 1, io_bind. unfold try_catch. cbn [toString].
  rewrite (server_scrapeByCarrier_throws b s _ e [] Hs Hl).
  cbn [mret io_ret app]. rewrite res_json_link_only by auto using supported_truthy.
  reflexivity.
Qed.

Lemma part001_fetch_failure (b : browser) (s : jsstring) (cd : value)
      (enc : jsstring) (e : exn) :
  supported s = true -> truthy cd = true ->
  Js.encode (toString cd) = Some enc ->
  load b (link (Js.toLowerCase s) enc) = Throw e ->
  Part001.api_track true b (Request (VString s) cd) []
  = (Return (link_only (VString s) cd (link (Js.toLowerCase s) enc)),
     [link (Js.toLowerCase s) enc]).
Proof.
  intros Hs Hk He Hl. unfold Part001.api_track, Part001.officialLink. cbn [carrier code].
  rewrite (supported_truthy s Hs), Hk. cbn [negb orb].
  rewrite (officialLink_supported s cd enc Hs He).
  unfold try_catch at 1. rewrite lift_bind. rewrite link_truthy. cbn [negb].
  unfold mbind at 1, io_bind. unfold try_catch. cbn [toString].
  rewrite (part001_scrapeByCarrier_throws b s _ e [] Hs Hl).
  cbn [mret io_ret app]. rewrite res_json_link_only by auto using supported_truthy.
  reflexivity.
Qed.


Lemma part000_fetch_failure (b : browser) (s : jsstring) (cd : value)
      (enc : jsstring) (e : exn) :
  supported s = true -> truthy cd = true ->
  Js.encode (toString cd) = Some enc ->
  load b (link (Js.toLowerCase s) enc) = Throw e ->
  Part000.api_track b (Request (VString s) cd) []
  = (Return (link_and_nulls (VString s) cd (link (Js.toLowerCase s) enc)),
     [link (Js.toLowerCase s) enc]).
Proof.
  intros Hs Hk He Hl. unfold Part000.api_track. cbn [carrier code].
  rewrite (supported_truthy s Hs), Hk. cbn [negb orb].
  rewrite part000_officialLink_string, (officialLink_supported s cd enc Hs He).
  unfold try_catch at 1. rewrite lift_bind. rewrite link_truthy. cbn [negb].
  unfold mbind at 1, io_bind. unfold try_catch. cbn [toString].
  unfold Part000.scrapePublicPage.
  unfold mbind at 1, io_bind. rewrite (goto_throws b _ e _ [] Hl).
  cbn [mret io_ret app]. unfold res_json, json, link_and_nulls.
  cbn [List.filter snd negb or_ truthy].
  rewrite (truthy_defined _ Hk). reflexivity.
Qed.


(** C1, as stated, fails on the handler of the second program of
    src/app.js: when the scraper of a supported carrier throws, the request
    is answered with status 500 and the message of the error. *)
Lemma legacy_track_answers_500_on_fetch_failure :
  AppCache.track offline 0 0
    (AppCache.TrackRequest (js "dhl") (VString (js "1234567890"))) ∅ []
  = (Return (Response 500 [("error", VString (js "Timeout 45000ms exceeded"))]%string, ∅),
     [js "https://www.dhl.com/mx-es/home/rastreo.html"]).
Proof. vm_compute. reflexivity. Qed.

(** C1, amended: in the [/api/track] handlers (src/server.js and the two
    unnamed variants), for a supported carrier and a non-empty code whose
    link could be built, a page load that throws is caught inside the
    handler: the answer is status 200 with [ok: true] and the official URL,
    no extracted field (in part_000: [status], [eta] and [title] all
    [null]), and the browser was sent to the official URL once. *)
Theorem fetch_failure_gives_link_only (b : browser) (s : jsstring) (cd : value)
        (enc : jsstring) (e : exn) :
  supported s = true -> truthy cd = true ->
  Js.encode (toString cd) = Some enc ->
  load b (link (Js.toLowerCase s) enc) = Throw e ->
  let url := link (Js.toLowerCase s) enc in
  Server.officialLink (VString s) cd = Return (VString url)
  /\ Server.api_track true b (Request (VString s) cd) []
     = (Return (link_only (VString s) cd url), [url])
  /\ Part001.api_track true b (Request (VString s) cd) []
     = (Return (link_only (VString s) cd url), [url])
  /\ Part000.api_track b (Request (VString s) cd) []
     = (Return (link_and_nulls (VString s) cd url), [url]).
Proof.
  intros Hs Hk He Hl. cbv zeta.
  split; [now apply officialLink_supported|].
  split; [now apply server_fetch_failure with e|].
  split; [now apply part001_fetch_failure with e|].
  now apply part000_fetch_failure with e.
Qed.

Lemma fetch_failure_gives_link_only_witness :
  Server.api_track true offline (Request (VString (js "FedEx")) (VString (js "999"))) []
  = (Return (link_only (VString (js "FedEx")) (VString (js "999"))
               (js "https://www.fedex.com/fedextrack/?trknbr=999&cntry_code=mx_esp")),
     [js "https://www.fedex.com/fedextrack/?trknbr=999&cntry_code=mx_esp"]).
Proof.
  exact (proj1 (proj2 (fetch_failure_gives_link_only offline (js "FedEx")
           (VString (js "999")) (js "999")
           (Exn "TimeoutError" (js "Timeout 45000ms exceeded"))
           eq_refl eq_refl eq_refl eq_refl))).
Defined.

Lemma server_unsupported (USE_SCRAPE : bool) (b : browser) (s : jsstring) (cd : value) :
  s <> [] -> supported s = false -> truthy cd = true ->
  Server.api_track USE_SCRAPE b (Request (VString s) cd) []
  = (Return (Server.unsupported (VString s)), []).
Proof.
  intros Hn Hs Hk. unfold Server.api_track. cbn [carrier code].
  destruct s as [|c s]; [easy|]. cbn [truthy]. rewrite Hk. cbn [negb orb].
  rewrite (officialLink_unsupported _ cd Hs).
  unfold try_catch. rewrite lift_bind. reflexivity.
Qed.

Lemma part000_unsupported (b : browser) (s : jsstring) (cd : value) :
  s <> [] -> supported s = false -> truthy cd = true ->
  Part000.api_track b (Request (VString s) cd) []
  = (Return (Server.unsupported (VString s)), []).
Proof.
  intros Hn Hs Hk. unfold Part000.api_track. cbn [carrier code].
  destruct s as [|c s]; [easy|]. cbn [truthy]. rewrite Hk. cbn [negb orb].
  rewrite part000_officialLink_string, (officialLink_unsupported _ cd Hs).
  unfold try_catch. rewrite lift_bind. reflexivity.
Qed.


Lemma starts_with_app (e b : jsstring) : Js.starts_with e (e ++ b) = true.
Proof. induction e as [|c e IH]; [reflexivity|]. cbn. now rewrite N.eqb_refl. Qed.

Lemma includes_app (a e b : jsstring) : Js.includes (a ++ e ++ b) e = true.
Proof.
  induction a as [|c a IH].
  - cbn [app]. destruct (e ++ b) eqn:E; cbn [Js.includes]; rewrite <- E;
      now rewrite starts_with_app.
  - cbn [app Js.includes]. rewrite IH. apply orb_true_r.
Qed.

Lemma includes_app_r (a e : jsstring) : Js.includes (a ++ e) e = true.
Proof. rewrite <- (app_nil_r (a ++ e)), <- app_assoc. exact (includes_app a e []). Qed.

Lemma link_includes_code (c e : jsstring) :
  c <> js "expeditors" -> Js.includes (link c e) e = true.
Proof.
  intros Hc. unfold link.
  case_bool_decide; [exact (includes_app_r _ e)|].
  case_bool_decide; [exact (includes_app _ e _)|].
  case_bool_decide; [exact (includes_app _ e _)|].
  case_bool_decide; [contradiction|].
  exact (includes_app_r _ e).
Qed.

Lemma server_scraping_disabled (b : browser) (s : jsstring) (cd : value) (enc : jsstring) :
  supported s = true -> truthy cd = true -> Js.encode (toString cd) = Some enc ->
  Server.api_track false b (Request (VString s) cd) []
  = (Return (link_only (VString s) cd (link (Js.toLowerCase s) enc)), []).
Proof.
  intros Hs Hk He. unfold Server.api_track. cbn [carrier code].
  rewrite (supported_truthy s Hs), Hk. cbn [negb orb].
  rewrite (officialLink_supported s cd enc Hs He).
  unfold try_catch at 1. rewrite lift_bind. rewrite link_truthy. cbn [negb].
  unfold mbind, io_bind. cbn [mret io_ret].
  rewrite res_json_link_only by auto using supported_truthy. reflexivity.
Qed.

Lemma part001_scraping_disabled (b : browser) (s : jsstring) (cd : value) (enc : jsstring) :
  supported s = true -> truthy cd = true -> Js.encode (toString cd) = Some enc ->
  Part001.api_track false b (Request (VString s) cd) []
  = (Return (link_only (VString s) cd (link (Js.toLowerCase s) enc)), []).
Proof.
  intros Hs Hk He. unfold Part001.api_track, Part001.officialLink. cbn [carrier code].
  rewrite (supported_truthy s Hs), Hk. cbn [negb orb].
  rewrite (officialLink_supported s cd enc Hs He).
  unfold try_catch at 1. rewrite lift_bind. rewrite link_truthy. cbn [negb].
  unfold mbind, io_bind. cbn [mret io_ret].
  rewrite res_json_link_only by auto using supported_truthy. reflexivity.
Qed.

(** C9, as stated, fails for one supported carrier: the link of Expeditors
    is the landing page of its site and does not hold the code. *)
Lemma expeditors_link_has_no_code :
  Server.api_track false offline
    (Request (VString (js "expeditors")) (VString (js "1234567890"))) []
  = (Return (link_only (VString (js "expeditors")) (VString (js "1234567890"))
               (js "https://www.expeditors.com/tracking")), [])
  /\ Js.includes (js "https://www.expeditors.com/tracking") (js "1234567890") = false.
Proof. split; vm_compute; reflexivity. Qed.

(** C9, amended: with scraping disabled, the [/api/track] handlers of
    src/server.js and part_001 answer a supported carrier and a non-empty
    code that [encodeURIComponent] accepts with status 200 and exactly [ok],
    [carrier], [code] and [officialUrl] ([status], [eta], [deliveredAt],
    [signedBy], [origin], [destination] and [title] are absent), without any
    page load.  The URL holds the percent-encoded code, except for
    Expeditors, whose URL is the fixed landing page. *)
Theorem scraping_disabled_gives_link_only (b : browser) (s : jsstring) (cd : value)
        (enc : jsstring) :
  supported s = true -> truthy cd = true -> Js.encode (toString cd) = Some enc ->
  let url := link (Js.toLowerCase s) enc in
  Server.api_track false b (Request (VString s) cd) []
  = (Return (link_only (VString s) cd url), [])
  /\ Part001.api_track false b (Request (VString s) cd) []
     = (Return (link_only (VString s) cd url), [])
  /\ (if bool_decide (Js.toLowerCase s = js "expeditors")
      then url = js "https://www.expeditors.com/tracking"
      else Js.includes url enc = true)
  /\ url <> []
  /\ Forall (fun k => get k (body (link_only (VString s) cd url)) = None)
            ["status"; "eta"; "deliveredAt"; "signedBy"; "origin"; "destination";
             "title"]%string.
Proof.
  intros Hs Hk He. cbv zeta.
  split; [now apply server_scraping_disabled|].
  split; [now apply part001_scraping_disabled|].
  split; [|split].
  - case_bool_decide as Hx.
    + rewrite Hx. reflexivity.
    + now apply link_includes_code.
  - assert (H := link_truthy (Js.toLowerCase s) enc).
    destruct (link (Js.toLowerCase s) enc); [discriminate|easy].
  - repeat constructor.
Qed.

Lemma scraping_disabled_gives_link_only_witness :
  Server.api_track false offline
    (Request (VString (js "dhl")) (VString (js "1234567890"))) []
  = (Return (link_only (VString (js "dhl")) (VString (js "1234567890"))
       (js "https://www.dhl.com/mx-es/home/rastreo.html?tracking-id=1234567890")), []).
Proof.
  exact (proj1 (scraping_disabled_gives_link_only offline (js "dhl")
                  (VString (js "1234567890")) (js "1234567890")
                  eq_refl eq_refl eq_refl)).
Defined.

(** C10, as stated, fails on the code: for a supported carrier
    [encodeURIComponent] is applied to the code, and it throws URIError on a
    lone surrogate. *)
Lemma officialLink_throws_on_lone_surrogate :
  Server.officialLink (VString (js "dhl")) (VString [0xD800%N]) = Throw URIError.
Proof. vm_compute. reflexivity. Qed.

(** C10, amended: [officialLink] of src/server.js never throws for a
    carrier that is absent or a string whose code [encodeURIComponent]
    accepts.  An absent, empty or unknown carrier gives [null] whatever the
    code; a known id gives its URL, and the only exception that escapes is the
    URIError of [encodeURIComponent]. *)
Theorem officialLink_total_in_carrier (s : jsstring) (cd : value) :
  Server.officialLink VUndefined cd = Return VNull
  /\ Server.officialLink VNull cd = Return VNull
  /\ Server.officialLink (VString []) cd = Return VNull
  /\ Server.officialLink (VString s) cd
     = if supported s then
         if bool_decide (Js.toLowerCase s = js "expeditors")
         then Return (VString (js "https://www.expeditors.com/tracking"))
         else
           match Js.encode (toString cd) with
           | Some e => Return (VString (link (Js.toLowerCase s) e))
           | None => Throw URIError
           end
       else Return VNull.
Proof.
  split; [vm_compute; reflexivity|]. split; [vm_compute; reflexivity|]. split; [vm_compute; reflexivity|].
  destruct (supported s) eqn:Hs; [|now apply officialLink_unsupported].
  case_bool_decide as Hx; [now apply officialLink_expeditors|].
  destruct (Js.encode (toString cd)) as [e|] eqn:He.
  - now apply officialLink_supported.
  - now apply officialLink_malformed.
Qed.

(** C7 holds on src/server.js and fails on the first program of
    src/app.js, whose [officialLink] has no case for the alias
    [deltacargo]: it answers [null] where [delta] and [delta-cargo] give the
    Delta Cargo URL. *)
Theorem app_officialLink_misses_deltacargo (cd : value) :
  App.officialLink (VString (js "deltacargo")) cd = Return VNull
  /\ App.officialLink (VString (js "delta-cargo")) cd
     = Server.officialLink (VString (js "deltacargo")) cd
  /\ App.officialLink (VString (js "delta")) (VString (js "00612345675"))
     = Return (VString (js "https://www.deltacargo.com/Cargo/trackShipment?airbillnumber=00612345675")).
Proof.
  split; [vm_compute; reflexivity|]. split; [|vm_compute; reflexivity].
  unfold App.officialLink, Server.officialLink, encodeURIComponent.
  destruct (Js.encode (toString cd)); vm_compute; reflexivity.
Qed.

(** ** White space *)

Lemma squeeze_ext (P Q : N -> bool) (by_ : jsstring) (b : bool) (s : jsstring) :
  (forall c, P c = Q c) -> squeeze P by_ b s = squeeze Q by_ b s.
Proof.
  intros H. revert b. induction s as [|c s IH]; intros b; [reflexivity|].
  cbn [squeeze]. rewrite H, !IH. reflexivity.
Qed.

Lemma span_ext (P Q : N -> bool) (s : jsstring) :
  (forall c, P c = Q c) -> span P s = span Q s.
Proof.
  intros H. induction s as [|c s IH]; [reflexivity|]. cbn. now rewrite H, IH.
Qed.

(** [s.replace(/\s+/g, " ")] squeezes the runs of white space. *)
Lemma replace_spaces (s : jsstring) :
  RegExp.replace_g (re "\s+" "g") (js " ") s = squeeze Js.is_space [32%N] false s.
Proof.
  replace (re "\s+" "g")
    with (RegExp.RegExp
            (RegExp.Seq (RegExp.Quant 1 None true
                           (RegExp.Class false [RegExp.ISpace false])) RegExp.Eps) false)
    by (vm_compute; reflexivity).
  unfold RegExp.replace_g.
  rewrite (proj1 (replace_from_squeeze _ _ (js " ") (match_at_class_plus _ _ _) s None)).
  apply squeeze_ext. intros c.
  cbn [RegExp.class_has existsb RegExp.item_has xorb]. now rewrite orb_false_r.
Qed.

(** [s.replace(/[ \t]+/g, " ")] squeezes the runs of blanks and tabs. *)
Lemma replace_blanks (s : jsstring) :
  RegExp.replace_g (re "[ \t]+" "g") (js " ") s = squeeze is_blank [32%N] false s.
Proof.
  replace (re "[ \t]+" "g")
    with (RegExp.RegExp
            (RegExp.Seq (RegExp.Quant 1 None true
                           (RegExp.Class false [RegExp.IChar 32; RegExp.IChar 9]))
                        RegExp.Eps) false)
    by (vm_compute; reflexivity).
  unfold RegExp.replace_g.
  rewrite (proj1 (replace_from_squeeze _ _ (js " ") (match_at_class_plus _ _ _) s None)).
  apply squeeze_ext. intros c. unfold is_blank.
  cbn [RegExp.class_has existsb RegExp.item_has RegExp.canon xorb].
  rewrite orb_false_r, (N.eqb_sym 32 c), (N.eqb_sym 9 c). reflexivity.
Qed.

(** [s.replace(/\u00A0/g, " ")] maps the no-break spaces to blanks. *)
Lemma replace_nbsp (s : jsstring) :
  RegExp.replace_g (re "\u00A0" "g") (js " ") s
  = List.map (fun c => if (0xA0 =? c)%N then 32%N else c) s.
Proof.
  replace (re "\u00A0" "g") with (RegExp.RegExp (RegExp.lit [0xA0%N]) false)
    by (vm_compute; reflexivity).
  apply replace_unit.
Qed.

Lemma squeeze_cons_solid (P : N -> bool) (by_ : jsstring) (b : bool) (c : N) (s : jsstring) :
  P c = false -> squeeze P by_ b (c :: s) = c :: squeeze P by_ false s.
Proof. intros H. cbn. now rewrite H. Qed.

Lemma squeeze_app_cons (P : N -> bool) (by_ : jsstring) (b : bool) (pre : jsstring)
      (c : N) (s : jsstring) :
  P c = false ->
  squeeze P by_ b (pre ++ c :: s) = squeeze P by_ b pre ++ c :: squeeze P by_ false s.
Proof.
  intros H. revert b. induction pre as [|d pre IH]; intros b.
  - cbn [app squeeze]. now rewrite H.
  - cbn [app squeeze]. destruct (P d); [destruct b|]; rewrite IH; try reflexivity.
    now rewrite app_assoc.
Qed.

Lemma squeeze_solid (by_ : jsstring) (b : bool) (c : N) (x post : jsstring) :
  solid (c :: x) = true ->
  squeeze Js.is_space by_ b ((c :: x) ++ post)
  = (c :: x) ++ squeeze Js.is_space by_ false post.
Proof.
  revert b c. induction x as [|d x IH]; intros b c; cbn [solid forallb].
  - rewrite andb_true_r. intros H%negb_true_iff. cbn [app squeeze]. now rewrite H.
  - intros [Hc H]%andb_true_iff. apply negb_true_iff in Hc.
    change ((c :: d :: x) ++ post) with (c :: ((d :: x) ++ post)).
    rewrite (squeeze_cons_solid _ _ _ _ _ Hc). rewrite (IH false d H). reflexivity.
Qed.

(** Squeezing and trimming keep a word that has no white space in it. *)
Lemma squeeze_keeps_solid (by_ : jsstring) (b : bool) (pre x post : jsstring) :
  x <> [] -> solid x = true ->
  squeeze Js.is_space by_ b (pre ++ x ++ post)
  = squeeze Js.is_space by_ b pre ++ x ++ squeeze Js.is_space by_ false post.
Proof.
  intros Hx Hs. destruct x as [|c x]; [easy|].
  assert (Hc : Js.is_space c = false).
  { cbn in Hs. apply andb_true_iff in Hs as [Hc _]. now apply negb_true_iff in Hc. }
  change (pre ++ (c :: x) ++ post) with (pre ++ c :: (x ++ post)).
  rewrite (squeeze_app_cons _ _ _ _ _ _ Hc). f_equal.
  rewrite <- (squeeze_cons_solid _ by_ b _ _ Hc).
  exact (squeeze_solid by_ b c x post Hs).
Qed.

Lemma trimStart_keeps (a x b : jsstring) (c : N) :
  head x = Some c -> Js.is_space c = false ->
  exists a', Js.trimStart (a ++ x ++ b) = a' ++ x ++ b.
Proof.
  intros Hh Hc. rewrite trimStart_app. destruct (forallb Js.is_space a).
  - exists []. destruct x as [|d x]; [discriminate|]. injection Hh as ->.
    cbn. now rewrite Hc.
  - now exists (Js.trimStart a).
Qed.

Lemma trimEnd_keeps (a x b : jsstring) (c : N) :
  last x = Some c -> Js.is_space c = false ->
  exists b', Js.trimEnd (a ++ x ++ b) = a ++ x ++ b'.
Proof.
  intros Hl Hc. unfold Js.trimEnd. rewrite !rev_app_distr, <- app_assoc.
  destruct (trimStart_keeps (rev b) (rev x) (rev a) c) as (b' & E).
  - apply last_Some in Hl as (l' & ->). now rewrite rev_app_distr.
  - exact Hc.
  - exists (rev b'). rewrite E, !rev_app_distr, !rev_involutive.
    now rewrite <- app_assoc.
Qed.

Lemma trim_keeps (a x b : jsstring) (c d : N) :
  head x = Some c -> Js.is_space c = false ->
  last x = Some d -> Js.is_space d = false ->
  exists a' b', Js.trim (a ++ x ++ b) = a' ++ x ++ b'.
Proof.
  intros Hh Hc Hl Hd. unfold Js.trim.
  destruct (trimStart_keeps a x b c Hh Hc) as (a' & ->).
  destruct (trimEnd_keeps a' x b d Hl Hd) as (b' & ->). now exists a', b'.
Qed.

(** ** Status extraction *)

Lemma find_map {A B} (f : B -> bool) (g : A -> B) (l : list A) :
  List.find f (List.map g l) = g <$> List.find (fun a => f (g a)) l.
Proof.
  induction l as [|a l IH]; [reflexivity|]. cbn. destruct (f (g a)); [reflexivity|exact IH].
Qed.

Lemma find_ext {A} (f g : A -> bool) (l : list A) :
  (forall a, f a = g a) -> List.find f l = List.find g l.
Proof.
  intros H. induction l as [|a l IH]; [reflexivity|]. cbn. now rewrite H, IH.
Qed.

Lemma match_lit (ic : bool) (w text : jsstring) :
  match_ text (RegExp.RegExp (RegExp.lit w) ic) 0
  = match find_ci ic w text 0 with
    | Some im => VString (snd im)
    | None => VUndefined
    end.
Proof.
  unfold match_, RegExp.exec. rewrite exec_from_lit.
  now destruct (find_ci ic w text 0) as [[j m]|].
Qed.

Lemma part000_statusCandidates :
  Part000.statusCandidates
  = List.map (fun w => RegExp.RegExp (RegExp.lit w) true) status_keywords.
Proof. vm_compute. reflexivity. Qed.

(** The status of part_000: the leftmost occurrence, as written in the
    text, of the first keyword of the list that occurs at all. *)
Lemma part000_status (bigText : jsstring) :
  Part000.status_ (Part000.extractStatusAndEta bigText)
  = match List.find (fun w => occurs true w (normalized bigText)) status_keywords with
    | Some w =>
      match find_ci true w (normalized bigText) 0 with
      | Some im => VString (snd im)
      | None => VUndefined
      end
    | None => VNull
    end.
Proof.
  unfold Part000.extractStatusAndEta. cbn [Part000.status_].
  rewrite replace_spaces. fold (normalized bigText).
  rewrite part000_statusCandidates, find_map.
  rewrite (find_ext _ (fun w => occurs true w (normalized bigText)))
    by (intros w; apply test_lit).
  destruct (List.find _ status_keywords) as [w|]; [|reflexivity].
  cbn [fmap option_fmap option_map]. apply match_lit.
Qed.

Ltac case_N :=
  repeat match goal with
         | |- context [(?a <=? ?b)%N] => destruct (N.leb_spec a b)
         | |- context [(?a =? ?b)%N] => destruct (N.eqb_spec a b)
         | H : context [(?a <=? ?b)%N] |- _ => destruct (N.leb_spec a b)
         | H : context [(?a =? ?b)%N] |- _ => destruct (N.eqb_spec a b)
         end.

Lemma space_bounds (c : N) :
  Js.is_space c = true -> (9 <= c <= 13 \/ c = 32 \/ 160 <= c)%N.
Proof.
  unfold Js.is_space, Js.in_range. intros H.
  repeat (apply orb_true_iff in H as [H|H]);
    try (apply andb_true_iff in H as [H1 H2]; apply N.leb_le in H1, H2);
    try apply N.eqb_eq in H; lia.
Qed.

(** What the [i] flag identifies with an ASCII capital is an ASCII letter. *)
Lemma upper_letter (c : N) :
  Js.in_range 65 90 (RegExp.upper_unit c) = true -> (65 <= c <= 122)%N.
Proof.
  unfold RegExp.upper_unit, Js.in_range. intros H.
  case_N; cbn in *; try discriminate; lia.
Qed.

Lemma upper_letter_not_space (c : N) :
  Js.in_range 65 90 (RegExp.upper_unit c) = true -> Js.is_space c = false.
Proof.
  intros H%upper_letter. destruct (Js.is_space c) eqn:E; [|reflexivity].
  apply space_bounds in E. lia.
Qed.

Lemma upper_blank (c : N) : RegExp.upper_unit c = 32%N -> c = 32%N.
Proof.
  unfold RegExp.upper_unit, Js.in_range. intros H.
  case_N; cbn in *; lia.
Qed.

Lemma same_ci_length (x w : jsstring) : same_ci x w -> length x = length w.
Proof. unfold same_ci. intros H. apply (f_equal (@length N)) in H. now rewrite !length_map in H. Qed.

Lemma same_ci_solid (x w : jsstring) :
  same_ci x w ->
  forallb (fun k => Js.in_range 65 90 (RegExp.upper_unit k)) w = true ->
  solid x = true.
Proof.
  unfold same_ci, solid. revert w. induction x as [|c x IH]; intros [|k w];
    cbn; try discriminate; try reflexivity.
  intros [= Hc Hx] [Hk Hw]%andb_true_iff. rewrite <- Hc in Hk.
  rewrite (upper_letter_not_space c Hk). cbn. now apply (IH w).
Qed.

Lemma solid_head (c : N) (x : jsstring) : solid (c :: x) = true -> Js.is_space c = false.
Proof. cbn. intros [H _]%andb_true_iff. now apply negb_true_iff. Qed.

Lemma solid_last (x : jsstring) (d : N) :
  solid x = true -> last x = Some d -> Js.is_space d = false.
Proof.
  intros Hs (l & ->)%last_Some. unfold solid in Hs. rewrite forallb_app in Hs.
  apply andb_true_iff in Hs as [_ Hs]. cbn in Hs. rewrite andb_true_r in Hs.
  now apply negb_true_iff.
Qed.

(** The normalization of part_000 keeps a word without white space. *)
Lemma normalized_keeps_solid (pre x post : jsstring) :
  x <> [] -> solid x = true ->
  exists a b, normalized (pre ++ x ++ post) = a ++ x ++ b.
Proof.
  intros Hx Hs. unfold normalized. rewrite (squeeze_keeps_solid _ _ _ _ _ Hx Hs).
  destruct x as [|c x]; [easy|].
  destruct (last (c :: x)) as [d|] eqn:El; [|now apply last_None in El].
  apply (trim_keeps _ (c :: x) _ c d).
  - reflexivity.
  - now apply solid_head in Hs.
  - exact El.
  - now apply (solid_last (c :: x)).
Qed.

(** The same for two such words with one blank between them. *)
Lemma normalized_keeps_two_words (pre x1 x2 post : jsstring) :
  x1 <> [] -> x2 <> [] -> solid x1 = true -> solid x2 = true ->
  exists a b, normalized (pre ++ (x1 ++ 32%N :: x2) ++ post) = a ++ (x1 ++ 32%N :: x2) ++ b.
Proof.
  intros H1 H2 S1 S2. unfold normalized.
  replace (pre ++ (x1 ++ 32%N :: x2) ++ post)
    with (pre ++ x1 ++ (32%N :: (x2 ++ post))) by now rewrite <- !app_assoc.
  rewrite (squeeze_keeps_solid _ _ _ _ _ H1 S1).
  cbn [squeeze]. change (Js.is_space 32) with true. cbv iota.
  destruct x2 as [|c2 x2]; [easy|]. rewrite (squeeze_solid _ true c2 x2 post S2).
  replace (x1 ++ [32%N] ++ (c2 :: x2) ++ squeeze Js.is_space [32%N] false post)
    with ((x1 ++ 32%N :: c2 :: x2) ++ squeeze Js.is_space [32%N] false post)
    by now rewrite <- !app_assoc.
  destruct x1 as [|c1 x1]; [easy|].
  destruct (last (c2 :: x2)) as [d|] eqn:El; [|now apply last_None in El].
  apply (trim_keeps _ ((c1 :: x1) ++ 32%N :: c2 :: x2) _ c1 d).
  - reflexivity.
  - now apply solid_head in S1.
  - now rewrite last_app_cons.
  - now apply (solid_last (c2 :: x2)).
Qed.

Lemma occurs_normalized_solid (w pre x post : jsstring) :
  same_ci x w -> w <> [] ->
  forallb (fun k => Js.in_range 65 90 (RegExp.upper_unit k)) w = true ->
  occurs true w (normalized (pre ++ x ++ post)) = true.
Proof.
  intros Hx Hw Hl. assert (Hn : x <> []).
  { intros ->. apply same_ci_length in Hx. destruct w; [easy|discriminate]. }
  destruct (normalized_keeps_solid pre x post Hn (same_ci_solid x w Hx Hl)) as (a & b & ->).
  now apply occurs_app.
Qed.

Lemma not_canonical (y w : jsstring) :
  same_ci y w ->
  forallb (fun v => negb (bool_decide (List.map RegExp.upper_unit v
                                       = List.map RegExp.upper_unit w)))
          canonical_vocabulary = true ->
  y ∉ canonical_vocabulary.
Proof.
  intros Hy Hv Hin. apply list_elem_of_In in Hin.
  rewrite forallb_forall in Hv. specialize (Hv y Hin).
  apply negb_true_iff, bool_decide_eq_false in Hv. now apply Hv.
Qed.

Lemma in_transit_words (x : jsstring) :
  same_ci x (js "in transit") ->
  exists x1 x2, x = x1 ++ 32%N :: x2 /\ x1 <> [] /\ x2 <> []
                /\ solid x1 = true /\ solid x2 = true.
Proof.
  unfold same_ci. intros H.
  change (List.map RegExp.upper_unit (js "in transit"))
    with [73; 78; 32; 84; 82; 65; 78; 83; 73; 84]%N in H.
  do 11 (destruct x as [|? x]; try discriminate H).
  injection H as H1 H2 H3 H4 H5 H6 H7 H8 H9 H10.
  apply upper_blank in H3. subst.
  eexists [_; _], [_; _; _; _; _; _; _]. split; [reflexivity|].
  split; [easy|]. split; [easy|]. split.
  - apply (same_ci_solid _ (js "in")); [|vm_compute; reflexivity].
    unfold same_ci. change (List.map RegExp.upper_unit (js "in")) with [73; 78]%N.
    cbn [List.map]. congruence.
  - apply (same_ci_solid _ (js "transit")); [|vm_compute; reflexivity].
    unfold same_ci.
    change (List.map RegExp.upper_unit (js "transit")) with [84; 82; 65; 78; 83; 73; 84]%N.
    cbn [List.map]. congruence.
Qed.

Lemma appcache_status_regexps :
  Forall (fun w => AppCache.new_RegExp w "i" = RegExp.RegExp (RegExp.lit w) true)
         AppCache.statuses.
Proof.
  unfold AppCache.statuses. cbn [List.map].
  repeat (constructor; [vm_compute; reflexivity|]). constructor.
Qed.

Lemma extractStatus_loop_spec (l : list jsstring) (text : jsstring) :
  Forall (fun w => AppCache.new_RegExp w "i" = RegExp.RegExp (RegExp.lit w) true) l ->
  AppCache.extractStatus_loop l text
  = match List.find (fun w => occurs true w text) l with
    | Some w => VString w
    | None => VNull
    end.
Proof.
  induction 1 as [|w l Hw _ IH]; [reflexivity|]. cbn [AppCache.extractStatus_loop List.find].
  rewrite Hw, test_lit. now destruct (occurs true w text).
Qed.

(** C2, as stated, fails: no status is mapped into the canonical
    vocabulary.  Part_000 returns the text it matched and src/app.js the
    keyword of its list; [Unknown] is what the scrapers of src/app.js put in
    place of [null], that is, when no keyword was found. *)
Lemma status_is_not_canonical :
  Part000.status_ (Part000.extractStatusAndEta (js "Entregado")) = VString (js "Entregado")
  /\ Part000.status_ (Part000.extractStatusAndEta (js "In Transit")) = VString (js "In Transit")
  /\ AppCache.extractStatus (js "ENTREGADO") = VString (js "Entregado")
  /\ AppCache.extractStatus (js "Shipped") = VString (js "Shipped")
  /\ AppCache.extractStatus (js "no news") ||| VString (js "Unknown") = VString (js "Unknown")
  /\ bool_decide (js "Entregado" ∈ canonical_vocabulary) = false
  /\ bool_decide (js "In Transit" ∈ canonical_vocabulary) = false
  /\ bool_decide (js "Shipped" ∈ canonical_vocabulary) = false.
Proof. repeat split; vm_compute; reflexivity. Qed.

(** C2, amended: status extraction returns raw text.  In part_000 the
    status is the leftmost occurrence, as written in the page, of the first
    word of its keyword list that occurs in the normalized text in any letter
    case, and [null] when none occurs; so for every input containing
    "Entregado" in any letter case it is that occurrence, and for an input
    containing "In Transit" it is that occurrence when none of the eight
    keywords listed before it occurs.  In src/app.js [extractStatus] returns
    the first keyword of its list that occurs, spelled as in the list, and
    [null] when none does. *)
Theorem status_is_the_raw_match (bigText pre x post : jsstring) :
  let status := Part000.status_ (Part000.extractStatusAndEta bigText) in
  let text := normalized bigText in
  status
  = match List.find (fun w => occurs true w text) status_keywords with
    | Some w =>
      match find_ci true w text 0 with
      | Some im => VString (snd im)
      | None => VUndefined
      end
    | None => VNull
    end
  /\ (bigText = pre ++ x ++ post -> same_ci x (js "entregado") ->
      exists y, status = VString y /\ same_ci y (js "entregado")
                /\ y ∉ canonical_vocabulary)
  /\ (bigText = pre ++ x ++ post -> same_ci x (js "in transit") ->
      forallb (fun w => negb (occurs true w text)) (take 8 status_keywords) = true ->
      exists y, status = VString y /\ same_ci y (js "in transit")
                /\ y ∉ canonical_vocabulary)
  /\ AppCache.extractStatus bigText
     = match List.find (fun w => occurs true w bigText) AppCache.statuses with
       | Some w => VString w
       | None => VNull
       end.
Proof.
  cbv zeta. split; [apply part000_status|]. split; [|split].
  - intros -> Hx. rewrite part000_status.
    assert (Ho := occurs_normalized_solid (js "entregado") pre x post Hx
                    ltac:(vm_compute; discriminate) ltac:(vm_compute; reflexivity)).
    unfold status_keywords. cbn [List.map List.find]. rewrite Ho.
    destruct (find_ci_some true _ _ 0 Ho) as (j & m & -> & Hm).
    exists m. split; [reflexivity|]. split; [exact Hm|].
    apply (not_canonical m (js "entregado") Hm). vm_compute. reflexivity.
  - intros -> Hx Hearlier. rewrite part000_status.
    destruct (in_transit_words x Hx) as (x1 & x2 & -> & N1 & N2 & S1 & S2).
    destruct (normalized_keeps_two_words pre x1 x2 post N1 N2 S1 S2) as (a & b & E).
    assert (Ho : occurs true (js "in transit") (normalized (pre ++ (x1 ++ 32%N :: x2) ++ post))
                 = true).
    { rewrite E. now apply occurs_app. }
    unfold status_keywords in *. cbn [List.map take forallb] in Hearlier.
    repeat (apply andb_true_iff in Hearlier as [?%negb_true_iff Hearlier]).
    cbn [List.map List.find].
    repeat match goal with H : occurs _ _ _ = false |- _ => rewrite H; clear H end.
    rewrite Ho.
    destruct (find_ci_some true _ _ 0 Ho) as (j & m & -> & Hm).
    exists m. split; [reflexivity|]. split; [exact Hm|].
    apply (not_canonical m (js "in transit") Hm). vm_compute. reflexivity.
  - apply extractStatus_loop_spec, appcache_status_regexps.
Qed.

Lemma status_is_the_raw_match_witness :
  exists y, Part000.status_ (Part000.extractStatusAndEta (js "Estado:  ENTREGADO hoy"))
            = VString y
            /\ same_ci y (js "entregado") /\ y ∉ canonical_vocabulary.
Proof.
  exact (proj1 (proj2 (status_is_the_raw_match (js "Estado:  ENTREGADO hoy")
                         (js "Estado:  ") (js "ENTREGADO") (js " hoy")))
               eq_refl eq_refl).
Defined.

(** ** The normalizer of part_001 *)

Lemma toString_or_empty (s : jsstring) : toString (VString s ||| VString []) = s.
Proof. now destruct s. Qed.


Lemma squeeze_forall (Q : N -> Prop) (P : N -> bool) (by_ : jsstring) (b : bool)
      (s : jsstring) :
  Forall Q by_ -> Forall Q s -> Forall Q (squeeze P by_ b s).
Proof.
  intros Hb Hs. revert b. induction Hs as [|c s Hc Hs IH]; intros b; [constructor|].
  cbn [squeeze]. destruct (P c); [destruct b|]; auto using Forall_app_2.
Qed.

Lemma unbreak_forall (s : jsstring) : Forall (fun c => c <> 0xA0%N) (unbreak s).
Proof.
  unfold unbreak. induction s as [|c s IH]; cbn [List.map]; constructor; [|exact IH].
  destruct (N.eqb_spec 160 c); lia.
Qed.

Lemma unbreak_id (s : jsstring) : Forall (fun c => c <> 0xA0%N) s -> unbreak s = s.
Proof.
  unfold unbreak. induction 1 as [|c s Hc _ IH]; [reflexivity|]. cbn [List.map]. rewrite IH.
  destruct (N.eqb_spec 160 c); congruence.
Qed.


















(** ** Estimated dates (part_000) *)

Lemma exec_from_here (r : RegExp.regexp) (p : option N) (s : jsstring) (i : nat)
      (st' : RegExp.mstate) :
  RegExp.match_at r p s = Some st' ->
  RegExp.exec_from r p s i
  = Some {| RegExp.index := i;
            RegExp.elems := Some (take (RegExp.pos st') s)
                              :: List.map (RegExp.get_cap st') (seq 1 (RegExp.ngroups r)) |}.
Proof. intros H. destruct s; cbn [RegExp.exec_from]; now rewrite H. Qed.

Lemma exec_from_index (r : RegExp.regexp) (p : option N) (s : jsstring) (i : nat)
      (m : RegExp.match_array) :
  RegExp.exec_from r p s i = Some m -> i <= RegExp.index m.
Proof.
  revert p i. induction s as [|c s IH]; intros p i; cbn [RegExp.exec_from];
    destruct (RegExp.match_at r p _); try discriminate.
  - intros [= <-]. cbn. lia.
  - intros [= <-]. cbn. lia.
  - intros H%IH. lia.
Qed.

(** The search passes a stretch of text in which no match begins. *)
Lemma exec_from_skip (r : RegExp.regexp) (p : option N) (a s : jsstring) (i : nat) :
  (forall m, RegExp.exec_from r p (a ++ s) i = Some m -> i + length a <= RegExp.index m) ->
  RegExp.exec_from r p (a ++ s) i
  = RegExp.exec_from r (match last a with Some c => Some c | None => p end) s
                     (i + length a).
Proof.
  revert p i. induction a as [|c a IH]; intros p i H.
  - cbn. now rewrite Nat.add_0_r.
  - cbn [app RegExp.exec_from length] in *.
    destruct (RegExp.match_at r p (c :: a ++ s)) as [st'|].
    + specialize (H _ eq_refl). cbn in H. lia.
    + rewrite IH.
      * replace (S i + length a) with (i + S (length a)) by lia. f_equal.
        change (c :: a) with ([c] ++ a). rewrite last_app. now destruct (last a).
      * intros m Hm. specialize (H m Hm). lia.
Qed.

Lemma test_false (r : RegExp.regexp) (s : jsstring) :
  RegExp.test r s = false -> RegExp.exec r s = None.
Proof.
  unfold RegExp.test. intros H%bool_decide_eq_false.
  destruct (RegExp.exec r s); [|reflexivity]. exfalso. apply H. eauto.
Qed.

Lemma test_exec (r : RegExp.regexp) (s : jsstring) :
  RegExp.test r s = bool_decide (RegExp.exec r s <> None).
Proof.
  unfold RegExp.test. destruct (RegExp.exec r s).
  - rewrite !bool_decide_eq_true_2; [reflexivity|easy|eauto].
  - rewrite !bool_decide_eq_false_2; [reflexivity|easy|]. now intros [? ?].
Qed.

Lemma exec_elems_length (r : RegExp.regexp) (p : option N) (s : jsstring) (i : nat)
      (m : RegExp.match_array) :
  RegExp.exec_from r p s i = Some m -> length (RegExp.elems m) = S (RegExp.ngroups r).
Proof.
  revert p i. induction s as [|c s IH]; intros p i; cbn [RegExp.exec_from];
    destruct (RegExp.match_at r p _); try discriminate; try apply IH.
  all: intros [= <-]; cbn; now rewrite length_map, length_seq.
Qed.

(** The loop over the candidates: the first that matches decides, and the
    value is its last group. *)
Lemma eta_loop_spec (rs : list RegExp.regexp) (text : jsstring) :
  Part000.eta_loop rs text
  = match List.find (fun r => RegExp.test r text) rs with
    | Some r => capture (RegExp.exec r text) (RegExp.ngroups r)
    | None => VNull
    end.
Proof.
  induction rs as [|r rs IH]; [reflexivity|]. cbn [Part000.eta_loop List.find].
  rewrite test_exec. destruct (RegExp.exec r text) as [m|] eqn:E.
  - rewrite bool_decide_eq_true_2 by easy.
    now rewrite (exec_elems_length _ _ _ _ _ E), Nat.sub_succ, Nat.sub_0_r, E.
  - rewrite bool_decide_eq_false_2 by easy. exact IH.
Qed.

Lemma part000_etaText (bigText : jsstring) :
  Part000.etaText (Part000.extractStatusAndEta bigText)
  = Part000.eta_loop Part000.etaRegexes (normalized bigText).
Proof.
  unfold Part000.extractStatusAndEta. cbn [Part000.etaText]. now rewrite replace_spaces.
Qed.

(** The first candidate on the Spanish phrase, whatever surrounds it. *)
Lemma match_entrega_estimada (p : option N) (post : jsstring) :
  RegExp.match_at (eta_candidate 0) p (entrega_estimada ++ post)
  = Some {| RegExp.prev := Some 53%N; RegExp.rest := post;
            RegExp.caps := [(2, js "27/08/2025"); (1, js "estimada")];
            RegExp.pos := 28 |}.
Proof. vm_compute. reflexivity. Qed.

(** The third candidate on the English phrase. *)
Lemma match_estimated_delivery (p : option N) (post : jsstring) :
  RegExp.match_at (eta_candidate 2) p (estimated_delivery ++ post)
  = Some {| RegExp.prev := Some 53%N; RegExp.rest := post;
            RegExp.caps := [(2, js "August 27, 2025"); (1, js "Estimated")];
            RegExp.pos := 35 |}.
Proof. vm_compute. reflexivity. Qed.

Lemma exec_at_phrase (r : RegExp.regexp) (a x b : jsstring) (st' : RegExp.mstate) :
  (forall p, RegExp.match_at r p (x ++ b) = Some st') ->
  (forall m, RegExp.exec r (a ++ x ++ b) = Some m -> length a <= RegExp.index m) ->
  RegExp.exec r (a ++ x ++ b)
  = Some {| RegExp.index := length a;
            RegExp.elems := Some (take (RegExp.pos st') (x ++ b))
                              :: List.map (RegExp.get_cap st') (seq 1 (RegExp.ngroups r)) |}.
Proof.
  intros Hm Hi. unfold RegExp.exec in *. rewrite exec_from_skip by exact Hi.
  now rewrite (exec_from_here _ _ _ _ st' (Hm _)).
Qed.

Lemma squeeze_spaced (b : bool) (x post : jsstring) :
  spaced x = true -> x <> [] ->
  (b = true -> match x with d :: _ => Js.is_space d = false | [] => True end) ->
  squeeze Js.is_space [32%N] b (x ++ post) = x ++ squeeze Js.is_space [32%N] false post.
Proof.
  revert b. induction x as [|c t IH]; intros b Hs Hn Hb; [easy|].
  cbn [spaced] in Hs. apply andb_true_iff in Hs as [Hc Ht].
  cbn [app squeeze]. destruct (Js.is_space c) eqn:Ec.
  - destruct b; [now specialize (Hb eq_refl)|].
    apply andb_true_iff in Hc as [Hc Hd]. apply N.eqb_eq in Hc. subst c.
    destruct t as [|d t]; [discriminate|]. apply negb_true_iff in Hd.
    cbn [app]. f_equal. apply IH; [exact Ht|easy|now intros _].
  - f_equal. destruct t as [|d t]; [reflexivity|]. apply IH; [exact Ht|easy|discriminate].
Qed.

(** The normalization of part_000 keeps a phrase whose words are one
    blank apart. *)
Lemma normalized_keeps_phrase (pre x post : jsstring) (c d : N) :
  spaced x = true ->
  head x = Some c -> Js.is_space c = false ->
  last x = Some d -> Js.is_space d = false ->
  exists a b, normalized (pre ++ x ++ post) = a ++ x ++ b.
Proof.
  intros Hs Hh Hc Hl Hd. unfold normalized.
  destruct x as [|c' x']; [discriminate|]. injection Hh as ->.
  change (pre ++ (c :: x') ++ post) with (pre ++ c :: (x' ++ post)).
  rewrite (squeeze_app_cons _ _ _ _ _ _ Hc).
  rewrite <- (squeeze_cons_solid _ [32%N] false _ _ Hc).
  change (c :: x' ++ post) with ((c :: x') ++ post).
  rewrite (squeeze_spaced false (c :: x') post Hs) by easy.
  now apply (trim_keeps _ (c :: x') _ c d).
Qed.

Lemma etaRegexes_candidates :
  Part000.etaRegexes = [eta_candidate 0; eta_candidate 1; eta_candidate 2; eta_candidate 3].
Proof. reflexivity. Qed.

(** C4, as stated, fails for inputs that hold another estimated date
    before the phrase, or a phrase of an earlier candidate anywhere: the
    first candidate that matches wins, at its leftmost match. *)
Lemma eta_of_first_match_not_of_phrase :
  Js.includes (js "Entrega prevista 01/01/2024. Entrega estimada: 27/08/2025")
              entrega_estimada = true
  /\ Part000.etaText (Part000.extractStatusAndEta
                        (js "Entrega prevista 01/01/2024. Entrega estimada: 27/08/2025"))
     = VString (js "01/01/2024")
  /\ Js.includes (js "Estimated delivery: August 27, 2025 (entrega estimada 27/08/2025)")
                 estimated_delivery = true
  /\ Part000.etaText (Part000.extractStatusAndEta
                        (js "Estimated delivery: August 27, 2025 (entrega estimada 27/08/2025)"))
     = VString (js "27/08/2025").
Proof. repeat split; vm_compute; reflexivity. Qed.

(** C4, amended: the estimated date is the last capture group of the
    first candidate, in the order of the list, that matches the normalized
    text (the date, not the labelling word captured by an earlier group), and
    [null] when none matches.  An input that contains "Entrega estimada:
    27/08/2025" keeps the phrase when normalized, and its date is
    "27/08/2025" when the first candidate has no match before the phrase;
    one that contains "Estimated delivery: August 27, 2025" gives "August 27,
    2025" when the two Spanish candidates do not match and the third has no
    match before the phrase.  Both hold for the phrases alone. *)
Theorem eta_first_match_last_group (bigText pre post a b : jsstring) :
  let text := normalized bigText in
  let eta := Part000.etaText (Part000.extractStatusAndEta bigText) in
  eta = match List.find (fun r => RegExp.test r text) Part000.etaRegexes with
        | Some r => capture (RegExp.exec r text) (RegExp.ngroups r)
        | None => VNull
        end
  /\ List.map RegExp.ngroups Part000.etaRegexes = [2; 3; 2; 2]
  /\ (bigText = pre ++ entrega_estimada ++ post ->
      exists a' b', text = a' ++ entrega_estimada ++ b')
  /\ (bigText = pre ++ estimated_delivery ++ post ->
      exists a' b', text = a' ++ estimated_delivery ++ b')
  /\ (text = a ++ entrega_estimada ++ b ->
      (forall m, RegExp.exec (eta_candidate 0) text = Some m -> length a <= RegExp.index m) ->
      eta = VString (js "27/08/2025"))
  /\ (text = a ++ estimated_delivery ++ b ->
      RegExp.test (eta_candidate 0) text = false ->
      RegExp.test (eta_candidate 1) text = false ->
      (forall m, RegExp.exec (eta_candidate 2) text = Some m -> length a <= RegExp.index m) ->
      eta = VString (js "August 27, 2025"))
  /\ Part000.etaText (Part000.extractStatusAndEta entrega_estimada)
     = VString (js "27/08/2025")
  /\ Part000.etaText (Part000.extractStatusAndEta estimated_delivery)
     = VString (js "August 27, 2025")
  /\ match_ entrega_estimada (eta_candidate 0) 1 = VString (js "estimada").
Proof.
  cbv zeta. rewrite part000_etaText.
  split; [apply eta_loop_spec|]. split; [vm_compute; reflexivity|].
  split; [|split; [|split; [|split]]].
  - intros ->. apply (normalized_keeps_phrase _ _ _ 69%N 53%N); vm_compute; reflexivity.
  - intros ->. apply (normalized_keeps_phrase _ _ _ 69%N 53%N); vm_compute; reflexivity.
  - intros E Hi. rewrite E in *. rewrite eta_loop_spec, etaRegexes_candidates.
    assert (Hx := exec_at_phrase _ a entrega_estimada b _
                    (fun p => match_entrega_estimada p b) Hi).
    cbn [List.find]. rewrite test_exec, Hx, bool_decide_eq_true_2 by easy.
    cbv beta iota. rewrite Hx. vm_compute. reflexivity.
  - intros E H0 H1 Hi. rewrite E in *. rewrite eta_loop_spec, etaRegexes_candidates.
    assert (Hx := exec_at_phrase _ a estimated_delivery b _
                    (fun p => match_estimated_delivery p b) Hi).
    cbn [List.find]. rewrite H0, H1, test_exec, Hx, bool_decide_eq_true_2 by easy.
    cbv beta iota. rewrite Hx. vm_compute. reflexivity.
  - repeat split; vm_compute; reflexivity.
Qed.

Lemma eta_first_match_last_group_witness :
  Part000.etaText (Part000.extractStatusAndEta
                     (js "Su pedido.  Entrega estimada: 27/08/2025 antes de las 20:00"))
  = VString (js "27/08/2025").
Proof.
  refine (proj1 (proj2 (proj2 (proj2 (proj2
            (eta_first_match_last_group
               (js "Su pedido.  Entrega estimada: 27/08/2025 antes de las 20:00")
               [] [] (js "Su pedido. ") (js " antes de las 20:00")))))) eq_refl _).
  intros m Hm. vm_compute in Hm. injection Hm as <-. vm_compute. lia.
Defined.

(** ** The handlers, whatever the request *)

Lemma bind_inv {A B} (m : io A) (k : A -> io B) (t t' : list jsstring) (r : B) :
  (m ≫= k) t = (Return r, t') ->
  exists a t1, m t = (Return a, t1) /\ k a t1 = (Return r, t').
Proof.
  unfold mbind, io_bind. destruct (m t) as [[a|e] t1]; [eauto|discriminate].
Qed.

Lemma ret_inv {A} (a r : A) (t t' : list jsstring) :
  (mret a : io A) t = (Return r, t') -> r = a /\ t' = t.
Proof. unfold mret, io_ret. now intros [= -> ->]. Qed.

(** The outer [try/catch] of the handlers turns every exception into the
    answer 500. *)
Lemma try_catch_answers (m : io response) (t : list jsstring) :
  (forall r t', m t = (Return r, t') -> status r = 200 \/ status r = 400) ->
  exists r, fst (try_catch m (fun _ => mret Server.internal_error) t) = Return r
            /\ (status r = 200 \/ status r = 400 \/ status r = 500).
Proof.
  intros H. unfold try_catch. destruct (m t) as [[r|e] t'] eqn:E.
  - exists r. split; [reflexivity|]. destruct (H r t' eq_refl); auto.
  - exists Server.internal_error. split; [reflexivity|]. right; right. reflexivity.
Qed.

(** The shape the handlers of src/server.js, part_001 and the first
    program of src/app.js share: the two guards, then the details, then
    the answer 200. *)
Lemma guarded_answers (c1 : bool) (link_ : outcome value) (cr : value)
      (details : value -> io object) (answer : value -> object -> response)
      (t t' : list jsstring) (r : response) :
  (forall u d, status (answer u d) = 200) ->
  (if c1 then mret Server.missing_parameters
   else url ← lift link_;
        if negb (truthy url) then mret (Server.unsupported cr)
        else d ← details url; mret (answer url d)) t = (Return r, t') ->
  status r = 200 \/ status r = 400.
Proof.
  intros Ha. destruct c1.
  - intros [-> _]%ret_inv. now right.
  - intros (url & t1 & _ & H)%bind_inv. destruct (negb (truthy url)).
    + apply ret_inv in H as [-> _]. now right.
    + apply bind_inv in H as (d & t2 & _ & [-> _]%ret_inv). left. apply Ha.
Qed.

Lemma server_always_answers (U : bool) (b : browser) (req : request) (t : list jsstring) :
  exists r, fst (Server.api_track U b req t) = Return r
            /\ (status r = 200 \/ status r = 400 \/ status r = 500).
Proof.
  apply try_catch_answers. intros r t'.
  apply (guarded_answers _ _ _
           (fun url => if U then try_catch (Server.scrapeByCarrier b (carrier req) (toString url))
                                           (fun _ => mret [])
                       else mret [])
           (fun url d => res_json (spread [("ok", VBool true); ("carrier", carrier req);
                                           ("code", code req); ("officialUrl", url)]%string d))).
  reflexivity.
Qed.

Lemma part001_always_answers (U : bool) (b : browser) (req : request) (t : list jsstring) :
  exists r, fst (Part001.api_track U b req t) = Return r
            /\ (status r = 200 \/ status r = 400 \/ status r = 500).
Proof.
  apply try_catch_answers. intros r t'.
  apply (guarded_answers _ _ _
           (fun url => if U then try_catch (Part001.scrapeByCarrier b (carrier req) (toString url))
                                           (fun _ => mret [])
                       else mret [])
           (fun url d => res_json (spread [("ok", VBool true); ("carrier", carrier req);
                                           ("code", code req); ("officialUrl", url)]%string d))).
  reflexivity.
Qed.

Lemma app_always_answers (U : bool) (b : browser) (req : request) (t : list jsstring) :
  exists r, fst (App.api_track U b req t) = Return r
            /\ (status r = 200 \/ status r = 400 \/ status r = 500).
Proof.
  apply try_catch_answers. intros r t'.
  apply (guarded_answers _ _ _
           (fun url => try_catch (App.scrapeByCarrier U b (carrier req) (toString url))
                                 (fun _ => mret []))
           (fun url d => res_json (spread [("ok", VBool true); ("carrier", carrier req);
                                           ("code", code req); ("officialUrl", url)]%string d))).
  reflexivity.
Qed.

Lemma part000_always_answers (b : browser) (req : request) (t : list jsstring) :
  exists r, fst (Part000.api_track b req t) = Return r
            /\ (status r = 200 \/ status r = 400 \/ status r = 500).
Proof.
  apply try_catch_answers. intros r t'. unfold Part000.api_track.
  destruct (negb (truthy (carrier req)) || negb (truthy (code req))).
  - intros [-> _]%ret_inv. now right.
  - intros (url & t1 & _ & H)%bind_inv. destruct (negb (truthy url)).
    + apply ret_inv in H as [-> _]. now right.
    + apply bind_inv in H as ([[st eta] ti] & t2 & _ & [-> _]%ret_inv). now left.
Qed.

(** X1: Whatever the request, the browser and the flag, each of the four
    [/api/track] handlers returns a response (no exception escapes it),
    and its status is 200, 400 or 500. *)
Theorem api_track_always_answers (U : bool) (b : browser) (req : request)
        (t : list jsstring) :
  Forall (fun handler : io response =>
            exists r, fst (handler t) = Return r
                      /\ (status r = 200 \/ status r = 400 \/ status r = 500))
         [Server.api_track U b req; Part001.api_track U b req; App.api_track U b req;
          Part000.api_track b req].
Proof.
  repeat constructor.
  - apply server_always_answers.
  - apply part001_always_answers.
  - apply app_always_answers.
  - apply part000_always_answers.
Qed.

(** X2: A request in which the carrier or the code is absent, [null] or the
    empty string is answered by each handler with status 400 and the
    message about the missing parameters, before any link is built and
    without a page load. *)
Theorem missing_parameter_is_client_error (U : bool) (b : browser) (req : request)
        (t : list jsstring) :
  truthy (carrier req) = false \/ truthy (code req) = false ->
  Server.api_track U b req t = (Return Server.missing_parameters, t)
  /\ Part001.api_track U b req t = (Return Server.missing_parameters, t)
  /\ App.api_track U b req t = (Return Server.missing_parameters, t)
  /\ Part000.api_track b req t = (Return Server.missing_parameters, t)
  /\ Server.missing_parameters
     = Response 400 [("ok", VBool false);
                     ("error", VString (js "Faltan parámetros: carrier y code"))]%string.
Proof.
  intros H.
  assert (E : negb (truthy (carrier req)) || negb (truthy (code req)) = true).
  { destruct H as [-> | ->]; [reflexivity|apply orb_true_r]. }
  unfold Server.api_track, Part001.api_track, App.api_track, Part000.api_track.
  rewrite E. unfold try_catch.
  split; [reflexivity|]. split; [reflexivity|]. split; [reflexivity|].
  split; [reflexivity|]. vm_compute. reflexivity.
Qed.

Lemma missing_parameter_is_client_error_witness :
  App.api_track false offline (Request (VString (js "dhl")) (VString [])) []
  = (Return Server.missing_parameters, []).
Proof.
  exact (proj1 (proj2 (proj2 (missing_parameter_is_client_error false offline
           (Request (VString (js "dhl")) (VString [])) [] (or_intror eq_refl))))).
Defined.

(** ** What the handlers ask of the browser *)

Lemma try_catch_trace {A} (m : io A) (x : A) (t : list jsstring) :
  snd (try_catch m (fun _ => mret x) t) = snd (m t).
Proof. unfold try_catch. destruct (m t) as [[a|e] t']; reflexivity. Qed.

Lemma goto_trace {A} (b : browser) (url : jsstring) (k : page -> io A)
      (t : list jsstring) :
  (forall p t', snd (k p t') = t') -> snd ((goto b url ≫= k) t) = t ++ [url].
Proof.
  intros H. unfold mbind, io_bind, goto. destruct (load b url) as [p|e]; [apply H|reflexivity].
Qed.

Lemma server_scrapeByCarrier_trace (b : browser) (cr : value) (url : jsstring)
      (t : list jsstring) :
  snd (Server.scrapeByCarrier b cr url t) = t
  \/ snd (Server.scrapeByCarrier b cr url t) = t ++ [url].
Proof.
  unfold Server.scrapeByCarrier.
  destruct (toLowerCase (cr ||| VString [])) as [c|e]; [|now left].
  rewrite lift_bind.
  destruct (Js.includes c (js "fedex")); [right; now apply goto_trace|].
  destruct (Js.includes c (js "dhl")); [right; now apply goto_trace|].
  destruct (Js.includes c (js "ups")); [right; now apply goto_trace|].
  destruct (Js.includes c (js "delta")); [right; now apply goto_trace|].
  destruct (Js.includes c (js "expeditors")); [right; now apply goto_trace|].
  now left.
Qed.

Lemma part001_scrapeByCarrier_trace (b : browser) (cr : value) (url : jsstring)
      (t : list jsstring) :
  snd (Part001.scrapeByCarrier b cr url t) = t
  \/ snd (Part001.scrapeByCarrier b cr url t) = t ++ [url].
Proof.
  unfold Part001.scrapeByCarrier.
  destruct (toLowerCase (cr ||| VString [])) as [c|e]; [|now left].
  rewrite lift_bind.
  destruct (Js.includes c (js "fedex")); [right; now apply goto_trace|].
  destruct (Js.includes c (js "dhl")); [right; now apply goto_trace|].
  destruct (Js.includes c (js "ups")); [right; now apply goto_trace|].
  destruct (Js.includes c (js "delta")); [right; now apply goto_trace|].
  destruct (Js.includes c (js "expeditors")); [right; now apply goto_trace|].
  now left.
Qed.

Lemma app_scrapeByCarrier_trace (U : bool) (b : browser) (cr : value) (url : jsstring)
      (t : list jsstring) :
  snd (App.scrapeByCarrier U b cr url t) = t
  \/ snd (App.scrapeByCarrier U b cr url t) = t ++ [url].
Proof.
  unfold App.scrapeByCarrier.
  destruct (toLowerCase (cr ||| VString [])) as [c|e]; [|now left].
  rewrite lift_bind.
  destruct (Js.includes c (js "fedex")); [|now left].
  unfold App.scrapeFedEx, App.withPage. destruct U; [right; now apply goto_trace|now left].
Qed.

(** The trace of a handler of the shape of [guarded_answers]. *)
Lemma guarded_trace (c1 : bool) (link_ : outcome value) (cr : value)
      (details : value -> io object) (answer : value -> object -> response)
      (t : list jsstring) :
  (forall u t1, snd (details u t1) = t1 \/ snd (details u t1) = t1 ++ [toString u]) ->
  let handler :=
    try_catch
      (if c1 then mret Server.missing_parameters
       else url ← lift link_;
            if negb (truthy url) then mret (Server.unsupported cr)
            else d ← details url; mret (answer url d))
      (fun _ => mret Server.internal_error) in
  snd (handler t) = t
  \/ exists url, link_ = Return url /\ truthy url = true
                 /\ snd (handler t) = t ++ [toString url].
Proof.
  intros Hd. cbv zeta. rewrite try_catch_trace. destruct c1; [now left|].
  destruct link_ as [url|e]; [|now left]. rewrite lift_bind.
  destruct (truthy url) eqn:Hu; [|now left]. cbn [negb].
  unfold mbind, io_bind. specialize (Hd url t).
  destruct (details url t) as [[d|e] t1]; cbn [snd] in *;
    (destruct Hd as [-> | ->]; [now left|right; now exists url]).
Qed.

Lemma server_trace (U : bool) (b : browser) (req : request) (t : list jsstring) :
  snd (Server.api_track U b req t) = t
  \/ exists url, Server.officialLink (carrier req) (code req) = Return url
                 /\ truthy url = true
                 /\ snd (Server.api_track U b req t) = t ++ [toString url].
Proof.
  apply (guarded_trace _ _ _
           (fun url => if U then try_catch (Server.scrapeByCarrier b (carrier req) (toString url))
                                           (fun _ => mret [])
                       else mret [])
           (fun url d => res_json (spread [("ok", VBool true); ("carrier", carrier req);
                                           ("code", code req); ("officialUrl", url)]%string d))).
  intros u t1. destruct U; [|now left]. rewrite try_catch_trace.
  apply server_scrapeByCarrier_trace.
Qed.

Lemma part001_trace (U : bool) (b : browser) (req : request) (t : list jsstring) :
  snd (Part001.api_track U b req t) = t
  \/ exists url, Server.officialLink (carrier req) (code req) = Return url
                 /\ truthy url = true
                 /\ snd (Part001.api_track U b req t) = t ++ [toString url].
Proof.
  apply (guarded_trace _ _ _
           (fun url => if U then try_catch (Part001.scrapeByCarrier b (carrier req) (toString url))
                                           (fun _ => mret [])
                       else mret [])
           (fun url d => res_json (spread [("ok", VBool true); ("carrier", carrier req);
                                           ("code", code req); ("officialUrl", url)]%string d))).
  intros u t1. destruct U; [|now left]. rewrite try_catch_trace.
  apply part001_scrapeByCarrier_trace.
Qed.

Lemma app_trace (U : bool) (b : browser) (req : request) (t : list jsstring) :
  snd (App.api_track U b req t) = t
  \/ exists url, App.officialLink (carrier req) (code req) = Return url
                 /\ truthy url = true
                 /\ snd (App.api_track U b req t) = t ++ [toString url].
Proof.
  apply (guarded_trace _ _ _
           (fun url => try_catch (App.scrapeByCarrier U b (carrier req) (toString url))
                                 (fun _ => mret []))
           (fun url d => res_json (spread [("ok", VBool true); ("carrier", carrier req);
                                           ("code", code req); ("officialUrl", url)]%string d))).
  intros u t1. rewrite try_catch_trace. apply app_scrapeByCarrier_trace.
Qed.

Lemma part000_trace (b : browser) (req : request) (t : list jsstring) :
  snd (Part000.api_track b req t) = t
  \/ exists url, Part000.officialLink (carrier req) (code req) = Return url
                 /\ truthy url = true
                 /\ snd (Part000.api_track b req t) = t ++ [toString url].
Proof.
  unfold Part000.api_track. rewrite try_catch_trace.
  destruct (negb (truthy (carrier req)) || negb (truthy (code req))); [now left|].
  destruct (Part000.officialLink (carrier req) (code req)) as [url|e]; [|now left].
  rewrite lift_bind. destruct (truthy url) eqn:Hu; [|now left]. cbn [negb].
  right. exists url. split; [reflexivity|]. split; [exact Hu|].
  unfold mbind at 1, io_bind at 1.
  assert (E : snd (try_catch
                     ('(bodyText, pageTitle) ← Part000.scrapePublicPage b (toString url);
                      let parsed := Part000.extractStatusAndEta bodyText in
                      mret (Part000.status_ parsed, Part000.etaText parsed, VString pageTitle))
                     (fun _ => mret (VNull, VNull, VNull)) t) = t ++ [toString url]).
  { rewrite try_catch_trace. unfold Part000.scrapePublicPage.
    unfold mbind at 1, io_bind at 1. unfold mbind, io_bind, goto.
    destruct (load b (toString url)); reflexivity. }
  revert E.
  destruct (try_catch _ _ t) as [[[[st eta] ti]|e] t1]; cbn [snd]; now intros ->.
Qed.

(** X3: A handler loads at most one page per request, and no other page than
    the official URL that [officialLink] built for the request: its trace
    of page loads is left as it was or grows by that URL.  (In part_000 the
    page of every supported carrier is loaded; in the others the scraper of
    the carrier decides.) *)
Theorem api_track_loads_only_the_official_url (U : bool) (b : browser) (req : request)
        (t : list jsstring) :
  let visits (link_ : outcome value) (handler : io response) :=
    snd (handler t) = t
    \/ exists url, link_ = Return url /\ truthy url = true
                   /\ snd (handler t) = t ++ [toString url] in
  visits (Server.officialLink (carrier req) (code req)) (Server.api_track U b req)
  /\ visits (Part001.officialLink (carrier req) (code req)) (Part001.api_track U b req)
  /\ visits (App.officialLink (carrier req) (code req)) (App.api_track U b req)
  /\ visits (Part000.officialLink (carrier req) (code req)) (Part000.api_track b req).
Proof.
  cbv zeta. split; [apply server_trace|]. split; [apply part001_trace|].
  split; [apply app_trace|apply part000_trace].
Qed.

(** ** The first program of src/app.js *)

Lemma app_officialLink_as_server (s : jsstring) (cd : value) :
  Js.toLowerCase s <> js "deltacargo" ->
  App.officialLink (VString s) cd = Server.officialLink (VString s) cd.
Proof.
  intros H. unfold App.officialLink, Server.officialLink.
  rewrite or_empty_string. cbn [mbind outcome_bind].
  rewrite (bool_decide_eq_false_2 _ H), orb_false_r. reflexivity.
Qed.

Lemma app_officialLink_deltacargo (s : jsstring) (cd : value) :
  Js.toLowerCase s = js "deltacargo" -> App.officialLink (VString s) cd = Return VNull.
Proof.
  intros H. unfold App.officialLink. rewrite or_empty_string.
  cbn [mbind outcome_bind]. rewrite H. vm_compute. reflexivity.
Qed.

(** A link that [officialLink] returns is never the empty string. *)
Lemma app_officialLink_truthy (s : jsstring) (cd : value) (url : jsstring) :
  App.officialLink (VString s) cd = Return (VString url) -> truthy (VString url) = true.
Proof.
  destruct (decide (Js.toLowerCase s = js "deltacargo")) as [Hd|Hd].
  { rewrite (app_officialLink_deltacargo s cd Hd). discriminate. }
  rewrite (app_officialLink_as_server s cd Hd).
  destruct (supported s) eqn:Hs.
  - destruct (decide (Js.toLowerCase s = js "expeditors")) as [Hx|Hx].
    + rewrite (officialLink_expeditors s cd Hx). intros [= <-]. reflexivity.
    + destruct (Js.encode (toString cd)) as [e|] eqn:He.
      * rewrite (officialLink_supported s cd e Hs He). intros [= <-]. apply link_truthy.
      * rewrite (officialLink_malformed s cd Hs Hx He). discriminate.
  - rewrite (officialLink_unsupported s cd Hs). discriminate.
Qed.

Lemma app_officialLink_carrier (s : jsstring) (cd : value) (url : jsstring) :
  App.officialLink (VString s) cd = Return (VString url) -> truthy (VString s) = true.
Proof. destruct s; [vm_compute; discriminate|reflexivity]. Qed.

(** Without the flag, or for a carrier whose id does not hold [fedex], the
    scrape of the first program ends without a page load and leaves the
    details empty: [withPage] throws SCRAPE_DISABLED before a browser is
    started, and the handler catches it. *)
Lemma app_no_scrape (U : bool) (b : browser) (s url : jsstring) (t : list jsstring) :
  U = false \/ Js.includes (Js.toLowerCase s) (js "fedex") = false ->
  try_catch (App.scrapeByCarrier U b (VString s) url) (fun _ => mret []) t
  = (Return [], t).
Proof.
  intros H. unfold App.scrapeByCarrier. rewrite or_empty_string.
  unfold try_catch. rewrite lift_bind.
  destruct (Js.includes (Js.toLowerCase s) (js "fedex")).
  - destruct H as [-> | H]; [reflexivity|discriminate].
  - reflexivity.
Qed.

(** X4: In the first program of src/app.js, with scraping off (its default)
    or for a carrier other than FedEx, a request whose link could be built
    is answered with status 200 and exactly [ok], [carrier], [code] and
    [officialUrl], and no page is loaded. *)
Theorem app_links_without_scraping (U : bool) (b : browser) (s : jsstring) (cd : value)
        (url : jsstring) (t : list jsstring) :
  App.officialLink (VString s) cd = Return (VString url) ->
  truthy cd = true ->
  U = false \/ Js.includes (Js.toLowerCase s) (js "fedex") = false ->
  App.api_track U b (Request (VString s) cd) t
  = (Return (link_only (VString s) cd url), t).
Proof.
  intros Hl Hk HU. unfold App.api_track. cbn [carrier code].
  rewrite (app_officialLink_carrier s cd url Hl), Hk. cbn [negb orb].
  rewrite Hl. unfold try_catch at 1. rewrite lift_bind.
  rewrite (app_officialLink_truthy _ _ _ Hl). cbn [negb toString].
  unfold mbind, io_bind. rewrite (app_no_scrape U b s url t HU).
  cbn [mret io_ret]. rewrite res_json_link_only; [reflexivity| |exact Hk].
  exact (app_officialLink_carrier s cd url Hl).
Qed.

Lemma app_links_without_scraping_witness :
  App.api_track false offline (Request (VString (js "FedEx")) (VString (js "7712 3456"))) []
  = (Return (link_only (VString (js "FedEx")) (VString (js "7712 3456"))
               (js "https://www.fedex.com/fedextrack/?trknbr=7712%203456&cntry_code=mx_esp")),
     []).
Proof.
  exact (app_links_without_scraping false offline (js "FedEx") (VString (js "7712 3456"))
           (js "https://www.fedex.com/fedextrack/?trknbr=7712%203456&cntry_code=mx_esp")
           [] eq_refl eq_refl (or_introl eq_refl)).
Defined.

Lemma app_officialLink_value (cr cd : value) :
  toLowerCase (cr ||| VString []) <> Return (js "deltacargo") ->
  App.officialLink cr cd = Server.officialLink cr cd.
Proof.
  intros H. unfold App.officialLink, Server.officialLink.
  destruct (toLowerCase (cr ||| VString [])) as [c|e]; [|reflexivity].
  cbn [mbind outcome_bind].
  assert (Hc : c <> js "deltacargo") by congruence.
  rewrite (bool_decide_eq_false_2 _ Hc), orb_false_r. reflexivity.
Qed.

(** X5: [officialLink] of the first program of src/app.js gives what that of
    src/server.js gives on every carrier, string or not, except the alias
    [deltacargo] in any letter case, and only there: on that alias it
    returns [null] where src/server.js returns the link or throws. *)
Theorem app_officialLink_agrees_but_for_deltacargo (cr cd : value) :
  App.officialLink cr cd = Server.officialLink cr cd
  <-> toLowerCase (cr ||| VString []) <> Return (js "deltacargo").
Proof.
  split; [|apply app_officialLink_value].
  intros E H. revert E. unfold App.officialLink, Server.officialLink, encodeURIComponent.
  rewrite H. cbn [mbind outcome_bind].
  destruct (Js.encode (toString cd)); vm_compute; discriminate.
Qed.

(** X6: With scraping off, the handlers of src/server.js and of part_001 are
    one function of the request, and so is that of the first program of
    src/app.js for every carrier but the alias [deltacargo]; none of them
    depends on the browser. *)
Theorem handlers_agree_without_scraping (b b' : browser) (req : request)
        (t : list jsstring) :
  Part001.api_track false b req t = Server.api_track false b' req t
  /\ (toLowerCase (carrier req ||| VString []) <> Return (js "deltacargo") ->
      App.api_track false b req t = Server.api_track false b' req t).
Proof.
  split; [reflexivity|]. intros H.
  unfold App.api_track, Server.api_track. rewrite (app_officialLink_value _ _ H).
  unfold try_catch at 1 3.
  destruct (negb (truthy (carrier req)) || negb (truthy (code req))); [reflexivity|].
  destruct (Server.officialLink (carrier req) (code req)) as [url|e]; [|reflexivity].
  rewrite !lift_bind. destruct (negb (truthy url)); [reflexivity|].
  unfold mbind, io_bind.
  replace (try_catch (App.scrapeByCarrier false b (carrier req) (toString url))
                     (fun _ => mret []) t)
    with (Return ([] : object), t); [reflexivity|].
  unfold try_catch, App.scrapeByCarrier.
  destruct (toLowerCase (carrier req ||| VString [])) as [c|e]; [|reflexivity].
  rewrite lift_bind. destruct (Js.includes c (js "fedex")); reflexivity.
Qed.

Lemma handlers_agree_without_scraping_witness :
  App.api_track false offline (Request (VString (js "Delta-Cargo")) (VString (js "006-1"))) []
  = Server.api_track false offline (Request (VString (js "Delta-Cargo")) (VString (js "006-1"))) [].
Proof.
  refine (proj2 (handlers_agree_without_scraping offline offline
                   (Request (VString (js "Delta-Cargo")) (VString (js "006-1"))) []) _).
  vm_compute. discriminate.
Defined.

(** ** Carriers and codes that are not plain strings *)

Lemma lower_unit_stable (d : N) :
  (d < 0x41 \/ 0x5A < d)%N -> (d < 0xC0 \/ 0xDE < d \/ d = 0xD7)%N ->
  d <> 0x130%N -> d <> 0x212A%N -> d <> 0x212B%N ->
  Js.lower_unit d = [d].
Proof.
  intros H1 H2 H3 H4 H5. unfold Js.lower_unit, Js.in_range.
  case_N; cbn [andb negb]; first [reflexivity|lia].
Qed.

(** What lower-casing writes is in lower case. *)
Lemma lower_unit_lower (c d : N) : In d (Js.lower_unit c) -> Js.lower_unit d = [d].
Proof.
  unfold Js.lower_unit at 1, Js.in_range. intros Hin.
  case_N; cbn [andb negb] in Hin; cbn [In] in Hin;
    repeat (destruct Hin as [<-|Hin]; [apply lower_unit_stable; lia|]); destruct Hin.
Qed.

Lemma lower_unit_fixed (c : N) : Js.toLowerCase (Js.lower_unit c) = Js.lower_unit c.
Proof.
  unfold Js.toLowerCase. assert (H := lower_unit_lower c).
  induction (Js.lower_unit c) as [|d l IH]; [reflexivity|].
  cbn [flat_map]. rewrite (H d (or_introl eq_refl)). cbn [app]. f_equal.
  apply IH. intros d' Hd'. apply H. now right.
Qed.

(** Lower-casing twice is lower-casing once. *)
Lemma toLowerCase_fixed (s : jsstring) :
  Js.toLowerCase (Js.toLowerCase s) = Js.toLowerCase s.
Proof.
  unfold Js.toLowerCase. induction s as [|c s IH]; [reflexivity|].
  cbn [flat_map]. rewrite flat_map_app, IH. f_equal. apply lower_unit_fixed.
Qed.

(** X7: The letter case of the carrier does not matter to [officialLink]: a
    carrier gets the answer of its lower-case form, and so two carriers with
    the same lower-case form get the same answer. *)
Theorem officialLink_ignores_letter_case (s1 s2 : jsstring) (cd : value) :
  Js.toLowerCase s1 = Js.toLowerCase s2 ->
  Server.officialLink (VString s1) cd = Server.officialLink (VString s2) cd
  /\ App.officialLink (VString s1) cd = App.officialLink (VString s2) cd
  /\ Part000.officialLink (VString s1) cd = Part000.officialLink (VString s2) cd
  /\ Server.officialLink (VString (Js.toLowerCase s1)) cd
     = Server.officialLink (VString s1) cd
  /\ supported (Js.toLowerCase s1) = supported s2.
Proof.
  intros H. unfold Server.officialLink, App.officialLink, Part000.officialLink, supported.
  rewrite !or_empty_string. cbn [toLowerCase]. rewrite toLowerCase_fixed, H. now repeat split.
Qed.

Lemma officialLink_ignores_letter_case_witness :
  Server.officialLink (VString (js "UPS")) (VString (js "1Z999"))
  = Server.officialLink (VString (js "ups")) (VString (js "1Z999")).
Proof.
  exact (proj1 (officialLink_ignores_letter_case (js "UPS") (js "ups")
                  (VString (js "1Z999")) eq_refl)).
Defined.

(** X8: [officialLink] of part_000 calls [carrier.toLowerCase()] on the carrier
    as it comes and throws a TypeError when it is absent or [null], where
    that of src/server.js returns [null]; the handler of part_000 never calls
    it so, because its guard answers 400 first. *)
Theorem part000_officialLink_needs_a_string (b : browser) (cd : value)
        (t : list jsstring) :
  Forall (fun cr =>
            (exists e, Part000.officialLink cr cd = Throw e /\ name e = "TypeError"%string)
            /\ Server.officialLink cr cd = Return VNull
            /\ Part000.api_track b (Request cr cd) t
               = (Return Server.missing_parameters, t))
         [VUndefined; VNull].
Proof.
  apply List.Forall_cons; [|apply List.Forall_cons; [|apply List.Forall_nil]];
    (split; [eexists; split; reflexivity|split; reflexivity]).
Qed.

(** X9: A carrier that is the JSON value [true] passes the guard of the POST
    handlers and has no [toLowerCase]: the TypeError is caught by the outer
    [try/catch] and the answer is 500, without a page load. *)
Theorem boolean_carrier_is_internal_error (U : bool) (b : browser) (cd : value)
        (t : list jsstring) :
  truthy cd = true ->
  App.api_track U b (Request (VBool true) cd) t = (Return Server.internal_error, t)
  /\ Part000.api_track b (Request (VBool true) cd) t = (Return Server.internal_error, t)
  /\ Server.internal_error
     = Response 500 [("ok", VBool false); ("error", VString (js "Error interno"))]%string.
Proof.
  intros Hk. unfold App.api_track, Part000.api_track. cbn [carrier code truthy].
  rewrite Hk. cbn [negb orb].
  split; [reflexivity|]. split; [reflexivity|]. vm_compute. reflexivity.
Qed.

Lemma boolean_carrier_is_internal_error_witness :
  Part000.api_track offline (Request (VBool true) (VString (js "123"))) []
  = (Return Server.internal_error, []).
Proof.
  exact (proj1 (proj2 (boolean_carrier_is_internal_error false offline
                         (VString (js "123")) [] eq_refl))).
Defined.

(** X10: A code that [encodeURIComponent] rejects (a lone surrogate) makes
    [officialLink] throw for every carrier whose link holds the code; the
    handlers answer 500 and load no page. *)
Theorem malformed_code_is_internal_error (U : bool) (b : browser) (s : jsstring)
        (cd : value) (t : list jsstring) :
  supported s = true -> Js.toLowerCase s <> js "expeditors" ->
  truthy cd = true -> Js.encode (toString cd) = None ->
  Server.api_track U b (Request (VString s) cd) t = (Return Server.internal_error, t)
  /\ Part001.api_track U b (Request (VString s) cd) t = (Return Server.internal_error, t)
  /\ Part000.api_track b (Request (VString s) cd) t = (Return Server.internal_error, t).
Proof.
  intros Hs Hx Hk He.
  unfold Server.api_track, Part001.api_track, Part000.api_track, Part001.officialLink.
  cbn [carrier code]. rewrite (supported_truthy s Hs), Hk. cbn [negb orb].
  rewrite part000_officialLink_string, (officialLink_malformed s cd Hs Hx He).
  repeat split; reflexivity.
Qed.

Lemma malformed_code_is_internal_error_witness :
  Server.api_track true offline (Request (VString (js "dhl")) (VString [0xDC00%N])) []
  = (Return Server.internal_error, []).
Proof.
  refine (proj1 (malformed_code_is_internal_error true offline (js "dhl")
                   (VString [0xDC00%N]) [] eq_refl _ eq_refl eq_refl)).
  vm_compute. discriminate.
Defined.

(** ** The code inside the link *)

Lemma hex_digit_unreserved (n : N) :
  (n < 16)%N -> Js.uri_unreserved (Js.hex_digit n) = true.
Proof.
  intros Hn. unfold Js.hex_digit, Js.uri_unreserved, Js.in_range.
  destruct (N.ltb_spec n 10).
  - rewrite !orb_true_iff. left. right.
    apply andb_true_iff. split; apply N.leb_le; lia.
  - rewrite !orb_true_iff. left. left. left.
    apply andb_true_iff. split; apply N.leb_le; lia.
Qed.

Lemma nibbles (byte : N) :
  (byte < 256)%N -> (N.shiftr byte 4 < 16)%N /\ (N.land byte 0xF < 16)%N.
Proof.
  intros H. split.
  - rewrite N.shiftr_div_pow2. apply N.Div0.div_lt_upper_bound. exact H.
  - change 0xF%N with (N.ones 4). rewrite N.land_ones. now apply N.mod_lt.
Qed.

Lemma url_safe_unreserved (c : N) : Js.uri_unreserved c = true -> url_safe c = true.
Proof. unfold url_safe. now intros ->. Qed.

Lemma pct_safe (byte : N) : (byte < 256)%N -> forallb url_safe (Js.pct byte) = true.
Proof.
  intros [H1 H2]%nibbles. unfold Js.pct. cbn [forallb].
  rewrite (url_safe_unreserved _ (hex_digit_unreserved _ H1)),
          (url_safe_unreserved _ (hex_digit_unreserved _ H2)).
  reflexivity.
Qed.

Lemma lor_lt (a b n : N) : (a < 2 ^ n)%N -> (b < 2 ^ n)%N -> (N.lor a b < 2 ^ n)%N.
Proof.
  intros Ha Hb.
  destruct (N.eq_dec a 0%N) as [->|Ha0]; [now rewrite N.lor_0_l|].
  destruct (N.eq_dec b 0%N) as [->|Hb0]; [now rewrite N.lor_0_r|].
  destruct (N.eq_dec (N.lor a b) 0%N) as [->|Hl]; [lia|].
  apply N.log2_lt_pow2; [lia|]. rewrite N.log2_lor.
  apply N.max_lub_lt; apply N.log2_lt_pow2; lia.
Qed.

Lemma continuation_byte (x : N) : (N.lor 0x80 (N.land x 0x3F) < 256)%N.
Proof.
  apply (lor_lt _ _ 8); [reflexivity|].
  change 0x3F%N with (N.ones 6). rewrite N.land_ones.
  assert (H := N.mod_lt x (2 ^ 6) ltac:(discriminate)).
  change (2 ^ 6)%N with 64%N in *. change (2 ^ 8)%N with 256%N. lia.
Qed.

Lemma leading_byte (tag cp k bound : N) :
  (tag < 256)%N -> (cp < 2 ^ k * 2 ^ bound)%N -> (bound <= 8)%N ->
  (N.lor tag (N.shiftr cp k) < 256)%N.
Proof.
  intros Ht Hc Hb. apply (lor_lt _ _ 8); [exact Ht|].
  rewrite N.shiftr_div_pow2.
  apply N.lt_le_trans with (2 ^ bound)%N.
  - now apply N.Div0.div_lt_upper_bound.
  - apply N.pow_le_mono_r; [discriminate|exact Hb].
Qed.

Lemma utf8_bytes (cp : N) :
  (cp < 0x200000)%N -> Forall (fun x => x < 256)%N (Js.utf8 cp).
Proof.
  intros H. unfold Js.utf8.
  destruct (N.ltb_spec cp 0x80); [repeat constructor; lia|].
  destruct (N.ltb_spec cp 0x800).
  { repeat constructor; [|apply continuation_byte].
    apply (leading_byte _ _ 6 5); [reflexivity| |discriminate].
    change (2 ^ 6 * 2 ^ 5)%N with 0x800%N. lia. }
  destruct (N.ltb_spec cp 0x10000).
  { repeat constructor; try apply continuation_byte.
    apply (leading_byte _ _ 12 4); [reflexivity| |discriminate].
    change (2 ^ 12 * 2 ^ 4)%N with 0x10000%N. lia. }
  repeat constructor; try apply continuation_byte.
  apply (leading_byte _ _ 18 3); [reflexivity| |discriminate].
  change (2 ^ 18 * 2 ^ 3)%N with 0x200000%N. lia.
Qed.

Lemma escapes_safe (l : list N) :
  Forall (fun x => x < 256)%N l -> forallb url_safe (flat_map Js.pct l) = true.
Proof.
  induction 1 as [|x l Hx _ IH]; [reflexivity|].
  cbn [flat_map]. rewrite forallb_app, IH, pct_safe by exact Hx. reflexivity.
Qed.

Lemma surrogate_bounds (c : N) :
  (Js.is_high_surrogate c = true -> 0xD800 <= c <= 0xDBFF)%N
  /\ (Js.is_low_surrogate c = true -> 0xDC00 <= c <= 0xDFFF)%N.
Proof.
  unfold Js.is_high_surrogate, Js.is_low_surrogate, Js.in_range.
  split; intros [H1%N.leb_le H2%N.leb_le]%andb_true_iff; lia.
Qed.

(** What [encodeURIComponent] returns is made of unreserved characters and
    per cent signs only. *)
Lemma encode_safe (s e : jsstring) :
  utf16 s = true -> Js.encode s = Some e -> forallb url_safe e = true.
Proof.
  remember (length s) as n eqn:Hn. revert s e Hn.
  induction n as [n IH] using lt_wf_ind. intros s e Hn Hu He.
  destruct s as [|c t]; [cbn in He; now injection He as <-|].
  cbn [utf16 forallb] in Hu. apply andb_true_iff in Hu as [Hc Ht]. apply N.ltb_lt in Hc.
  cbn [Js.encode] in He. cbn [length] in Hn.
  destruct (Js.uri_unreserved c) eqn:Hun.
  { destruct (Js.encode t) as [e'|] eqn:Et; [|discriminate]. cbn in He.
    injection He as <-. cbn [forallb].
    rewrite (url_safe_unreserved c Hun), (IH (length t) ltac:(lia) t e' eq_refl Ht Et).
    reflexivity. }
  destruct (Js.is_low_surrogate c); [discriminate|].
  destruct (Js.is_high_surrogate c) eqn:Hh.
  - destruct t as [|d t']; [discriminate|].
    destruct (Js.is_low_surrogate d) eqn:Hl; [|discriminate].
    cbn [forallb] in Ht. apply andb_true_iff in Ht as [_ Ht'].
    destruct (Js.encode t') as [e'|] eqn:Et; [|discriminate]. cbn in He.
    injection He as <-. rewrite forallb_app. cbn [length] in Hn.
    rewrite (IH (length t') ltac:(lia) t' e' eq_refl Ht' Et), andb_true_r.
    apply escapes_safe, utf8_bytes.
    apply (proj1 (surrogate_bounds c)) in Hh. apply (proj2 (surrogate_bounds d)) in Hl. lia.
  - destruct (Js.encode t) as [e'|] eqn:Et; [|discriminate]. cbn in He.
    injection He as <-. rewrite forallb_app.
    rewrite (IH (length t) ltac:(lia) t e' eq_refl Ht Et), andb_true_r.
    apply escapes_safe, utf8_bytes. lia.
Qed.

(** A string of unreserved characters is its own encoding. *)
Lemma encode_plain (s : jsstring) :
  forallb Js.uri_unreserved s = true -> Js.encode s = Some s.
Proof.
  induction s as [|c t IH]; [reflexivity|]. cbn [forallb Js.encode].
  intros [-> Ht]%andb_true_iff. now rewrite (IH Ht).
Qed.

Lemma url_safe_not_delimiter (c : N) : url_safe c = true -> ~ In c url_delimiters.
Proof.
  intros Hc Hin. revert Hc.
  change url_delimiters with [38; 61; 63; 35; 47; 58; 59; 43; 44; 32]%N in Hin.
  cbn [In] in Hin.
  repeat (destruct Hin as [<-|Hin]; [vm_compute; discriminate|]). destruct Hin.
Qed.

(** X11: Whatever the code, it stays inside its place in the official URL:
    for a supported carrier other than Expeditors the link is the fixed
    address of the carrier around the code as [encodeURIComponent] encodes
    it, and that encoding holds only unreserved characters and per cent
    signs, so none of the delimiters of a URL.  For Expeditors the link is
    the landing page, whatever the code. *)
Theorem code_stays_in_its_parameter (s : jsstring) (cd : value) (url : value) :
  utf16 (toString cd) = true ->
  supported s = true ->
  Server.officialLink (VString s) cd = Return url ->
  if bool_decide (Js.toLowerCase s = js "expeditors")
  then url = VString (js "https://www.expeditors.com/tracking")
  else exists e, Js.encode (toString cd) = Some e
                 /\ url = VString (link (Js.toLowerCase s) e)
                 /\ Js.includes (link (Js.toLowerCase s) e) e = true
                 /\ forallb url_safe e = true
                 /\ (forall c, In c e -> ~ In c url_delimiters).
Proof.
  intros Hu Hs Hl. case_bool_decide as Hx.
  - rewrite (officialLink_expeditors s cd Hx) in Hl. now injection Hl as <-.
  - destruct (Js.encode (toString cd)) as [e|] eqn:He.
    + rewrite (officialLink_supported s cd e Hs He) in Hl. injection Hl as <-.
      exists e. split; [reflexivity|]. split; [reflexivity|].
      split; [now apply link_includes_code|].
      split; [exact (encode_safe _ _ Hu He)|].
      intros c Hc. apply url_safe_not_delimiter.
      assert (H := encode_safe _ _ Hu He). rewrite forallb_forall in H. now apply H.
    + rewrite (officialLink_malformed s cd Hs Hx He) in Hl. discriminate.
Qed.

Lemma code_stays_in_its_parameter_witness :
  exists e, Js.encode (js "1&2=3 ñ") = Some e
            /\ VString (js "https://www.fedex.com/fedextrack/?trknbr=1%262%3D3%20%C3%B1&cntry_code=mx_esp")
               = VString (link (Js.toLowerCase (js "FedEx")) e)
            /\ Js.includes (link (Js.toLowerCase (js "FedEx")) e) e = true
            /\ forallb url_safe e = true
            /\ (forall c, In c e -> ~ In c url_delimiters).
Proof.
  assert (H := code_stays_in_its_parameter (js "FedEx") (VString (js "1&2=3 ñ"))
                 (VString (js "https://www.fedex.com/fedextrack/?trknbr=1%262%3D3%20%C3%B1&cntry_code=mx_esp"))
                 eq_refl eq_refl eq_refl).
  rewrite bool_decide_eq_false_2 in H by (vm_compute; discriminate). exact H.
Defined.

(** X12: A code made of letters, digits and [- _ . ! ~ * ' ( )] goes into the
    link as it is. *)
Theorem plain_code_is_linked_verbatim (s code : jsstring) :
  supported s = true -> forallb Js.uri_unreserved code = true ->
  Server.officialLink (VString s) (VString code)
  = Return (VString (link (Js.toLowerCase s) code))
  /\ Part000.officialLink (VString s) (VString code)
     = Return (VString (link (Js.toLowerCase s) code)).
Proof.
  intros Hs Hc. rewrite part000_officialLink_string.
  now rewrite (officialLink_supported s (VString code) code Hs (encode_plain code Hc)).
Qed.

Lemma plain_code_is_linked_verbatim_witness :
  Server.officialLink (VString (js "UPS")) (VString (js "1Z999AA10123456784"))
  = Return (VString (js "https://www.ups.com/track?loc=es_MX&tracknum=1Z999AA10123456784&requester=ST/")).
Proof.
  exact (proj1 (plain_code_is_linked_verbatim (js "UPS") (js "1Z999AA10123456784")
                  eq_refl eq_refl)).
Defined.

(** ** The cached tracker (src/app.js, second program) *)

Lemma scrapers_known (cr : jsstring) :
  cr ∈ legacy_ids -> is_Some (AppCache.scrapers !! cr).
Proof.
  unfold legacy_ids. rewrite !elem_of_cons, elem_of_nil.
  unfold AppCache.scrapers.
  intros [->|[->|[->|[->|[->|[]]]]]];
    repeat (rewrite lookup_insert_ne by (vm_compute; discriminate));
    first [rewrite lookup_insert_eq|rewrite lookup_singleton_eq]; eauto.
Qed.

Lemma scrapers_unknown (cr : jsstring) :
  cr ∉ legacy_ids -> AppCache.scrapers !! cr = None.
Proof.
  unfold legacy_ids. rewrite !not_elem_of_cons. intros (H1 & H2 & H3 & H4 & H5 & _).
  unfold AppCache.scrapers.
  rewrite !lookup_insert_ne by congruence. apply lookup_singleton_ne. congruence.
Qed.

Lemma truthy_nonempty (s : jsstring) : s <> [] -> truthy (VString s) = true.
Proof. now destruct s. Qed.

Lemma get_set_eq (k : string) (v : value) (o : object) : get k (set k v o) = Some v.
Proof.
  unfold get. induction o as [|[k' v'] o IH]; cbn [set List.find fst].
  - now rewrite String.eqb_refl.
  - destruct (String.eqb k' k) eqn:E; cbn [List.find fst]; [now rewrite String.eqb_refl|].
    now rewrite E.
Qed.

Lemma get_json (k : string) (v : value) (o : object) :
  get k o = Some v -> v <> VUndefined -> get k (json o) = Some v.
Proof.
  unfold get, json. intros H Hv. induction o as [|[k' v'] o IH]; [discriminate|].
  cbn [List.find fst] in H. cbn [List.filter snd].
  destruct (String.eqb k' k) eqn:E.
  - cbn in H. injection H as ->. rewrite bool_decide_eq_false_2 by exact Hv.
    cbn [negb List.find fst]. now rewrite E.
  - destruct (negb (bool_decide (v' = VUndefined))); cbn [List.find fst]; rewrite ?E; auto.
Qed.

Lemma tracked_flag (cr tn : jsstring) (result : object) (cached : bool) :
  status (tracked cr tn result cached) = 200
  /\ get "cached" (body (tracked cr tn result cached)) = Some (VBool cached).
Proof.
  split; [reflexivity|]. unfold tracked, res_json. cbn [body].
  apply get_json; [|discriminate]. unfold spread at 1. cbn [fold_left fst snd].
  apply get_set_eq.
Qed.

Lemma getFromCache_hit (now : Z) (key : jsstring) (c : gmap jsstring AppCache.entry)
      (e : AppCache.entry) :
  c !! key = Some e -> (now < AppCache.expires e)%Z ->
  AppCache.getFromCache now key c = (Some (AppCache.value_ e), c).
Proof.
  intros H Hn. unfold AppCache.getFromCache. rewrite H.
  now rewrite (proj2 (Z.ltb_lt _ _) Hn).
Qed.

(** After a read that missed, the key is not in the cache and the other
    keys are as before. *)
Lemma getFromCache_miss (now : Z) (key : jsstring) (c : gmap jsstring AppCache.entry) :
  fst (AppCache.getFromCache now key c) = None ->
  snd (AppCache.getFromCache now key c) !! key = None
  /\ forall k, k <> key -> snd (AppCache.getFromCache now key c) !! k = c !! k.
Proof.
  unfold AppCache.getFromCache. destruct (c !! key) as [e|] eqn:E.
  - destruct (now <? AppCache.expires e)%Z; [discriminate|]. intros _. cbn [snd].
    split; [apply lookup_delete_eq|]. intros k Hk. now apply lookup_delete_ne.
  - intros _. cbn [snd]. now split.
Qed.

Lemma track_supported (b : browser) (now later : Z) (req : AppCache.track_request)
      (c : gmap jsstring AppCache.entry) :
  AppCache.param_carrier req ∈ legacy_ids ->
  AppCache.trackingNumber_of req <> [] ->
  exists scraper,
    AppCache.scrapers !! AppCache.param_carrier req = Some scraper
    /\ AppCache.track b now later req c
       = (let cacheKey := request_key req in
          let '(cached, c) := AppCache.getFromCache now cacheKey c in
          match cached with
          | Some cached =>
            mret (tracked (AppCache.param_carrier req) (AppCache.trackingNumber_of req)
                          cached true, c)
          | None =>
            try_catch
              (result ← scraper b (AppCache.trackingNumber_of req);
               mret (tracked (AppCache.param_carrier req) (AppCache.trackingNumber_of req)
                             result false,
                     AppCache.setInCache later cacheKey result c))
              (fun err =>
                 mret (res_status_json 500
                         [("error", VString (message err)
                                    ||| VString (js "Tracking failed"))]%string, c))
          end).
Proof.
  intros [scraper Hs]%scrapers_known Hn. exists scraper. split; [exact Hs|].
  unfold AppCache.track. rewrite Hs, (truthy_nonempty _ Hn). reflexivity.
Qed.

(** X13: A request whose key is in the cache and has not expired is answered
    from the cache: the stored fields with [cached: true], no use of the
    browser, and the cache as it was. *)
Theorem cache_hit_needs_no_browser (b : browser) (now later : Z)
        (req : AppCache.track_request) (c : gmap jsstring AppCache.entry)
        (e : AppCache.entry) (t : list jsstring) :
  AppCache.param_carrier req ∈ legacy_ids ->
  AppCache.trackingNumber_of req <> [] ->
  c !! request_key req = Some e -> (now < AppCache.expires e)%Z ->
  AppCache.track b now later req c t
  = (Return (tracked (AppCache.param_carrier req) (AppCache.trackingNumber_of req)
                     (AppCache.value_ e) true, c), t)
  /\ get "cached" (body (tracked (AppCache.param_carrier req)
                                 (AppCache.trackingNumber_of req)
                                 (AppCache.value_ e) true)) = Some (VBool true).
Proof.
  intros Hc Hn He Hnow. split; [|apply tracked_flag].
  destruct (track_supported b now later req c Hc Hn) as (scraper & _ & ->).
  cbv zeta. now rewrite (getFromCache_hit now _ c e He Hnow).
Qed.

Lemma cache_hit_needs_no_browser_witness :
  AppCache.track offline 1000 1000
    (AppCache.TrackRequest (js "ups") (VString (js " 1Z999 ")))
    {[ js "ups:1Z999" := AppCache.Entry [("latest_status", VString (js "Delivered"))]%string
                                        2000%Z ]} []
  = (Return (Response 200 [("carrier", VString (js "ups"));
                           ("trackingNumber", VString (js "1Z999"));
                           ("latest_status", VString (js "Delivered"));
                           ("cached", VBool true)]%string,
             {[ js "ups:1Z999" := AppCache.Entry
                                    [("latest_status", VString (js "Delivered"))]%string
                                    2000%Z ]}), []).
Proof.
  refine (proj1 (cache_hit_needs_no_browser offline 1000 1000
            (AppCache.TrackRequest (js "ups") (VString (js " 1Z999 ")))
            {[ js "ups:1Z999" := AppCache.Entry
                                   [("latest_status", VString (js "Delivered"))]%string
                                   2000%Z ]}
            (AppCache.Entry [("latest_status", VString (js "Delivered"))]%string 2000%Z)
            [] _ _ _ _)).
  - unfold legacy_ids. do 2 apply list_elem_of_further. apply list_elem_of_here.
  - vm_compute. discriminate.
  - vm_compute. reflexivity.
  - reflexivity.
Defined.

Lemma failure_json (n : nat) (msg : jsstring) :
  res_status_json n [("error", VString msg ||| VString (js "Tracking failed"))]%string
  = failure n (if truthy (VString msg) then msg else js "Tracking failed").
Proof. destruct msg; reflexivity. Qed.

(** X14: When the scraper throws on a miss, the answer is 500 with the message
    of the error (or [Tracking failed] when it has none), and nothing is
    stored: the key is absent from the cache afterwards and the other
    entries are untouched. *)
Theorem failed_scrape_is_not_cached (b : browser) (now later : Z)
        (req : AppCache.track_request) (c : gmap jsstring AppCache.entry)
        (scraper : browser -> jsstring -> io object) (err : exn)
        (t t1 : list jsstring) :
  AppCache.scrapers !! AppCache.param_carrier req = Some scraper ->
  AppCache.trackingNumber_of req <> [] ->
  fst (AppCache.getFromCache now (request_key req) c) = None ->
  scraper b (AppCache.trackingNumber_of req) t = (Throw err, t1) ->
  exists c',
    AppCache.track b now later req c t
    = (Return (failure 500 (if truthy (VString (message err)) then message err
                            else js "Tracking failed"), c'), t1)
    /\ c' !! request_key req = None
    /\ forall k, k <> request_key req -> c' !! k = c !! k.
Proof.
  intros Hs Hn Hmiss Hthrow.
  exists (snd (AppCache.getFromCache now (request_key req) c)).
  split; [|now apply getFromCache_miss].
  unfold AppCache.track. rewrite Hs, (truthy_nonempty _ Hn). cbn [negb].
  fold (request_key req).
  destruct (AppCache.getFromCache now (request_key req) c) as [cached c'].
  cbn [fst snd] in *. subst cached.
  unfold try_catch, mbind, io_bind. rewrite Hthrow. cbn [mret io_ret].
  now rewrite failure_json.
Qed.

Lemma failed_scrape_is_not_cached_witness :
  exists c',
    AppCache.track offline 0 0 (AppCache.TrackRequest (js "dhl") (VString (js "17"))) ∅ []
    = (Return (failure 500 (js "Timeout 45000ms exceeded"), c'),
       [js "https://www.dhl.com/mx-es/home/rastreo.html"])
    /\ c' !! js "dhl:17" = None.
Proof.
  destruct (failed_scrape_is_not_cached offline 0 0
              (AppCache.TrackRequest (js "dhl") (VString (js "17"))) ∅
              AppCache.scrapeDHL (Exn "TimeoutError" (js "Timeout 45000ms exceeded"))
              [] [js "https://www.dhl.com/mx-es/home/rastreo.html"])
    as (c' & H1 & H2 & _).
  - unfold AppCache.scrapers. apply lookup_insert_eq.
  - vm_compute. discriminate.
  - vm_compute. reflexivity.
  - vm_compute. reflexivity.
  - exists c'. split; [|exact H2]. rewrite H1. vm_compute. reflexivity.
Defined.

(** X15: A carrier that is not a key of [scrapers], nor a name that the object
    inherits, is answered with 404 whatever the number, even a missing one;
    the ids are compared as they come, so [DHL] in capitals is not known.
    Neither the cache nor the browser is used. *)
Theorem unknown_carrier_is_not_found (b : browser) (now later : Z) (cr : jsstring)
        (n : value) (c : gmap jsstring AppCache.entry) (t : list jsstring) :
  cr ∉ legacy_ids -> cr ∉ object_prototype_names ->
  AppCache.track b now later (AppCache.TrackRequest cr n) c t
  = (Return (failure 404 (js "Unsupported carrier '" ++ cr ++ js "'"), c), t).
Proof.
  intros Hc _. unfold AppCache.track. cbn [AppCache.param_carrier].
  now rewrite (scrapers_unknown cr Hc).
Qed.

Lemma unknown_carrier_is_not_found_witness :
  AppCache.track offline 0 0 (AppCache.TrackRequest (js "DHL") VUndefined) ∅ []
  = (Return (failure 404 (js "Unsupported carrier 'DHL'"), ∅), []).
Proof.
  refine (unknown_carrier_is_not_found offline 0 0 (js "DHL") VUndefined ∅ [] _ _).
  - unfold legacy_ids. rewrite !not_elem_of_cons.
    repeat split; try (vm_compute; discriminate). apply not_elem_of_nil.
  - unfold object_prototype_names. cbn [List.map]. rewrite !not_elem_of_cons.
    repeat split; try (vm_compute; discriminate). apply not_elem_of_nil.
Defined.

Lemma trim_blank (s : jsstring) : forallb Js.is_space s = true -> Js.trim s = [].
Proof. intros H. unfold Js.trim. now rewrite (trimStart_spaces s H). Qed.

(** X16: For a known carrier, a number that is absent, [null], empty or made of
    white space only is answered with 400; neither the cache nor the
    browser is used. *)
Theorem blank_number_is_client_error (b : browser) (now later : Z) (cr : jsstring)
        (n : value) (c : gmap jsstring AppCache.entry) (t : list jsstring) :
  cr ∈ legacy_ids ->
  n = VUndefined \/ n = VNull \/ (exists s, n = VString s /\ forallb Js.is_space s = true) ->
  AppCache.track b now later (AppCache.TrackRequest cr n) c t
  = (Return (failure 400 (js "Missing " ++ [34%N] ++ js "number" ++ [34%N]
                            ++ js " query parameter"), c), t).
Proof.
  intros [scraper Hs]%scrapers_known Hn. unfold AppCache.track.
  cbn [AppCache.param_carrier]. rewrite Hs.
  assert (E : AppCache.trackingNumber_of (AppCache.TrackRequest cr n) = []).
  { unfold AppCache.trackingNumber_of. cbn [AppCache.query_number].
    destruct Hn as [-> | [-> | (s & -> & Hb)]]; [reflexivity|reflexivity|].
    rewrite toString_or_empty. now apply trim_blank. }
  rewrite E. reflexivity.
Qed.

Lemma blank_number_is_client_error_witness :
  AppCache.track offline 0 0 (AppCache.TrackRequest (js "fedex") (VString (js "   "))) ∅ []
  = (Return (failure 400 (js "Missing " ++ [34%N] ++ js "number" ++ [34%N]
                            ++ js " query parameter"), ∅), []).
Proof.
  refine (blank_number_is_client_error offline 0 0 (js "fedex") (VString (js "   ")) ∅ []
            _ (or_intror (or_intror (ex_intro _ (js "   ") (conj eq_refl eq_refl))))).
  unfold legacy_ids. apply list_elem_of_further. apply list_elem_of_here.
Defined.

(** X17: The entries of the cache do not disturb one another: reading or
    storing one key leaves what is stored under every other key, and what a
    read of it returns. *)
Theorem cache_keys_are_independent (now later : Z) (k k' : jsstring) (v : object)
        (c : gmap jsstring AppCache.entry) :
  k <> k' ->
  snd (AppCache.getFromCache now k c) !! k' = c !! k'
  /\ AppCache.setInCache now k v c !! k' = c !! k'
  /\ fst (AppCache.getFromCache later k' (AppCache.setInCache now k v c))
     = fst (AppCache.getFromCache later k' c)
  /\ fst (AppCache.getFromCache later k' (snd (AppCache.getFromCache now k c)))
     = fst (AppCache.getFromCache later k' c).
Proof.
  intros Hk.
  assert (A : snd (AppCache.getFromCache now k c) !! k' = c !! k').
  { unfold AppCache.getFromCache. destruct (c !! k) as [e|]; [|reflexivity].
    destruct (now <? AppCache.expires e)%Z; [reflexivity|]. cbn [snd].
    now apply lookup_delete_ne. }
  assert (B : AppCache.setInCache now k v c !! k' = c !! k').
  { unfold AppCache.setInCache. now apply lookup_insert_ne. }
  assert (E : forall c1 c2 : gmap jsstring AppCache.entry,
             c1 !! k' = c2 !! k' ->
             fst (AppCache.getFromCache later k' c1) = fst (AppCache.getFromCache later k' c2)).
  { intros c1 c2 H. unfold AppCache.getFromCache. rewrite H.
    destruct (c2 !! k') as [e|]; [|reflexivity].
    destruct (later <? AppCache.expires e)%Z; reflexivity. }
  split; [exact A|]. split; [exact B|]. split; apply E; assumption.
Qed.

Lemma cache_keys_are_independent_witness :
  AppCache.setInCache 5 (js "dhl:1") [] ∅ !! js "dhl:2" = None.
Proof.
  refine (proj1 (proj2 (cache_keys_are_independent 5 6 (js "dhl:1") (js "dhl:2") [] ∅ _))).
  vm_compute. discriminate.
Defined.

(** X18: A request that misses and whose scrape succeeds is answered with the
    result and [cached: false] and stores it; the same request made again
    before ten minutes have passed since the store is answered with the
    same fields and [cached: true], without the browser and without a change
    to the cache. *)
Theorem repeated_request_is_served_from_cache (b : browser) (now later now2 later2 : Z)
        (req : AppCache.track_request) (c : gmap jsstring AppCache.entry)
        (scraper : browser -> jsstring -> io object) (result : object)
        (t t1 : list jsstring) :
  AppCache.scrapers !! AppCache.param_carrier req = Some scraper ->
  AppCache.trackingNumber_of req <> [] ->
  fst (AppCache.getFromCache now (request_key req) c) = None ->
  scraper b (AppCache.trackingNumber_of req) t = (Return result, t1) ->
  (now2 < later + 10 * 60 * 1000)%Z ->
  exists c1,
    AppCache.track b now later req c t
    = (Return (tracked (AppCache.param_carrier req) (AppCache.trackingNumber_of req)
                       result false, c1), t1)
    /\ AppCache.track b now2 later2 req c1 t1
       = (Return (tracked (AppCache.param_carrier req) (AppCache.trackingNumber_of req)
                          result true, c1), t1).
Proof.
  intros Hs Hn Hmiss Hret Hnow.
  exists (AppCache.setInCache later (request_key req) result
            (snd (AppCache.getFromCache now (request_key req) c))).
  split.
  - unfold AppCache.track. rewrite Hs, (truthy_nonempty _ Hn). cbn [negb].
    fold (request_key req).
    destruct (AppCache.getFromCache now (request_key req) c) as [cached c'].
    cbn [fst snd] in *. subst cached.
    unfold try_catch, mbind, io_bind. rewrite Hret. reflexivity.
  - unfold AppCache.track. rewrite Hs, (truthy_nonempty _ Hn). cbn [negb].
    fold (request_key req).
    rewrite (getFromCache_hit now2 _ _ (AppCache.Entry result (later + AppCache.CACHE_TTL_MS))).
    + reflexivity.
    + unfold AppCache.setInCache. apply lookup_insert_eq.
    + exact Hnow.
Qed.

Lemma repeated_request_is_served_from_cache_witness :
  exists c1,
    AppCache.track (Browser (fun _ => Throw URIError)
                            (fun _ _ => Return (VString (js "Status: Delivered"))))
                   0 7000 (AppCache.TrackRequest (js "ups") (VString (js "1Z"))) ∅ []
    = (Return (tracked (js "ups") (js "1Z")
                       [("latest_status", VString (js "Delivered"));
                        ("latest_date", VNull)]%string false, c1),
       [js "https://es-us.ups.com/track?loc=es_US&requester=ST/"])
    /\ AppCache.track (Browser (fun _ => Throw URIError)
                               (fun _ _ => Return (VString (js "Status: Delivered"))))
                      600000 600000
                      (AppCache.TrackRequest (js "ups") (VString (js "1Z"))) c1
                      [js "https://es-us.ups.com/track?loc=es_US&requester=ST/"]
       = (Return (tracked (js "ups") (js "1Z")
                          [("latest_status", VString (js "Delivered"));
                           ("latest_date", VNull)]%string true, c1),
          [js "https://es-us.ups.com/track?loc=es_US&requester=ST/"]).
Proof.
  refine (repeated_request_is_served_from_cache
            (Browser (fun _ => Throw URIError)
                     (fun _ _ => Return (VString (js "Status: Delivered"))))
            0 7000 600000 600000
            (AppCache.TrackRequest (js "ups") (VString (js "1Z"))) ∅ AppCache.scrapeUPS
            [("latest_status", VString (js "Delivered")); ("latest_date", VNull)]%string
            [] [js "https://es-us.ups.com/track?loc=es_US&requester=ST/"]
            _ _ eq_refl _ eq_refl).
  - unfold AppCache.scrapers. rewrite !lookup_insert_ne by (vm_compute; discriminate).
    apply lookup_insert_eq.
  - vm_compute. discriminate.
  - vm_compute. reflexivity.
Defined.

(** ** What the form-filling scrapers read off a page *)

Lemma upper_backspace (c : N) : RegExp.upper_unit c = 8%N -> c = 8%N.
Proof.
  unfold RegExp.upper_unit, Js.in_range. intros H.
  case_N; cbn in *; lia.
Qed.

Lemma run_chr_mismatch (ic : bool) (c : N) (r : RegExp.regex) (st : RegExp.mstate) :
  match RegExp.rest st with
  | d :: _ => RegExp.canon ic c <> RegExp.canon ic d
  | [] => True
  end ->
  RegExp.run ic (RegExp.Seq (RegExp.Chr c) r) st = [].
Proof.
  cbn [RegExp.run]. destruct (RegExp.rest st) as [|d t]; [reflexivity|].
  intros H. now rewrite (proj2 (N.eqb_neq _ _) H).
Qed.

(** A pattern that begins with a character has no match in a text without
    that character. *)
Lemma exec_from_chr_absent (ic : bool) (c : N) (r : RegExp.regex) (s : jsstring)
      (p : option N) (i : nat) :
  Forall (fun d => RegExp.canon ic c <> RegExp.canon ic d) s ->
  RegExp.exec_from (RegExp.RegExp (RegExp.Seq (RegExp.Chr c) r) ic) p s i = None.
Proof.
  intros H. revert p i. induction H as [|d s Hd _ IH]; intros p i.
  - cbn [RegExp.exec_from]. unfold RegExp.match_at. cbn [RegExp.pattern RegExp.ignoreCase].
    now rewrite run_chr_mismatch.
  - cbn [RegExp.exec_from]. unfold RegExp.match_at. cbn [RegExp.pattern RegExp.ignoreCase].
    rewrite run_chr_mismatch by exact Hd. cbn [head]. apply IH.
Qed.

(** The pattern that [extractDate] builds begins with the backspace that
    [\b] is in a template literal. *)
Lemma dateRegex_begins_with_backspace :
  exists r, AppCache.new_RegExp AppCache.dateRegex_source "i"
            = RegExp.RegExp (RegExp.Seq (RegExp.Chr 8) r) true.
Proof. eexists. vm_compute. reflexivity. Qed.

(** X19: [extractDate] finds no date in a text that holds no backspace (U+0008),
    so in no text a page shows: its pattern is built from a template
    literal, in which [\b] is that control character and [\d] and [\s] are
    the letters d and s.  A text of those letters between two backspaces is
    what it does match. *)
Theorem extractDate_needs_a_backspace (text : jsstring) :
  ~ In 8%N text ->
  AppCache.extractDate text = VNull
  /\ AppCache.extractDate ([8%N] ++ js "ddssAgostosdddd" ++ [8%N])
     = VString ([8%N] ++ js "ddssAgostosdddd" ++ [8%N]).
Proof.
  intros H. destruct dateRegex_begins_with_backspace as (r & E).
  split; [|vm_compute; reflexivity].
  unfold AppCache.extractDate. rewrite E. unfold RegExp.exec.
  rewrite exec_from_chr_absent; [reflexivity|].
  apply List.Forall_forall. intros d Hd Hc.
  cbn [RegExp.canon] in Hc. change (RegExp.upper_unit 8) with 8%N in Hc.
  symmetry in Hc. apply upper_backspace in Hc. subst d. exact (H Hd).
Qed.

Lemma extractDate_needs_a_backspace_witness :
  AppCache.extractDate (js "Entregado el 26 Agosto 2025 a las 10:32") = VNull.
Proof.
  refine (proj1 (extractDate_needs_a_backspace
                   (js "Entregado el 26 Agosto 2025 a las 10:32") _)).
  vm_compute. intros H. repeat (destruct H as [H|H]; [discriminate|]). exact H.
Defined.

Lemma prefix_ci_same (ic : bool) (w1 w2 s : jsstring) :
  List.map (RegExp.canon ic) w1 = List.map (RegExp.canon ic) w2 ->
  prefix_ci ic w1 s = prefix_ci ic w2 s.
Proof.
  revert w2 s. induction w1 as [|a w1 IH]; intros [|b w2] s; try discriminate;
    [reflexivity|].
  cbn [List.map]. intros [= Hab H]. destruct s as [|c s]; [reflexivity|].
  cbn [prefix_ci]. now rewrite Hab, (IH w2 s H).
Qed.

(** Two words that the [i] flag does not tell apart occur in the same
    texts. *)
Lemma occurs_same (ic : bool) (w1 w2 s : jsstring) :
  List.map (RegExp.canon ic) w1 = List.map (RegExp.canon ic) w2 ->
  occurs ic w1 s = occurs ic w2 s.
Proof.
  intros H. induction s as [|c s IH]; cbn [occurs]; rewrite (prefix_ci_same ic w1 w2 _ H);
    [reflexivity|now rewrite IH].
Qed.

Lemma statuses_truthy : Forall (fun w => truthy (VString w) = true) AppCache.statuses.
Proof. unfold AppCache.statuses. cbn [List.map]. repeat constructor. Qed.

Lemma extractStatus_find (text : jsstring) :
  AppCache.extractStatus text
  = match List.find (fun w => occurs true w text) AppCache.statuses with
    | Some w => VString w
    | None => VNull
    end.
Proof. apply extractStatus_loop_spec, appcache_status_regexps. Qed.

(** X20: Two entries of the list of [extractStatus] are never returned: every
    pattern is tried with the [i] flag, so [In Transit] and [En Camino],
    which stand earlier in the list, match wherever [In transit] and
    [En camino] would. *)
Theorem extractStatus_shadowed_keywords (text : jsstring) :
  In (js "In transit") AppCache.statuses
  /\ In (js "En camino") AppCache.statuses
  /\ AppCache.extractStatus text <> VString (js "In transit")
  /\ AppCache.extractStatus text <> VString (js "En camino").
Proof.
  split; [vm_compute; do 3 right; left; reflexivity|].
  split; [vm_compute; do 13 right; left; reflexivity|].
  rewrite extractStatus_find. unfold AppCache.statuses. cbn [List.map List.find].
  rewrite (occurs_same true (js "In transit") (js "In Transit") text eq_refl).
  rewrite (occurs_same true (js "En camino") (js "En Camino") text eq_refl).
  repeat match goal with
         | |- context [occurs true ?w text] => destruct (occurs true w text)
         end;
    split; intros [= E]; revert E; vm_compute; discriminate.
Qed.

(** X21: The result of a scraper of the second program always has both fields:
    [latest_status] is a keyword of the list of [extractStatus], or
    [Unknown] when none occurs, never [null] or empty; [latest_date] is what
    [extractDate] returns, a string or [null].  The browser was sent to the
    site of the carrier once. *)
Theorem scrape_result_shape (site : jsstring) (b : browser) (tn : jsstring)
        (body : value) (t : list jsstring) :
  submit b site tn = Return body ->
  let text := toString (body ||| VString []) in
  exists st,
    AppCache.scrape_site site b tn t
    = (Return [("latest_status", VString st);
               ("latest_date", AppCache.extractDate text)]%string, t ++ [site])
    /\ st <> []
    /\ (In st AppCache.statuses /\ occurs true st text = true
        \/ st = js "Unknown"
           /\ Forall (fun w => occurs true w text = false) AppCache.statuses)
    /\ (AppCache.extractDate text = VNull \/ exists d, AppCache.extractDate text = VString d).
Proof.
  intros Hb. cbv zeta.
  assert (D : AppCache.extractDate (toString (body ||| VString [])) = VNull
              \/ exists d, AppCache.extractDate (toString (body ||| VString [])) = VString d).
  { unfold AppCache.extractDate. destruct (RegExp.exec _ _); eauto. }
  unfold AppCache.scrape_site, mbind, io_bind, fill_and_read. rewrite Hb.
  rewrite extractStatus_find.
  destruct (List.find _ AppCache.statuses) as [w|] eqn:F.
  - apply find_some in F as [Hin Ho].
    assert (Hw := proj1 (List.Forall_forall _ _) statuses_truthy w Hin).
    exists w. unfold or_ at 1. rewrite Hw.
    split; [reflexivity|]. split; [now destruct w|]. split; [now left|exact D].
  - exists (js "Unknown"). split; [reflexivity|]. split; [vm_compute; discriminate|].
    split; [|exact D]. right. split; [reflexivity|].
    apply List.Forall_forall. intros w Hw. exact (find_none _ _ F w Hw).
Qed.

Lemma scrape_result_shape_witness :
  exists st,
    AppCache.scrape_site (js "https://www.expeditors.com/tracking")
      (Browser (fun _ => Throw URIError) (fun _ _ => Return VNull)) (js "42") []
    = (Return [("latest_status", VString st);
               ("latest_date", AppCache.extractDate (toString (VNull ||| VString [])))]%string,
       [] ++ [js "https://www.expeditors.com/tracking"])
    /\ st <> [].
Proof.
  destruct (scrape_result_shape (js "https://www.expeditors.com/tracking")
              (Browser (fun _ => Throw URIError) (fun _ _ => Return VNull)) (js "42")
              VNull [] eq_refl) as (st & H1 & H2 & _).
  exists st. split; [exact H1|exact H2].
Defined.

(** ** Squeezed text *)

Lemma squeeze_tidy (P : N -> bool) (b : bool) (s : jsstring) :
  P 32%N = true ->
  tidy P (squeeze P [32%N] b s) = true
  /\ (b = true -> match squeeze P [32%N] b s with d :: _ => P d = false | [] => True end).
Proof.
  intros H32. revert b. induction s as [|c s IH]; intros b; [now split|].
  cbn [squeeze]. destruct (P c) eqn:Hc; [destruct b|].
  - apply IH.
  - split; [|discriminate]. cbn [app tidy]. rewrite H32.
    change (32 =? 32)%N with true. cbn [andb].
    destruct (IH true) as [H1 H2]. rewrite H1, andb_true_r.
    specialize (H2 eq_refl). destruct (squeeze P [32%N] true s); [reflexivity|].
    now rewrite H2.
  - split.
    + cbn [tidy]. rewrite Hc. apply IH.
    + intros _. exact Hc.
Qed.

Lemma tidy_fixed (P : N -> bool) (s : jsstring) :
  tidy P s = true ->
  squeeze P [32%N] false s = s
  /\ (match s with d :: _ => P d = false | [] => True end -> squeeze P [32%N] true s = s).
Proof.
  induction s as [|c s IH]; [now split|]. cbn [tidy squeeze].
  destruct (P c) eqn:Hc.
  - intros [[Hc32 Hn]%andb_true_iff Hs]%andb_true_iff. apply N.eqb_eq in Hc32.
    subst c. destruct (IH Hs) as [_ H]. split; [|discriminate].
    cbn [app]. f_equal. apply H. destruct s; [exact I|]. now apply negb_true_iff.
  - intros [_ Hs]%andb_true_iff. destruct (IH Hs) as [H _]. now rewrite H.
Qed.

Lemma tidy_suffix (P : N -> bool) (a s : jsstring) : tidy P (a ++ s) = true -> tidy P s = true.
Proof.
  induction a as [|c a IH]; [easy|]. cbn [app tidy].
  intros [_ H]%andb_true_iff. now apply IH.
Qed.

Lemma tidy_prefix (P : N -> bool) (s b : jsstring) : tidy P (s ++ b) = true -> tidy P s = true.
Proof.
  induction s as [|c s IH]; [easy|]. cbn [app tidy].
  intros [H Hs]%andb_true_iff. rewrite (IH Hs), andb_true_r.
  destruct (P c); [|reflexivity].
  apply andb_true_iff in H as [-> H]. cbn [andb]. destruct s; [reflexivity|exact H].
Qed.

(** Squeezing changes only the code units that satisfy [P]. *)
Lemma squeeze_keeps_the_rest (P : N -> bool) (by_ : jsstring) (b : bool) (s : jsstring) :
  forallb P by_ = true ->
  List.filter (fun c => negb (P c)) (squeeze P by_ b s) = List.filter (fun c => negb (P c)) s.
Proof.
  intros Hby.
  assert (E : List.filter (fun c => negb (P c)) by_ = []).
  { induction by_ as [|d by_ IH]; [reflexivity|]. cbn [forallb] in Hby.
    apply andb_true_iff in Hby as [Hd Hby]. cbn [List.filter]. rewrite Hd. now apply IH. }
  revert b. induction s as [|c s IH]; intros b; [reflexivity|].
  cbn [squeeze List.filter]. destruct (P c) eqn:Hc; cbn [negb].
  - destruct b; [apply IH|]. now rewrite List.filter_app, E, IH.
  - cbn [List.filter]. rewrite Hc. cbn [negb]. now rewrite IH.
Qed.

Lemma normalized_tidy (s : jsstring) : tidy Js.is_space (normalized s) = true.
Proof.
  unfold normalized. destruct (trim_infix (squeeze Js.is_space [32%N] false s)) as (a & b & E).
  apply (tidy_prefix _ _ b), (tidy_suffix _ a). rewrite <- E.
  now apply squeeze_tidy.
Qed.

Lemma normalized_fixed (s : jsstring) : normalized (normalized s) = normalized s.
Proof.
  unfold normalized at 1. rewrite (proj1 (tidy_fixed _ _ (normalized_tidy s))).
  unfold normalized. apply trim_idem.
Qed.

Lemma extractStatusAndEta_normalized (bigText : jsstring) :
  Part000.extractStatusAndEta bigText
  = {| Part000.status_ :=
         match List.find (fun r => RegExp.test r (normalized bigText))
                         Part000.statusCandidates with
         | Some r => match_ (normalized bigText) r 0
         | None => VNull
         end;
       Part000.etaText := Part000.eta_loop Part000.etaRegexes (normalized bigText) |}.
Proof. unfold Part000.extractStatusAndEta. now rewrite replace_spaces. Qed.

(** X22: [extractStatusAndEta] reads only the normalized text: white space
    squeezed to single blanks and trimmed.  That normalization, unlike
    [sanitize], is idempotent, so texts that differ in their white space
    only (line breaks, tabs, runs of blanks, at the ends or inside) get the
    same status and the same date. *)
Theorem extractStatusAndEta_ignores_layout (a b : jsstring) :
  normalized (normalized a) = normalized a
  /\ tidy Js.is_space (normalized a) = true
  /\ Part000.extractStatusAndEta (normalized a) = Part000.extractStatusAndEta a
  /\ (normalized a = normalized b ->
      Part000.extractStatusAndEta a = Part000.extractStatusAndEta b).
Proof.
  split; [apply normalized_fixed|]. split; [apply normalized_tidy|].
  rewrite !extractStatusAndEta_normalized, normalized_fixed.
  split; [reflexivity|]. now intros ->.
Qed.

Lemma extractStatusAndEta_ignores_layout_witness :
  Part000.extractStatusAndEta (js "  Estado" ++ [10%N; 9%N] ++ js " entregado   hoy ")
  = Part000.extractStatusAndEta (js "Estado entregado hoy").
Proof.
  refine (proj2 (proj2 (proj2 (extractStatusAndEta_ignores_layout
            (js "  Estado" ++ [10%N; 9%N] ++ js " entregado   hoy ") (js "Estado entregado hoy")))) _).
  vm_compute. reflexivity.
Defined.

(** ** The answer of part_000 *)

Lemma officialLink_cases (s : jsstring) (cd u : value) :
  Server.officialLink (VString s) cd = Return u ->
  u = VNull \/ exists e, u = VString (link (Js.toLowerCase s) e).
Proof.
  destruct (supported s) eqn:Hs.
  - destruct (decide (Js.toLowerCase s = js "expeditors")) as [Hx|Hx].
    + rewrite (officialLink_expeditors s cd Hx). intros [= <-]. right. exists [].
      rewrite Hx. vm_compute. reflexivity.
    + destruct (Js.encode (toString cd)) as [e|] eqn:He.
      * rewrite (officialLink_supported s cd e Hs He). intros [= <-]. right. now exists e.
      * rewrite (officialLink_malformed s cd Hs Hx He). discriminate.
  - rewrite (officialLink_unsupported s cd Hs). intros [= <-]. now left.
Qed.

Lemma part000_officialLink_cases (cr cd u : value) :
  Part000.officialLink cr cd = Return u -> truthy u = true ->
  exists url, u = VString url.
Proof.
  destruct cr as [| |b|s]; try discriminate.
  rewrite part000_officialLink_string. intros [->|(e & ->)]%officialLink_cases; [discriminate|].
  eauto.
Qed.

Lemma capture_cases (m : option RegExp.match_array) (i : nat) :
  capture m i = VNull \/ capture m i = VUndefined \/ exists s, capture m i = VString s.
Proof. unfold capture. destruct (m ≫= _); eauto. Qed.

Lemma or_null (v : value) :
  v = VNull \/ v = VUndefined \/ (exists s, v = VString s) -> null_or_text (v ||| VNull).
Proof.
  intros [->|[->|[s ->]]]; [now left|now left|].
  destruct s as [|c s]; [now left|]. right. now exists (c :: s).
Qed.

Lemma status_cases (bigText : jsstring) :
  null_or_text (Part000.status_ (Part000.extractStatusAndEta bigText) ||| VNull).
Proof.
  apply or_null. unfold Part000.extractStatusAndEta. cbn [Part000.status_].
  destruct (List.find _ Part000.statusCandidates); [apply capture_cases|now left].
Qed.

Lemma eta_cases (bigText : jsstring) :
  null_or_text (Part000.etaText (Part000.extractStatusAndEta bigText) ||| VNull).
Proof.
  apply or_null. unfold Part000.extractStatusAndEta. cbn [Part000.etaText].
  induction Part000.etaRegexes as [|r rs IH]; [now left|].
  cbn [Part000.eta_loop]. destruct (RegExp.exec r _); [apply capture_cases|exact IH].
Qed.

Lemma null_or_text_defined (v : value) : null_or_text v -> v <> VUndefined.
Proof. intros [->|(s & -> & _)]; discriminate. Qed.

Lemma json_defined (o : object) :
  Forall (fun kv => snd kv <> VUndefined) o -> json o = o.
Proof.
  unfold json. induction 1 as [|kv o H _ IH]; [reflexivity|].
  cbn [List.filter]. rewrite (bool_decide_eq_false_2 _ H). cbn [negb]. now rewrite IH.
Qed.

Lemma truthy_not_undefined (v : value) : truthy v = true -> v <> VUndefined.
Proof. now destruct v. Qed.

(** X23: Every answer 200 of the handler of part_000 has the same seven fields,
    none left out: [status] and [eta] are [null] or a string that is not
    empty, [title] is [null] (the scrape failed) or the title of the page,
    and [officialUrl] is the link that [officialLink] built. *)
Theorem part000_answer_has_every_field (b : browser) (req : request)
        (t t' : list jsstring) (r : response) :
  Part000.api_track b req t = (Return r, t') -> status r = 200 ->
  exists url st eta ti,
    Part000.officialLink (carrier req) (code req) = Return (VString url)
    /\ r = part000_answer (carrier req) (code req) url st eta ti
    /\ null_or_text st /\ null_or_text eta
    /\ (ti = VNull \/ exists s, ti = VString s).
Proof.
  unfold Part000.api_track, try_catch at 1.
  destruct (truthy (carrier req)) eqn:Hc; [|intros [= <- _]; discriminate].
  destruct (truthy (code req)) eqn:Hk; [|intros [= <- _]; discriminate].
  cbn [negb orb].
  destruct (Part000.officialLink (carrier req) (code req)) as [u|e] eqn:Hl;
    [|intros [= <- _]; discriminate].
  rewrite lift_bind. destruct (truthy u) eqn:Hu; [|intros [= <- _]; discriminate].
  destruct (part000_officialLink_cases _ _ _ Hl Hu) as (url & ->). cbn [negb].
  unfold mbind at 1, io_bind at 1.
  assert (A : forall st eta ti,
             null_or_text st -> null_or_text eta -> (ti = VNull \/ exists s, ti = VString s) ->
             res_json [("ok", VBool true); ("carrier", carrier req); ("code", code req);
                       ("officialUrl", VString url); ("status", st); ("eta", eta);
                       ("title", ti)]%string
             = part000_answer (carrier req) (code req) url st eta ti).
  { intros st eta ti Hs He Ht. unfold res_json, part000_answer. f_equal.
    apply json_defined. repeat constructor; cbn [snd]; try discriminate;
      auto using truthy_not_undefined, null_or_text_defined.
    destruct Ht as [->|(s & ->)]; discriminate. }
  unfold try_catch, Part000.scrapePublicPage, mbind, io_bind, goto.
  destruct (load b (toString (VString url))) as [p|e]; cbn [mret io_ret].
  - intros [= <- _] _. eexists url, _, _, _. split; [reflexivity|].
    split; [apply A; [apply status_cases|apply eta_cases|right; eexists; reflexivity]|].
    split; [apply status_cases|]. split; [apply eta_cases|right; eexists; reflexivity].
  - intros [= <- _] _. exists url, VNull, VNull, VNull. split; [reflexivity|].
    split; [apply (A VNull VNull VNull); now left|].
    split; [now left|]. split; now left.
Qed.

Lemma part000_answer_has_every_field_witness :
  exists url st eta ti,
    Part000.officialLink (VString (js "dhl")) (VString (js "77")) = Return (VString url)
    /\ Response 200 [("ok", VBool true); ("carrier", VString (js "dhl"));
                     ("code", VString (js "77"));
                     ("officialUrl",
                      VString (js "https://www.dhl.com/mx-es/home/rastreo.html?tracking-id=77"));
                     ("status", VString (js "En Tránsito")); ("eta", VNull);
                     ("title", VString (js "DHL"))]%string
       = part000_answer (VString (js "dhl")) (VString (js "77")) url st eta ti
    /\ null_or_text st /\ null_or_text eta
    /\ (ti = VNull \/ exists s, ti = VString s).
Proof.
  refine (part000_answer_has_every_field
            (Browser (fun _ => Return (Page [] (js "Su envío está En Tránsito") (js "DHL")))
                     (fun _ _ => Throw URIError))
            (Request (VString (js "dhl")) (VString (js "77"))) []
            [js "https://www.dhl.com/mx-es/home/rastreo.html?tracking-id=77"] _ _ _).
  - vm_compute. reflexivity.
  - reflexivity.
Defined.

(** ** The answer of src/server.js when the page loads *)

(** A value that is [null], [undefined] or a string. *)
Lemma stringish_or (a b : value) :
  (a = VNull \/ a = VUndefined \/ exists s, a = VString s) ->
  (b = VNull \/ b = VUndefined \/ exists s, b = VString s) ->
  a ||| b = VNull \/ a ||| b = VUndefined \/ exists s, a ||| b = VString s.
Proof.
  intros [->|[->|[s ->]]] Hb; try exact Hb.
  destruct s; [exact Hb|]. right; right. eauto.
Qed.

Lemma match_cases (text : jsstring) (r : RegExp.regexp) (i : nat) :
  match_ text r i = VNull \/ match_ text r i = VUndefined
  \/ exists s, match_ text r i = VString s.
Proof. apply capture_cases. Qed.

(** A field computed as [m1 || m2 || ... || null]. *)
Ltac field := apply or_null; repeat apply stringish_or; apply match_cases.

Lemma set_fresh (k : string) (v : value) (o : object) :
  ~ In k (List.map fst o) -> set k v o = o ++ [(k, v)].
Proof.
  induction o as [|[k' v'] o IH]; [reflexivity|]. cbn [List.map fst In set].
  intros H. destruct (String.eqb_spec k' k) as [->|_]; [tauto|].
  cbn [app]. f_equal. apply IH. tauto.
Qed.

Lemma spread_fresh (o more : object) :
  List.NoDup (List.map fst more) ->
  (forall k, In k (List.map fst more) -> ~ In k (List.map fst o)) ->
  spread o more = o ++ more.
Proof.
  unfold spread. revert o. induction more as [|[k v] more IH]; intros o Hn Hd.
  - now rewrite app_nil_r.
  - cbn [fold_left fst snd]. cbn [List.map fst] in Hn, Hd.
    apply List.NoDup_cons_iff in Hn as [Hk Hn].
    rewrite (set_fresh k v o) by (apply Hd; now left).
    rewrite IH; [now rewrite <- app_assoc|exact Hn|].
    intros k' Hk'. rewrite List.map_app, in_app_iff. cbn [List.map fst In].
    intros [H|[<-|[]]]; [|exact (Hk Hk')]. apply (Hd k'); [now right|exact H].
Qed.

Ltac not_among :=
  let H := fresh in
  cbn [In]; intros H; repeat (destruct H as [H|H]; [discriminate|]); exact H.

Lemma server_fields_fresh (c : jsstring) (cr cd : value) (url : jsstring) :
  List.NoDup (server_fields c)
  /\ forall k, In k (server_fields c) -> ~ In k (List.map fst (link_fields cr cd url)).
Proof.
  unfold server_fields, link_fields. cbn [List.map fst].
  repeat case_bool_decide;
    (split; [repeat (apply List.NoDup_cons; [not_among|]); apply List.NoDup_nil
            |intros k Hk; cbn [In] in Hk;
             repeat (destruct Hk as [<-|Hk]; [not_among|]); destruct Hk]).
Qed.

(** What a scraper returns when the page loads: its fields, each [null]
    or a string that is not empty. *)
Ltac scraper_fields Hl :=
  unfold Server.scrapeFedEx, Server.scrapeDHL, Server.scrapeUPS, Server.scrapeDeltaCargo,
    Server.scrapeExpeditors, mbind, io_bind, goto; rewrite Hl;
  eexists; split; [reflexivity|]; split; [reflexivity|];
  repeat (apply List.Forall_cons; [cbn [snd]; field|]); apply List.Forall_nil.

Lemma server_scrapeFedEx_fields (b : browser) (url : jsstring) (p : page)
      (t : list jsstring) :
  load b url = Return p ->
  exists d, Server.scrapeFedEx b url t = (Return d, t ++ [url])
            /\ List.map fst d
               = ["status"; "deliveredAt"; "signedBy"; "eta"; "origin"; "destination"]%string
            /\ Forall (fun kv => null_or_text (snd kv)) d.
Proof. intros Hl. scraper_fields Hl. Qed.

Lemma server_scrapeDHL_fields (b : browser) (url : jsstring) (p : page)
      (t : list jsstring) :
  load b url = Return p ->
  exists d, Server.scrapeDHL b url t = (Return d, t ++ [url])
            /\ List.map fst d = ["status"; "eta"; "deliveredAt"]%string
            /\ Forall (fun kv => null_or_text (snd kv)) d.
Proof. intros Hl. scraper_fields Hl. Qed.

Lemma server_scrapeUPS_fields (b : browser) (url : jsstring) (p : page)
      (t : list jsstring) :
  load b url = Return p ->
  exists d, Server.scrapeUPS b url t = (Return d, t ++ [url])
            /\ List.map fst d = ["status"; "eta"; "deliveredAt"; "signedBy"]%string
            /\ Forall (fun kv => null_or_text (snd kv)) d.
Proof. intros Hl. scraper_fields Hl. Qed.

Lemma server_scrapeDeltaCargo_fields (b : browser) (url : jsstring) (p : page)
      (t : list jsstring) :
  load b url = Return p ->
  exists d, Server.scrapeDeltaCargo b url t = (Return d, t ++ [url])
            /\ List.map fst d = ["status"; "eta"; "lastScan"]%string
            /\ Forall (fun kv => null_or_text (snd kv)) d.
Proof. intros Hl. scraper_fields Hl. Qed.

Lemma server_scrapeExpeditors_fields (b : browser) (url : jsstring) (p : page)
      (t : list jsstring) :
  load b url = Return p ->
  exists d, Server.scrapeExpeditors b url t = (Return d, t ++ [url])
            /\ List.map fst d = ["status"]%string
            /\ Forall (fun kv => null_or_text (snd kv)) d.
Proof. intros Hl. scraper_fields Hl. Qed.

Lemma server_scrapeByCarrier_fields (b : browser) (s url : jsstring) (p : page)
      (t : list jsstring) :
  supported s = true -> load b url = Return p ->
  exists d, Server.scrapeByCarrier b (VString s) url t = (Return d, t ++ [url])
            /\ List.map fst d = server_fields (Js.toLowerCase s)
            /\ Forall (fun kv => null_or_text (snd kv)) d.
Proof.
  intros Hs Hl. unfold Server.scrapeByCarrier. rewrite or_empty_string, lift_bind.
  destruct (supported_cases s Hs) as [H|[H|[H|[H|[H|[H|H]]]]]]; rewrite H;
    eval_includes; cbv iota;
    match goal with
    | |- context [server_fields ?c] =>
      let v := eval vm_compute in (server_fields c) in change (server_fields c) with v
    end.
  - now apply server_scrapeDHL_fields with p.
  - now apply server_scrapeFedEx_fields with p.
  - now apply server_scrapeUPS_fields with p.
  - now apply server_scrapeDeltaCargo_fields with p.
  - now apply server_scrapeDeltaCargo_fields with p.
  - now apply server_scrapeDeltaCargo_fields with p.
  - now apply server_scrapeExpeditors_fields with p.
Qed.

(** X24: With scraping on, when the page of a supported carrier loads, the
    answer of src/server.js is status 200 with [ok], [carrier], [code] and
    [officialUrl] followed by the fields of the scraper of the carrier, every
    one of them present (none is [undefined]) and either [null] or a string
    that is not empty.  The page loaded is the official URL. *)
Theorem server_answer_has_the_fields_of_the_carrier (b : browser) (s : jsstring)
        (cd : value) (enc : jsstring) (p : page) (t : list jsstring) :
  supported s = true -> truthy cd = true ->
  Js.encode (toString cd) = Some enc ->
  load b (link (Js.toLowerCase s) enc) = Return p ->
  let url := link (Js.toLowerCase s) enc in
  exists details,
    Server.api_track true b (Request (VString s) cd) t
    = (Return (Response 200 (link_fields (VString s) cd url ++ details)), t ++ [url])
    /\ List.map fst details = server_fields (Js.toLowerCase s)
    /\ Forall (fun kv => null_or_text (snd kv)) details.
Proof.
  intros Hs Hk He Hl. cbv zeta.
  destruct (server_scrapeByCarrier_fields b s _ p t Hs Hl) as (d & Hd & Hf & Hv).
  exists d. split; [|now split].
  unfold Server.api_track. cbn [carrier code].
  rewrite (supported_truthy s Hs), Hk. cbn [negb orb].
  rewrite (officialLink_supported s cd enc Hs He).
  unfold try_catch at 1. rewrite lift_bind. rewrite link_truthy. cbn [negb].
  unfold mbind at 1, io_bind. unfold try_catch. cbn [toString].
  rewrite Hd. cbn [mret io_ret]. unfold res_json.
  fold (link_fields (VString s) cd (link (Js.toLowerCase s) enc)).
  destruct (server_fields_fresh (Js.toLowerCase s) (VString s) cd
              (link (Js.toLowerCase s) enc)) as [Hn Hfr].
  rewrite spread_fresh by (rewrite Hf; assumption).
  rewrite json_defined; [reflexivity|].
  apply Forall_app. split.
  - unfold link_fields. repeat (apply List.Forall_cons; [cbn [snd]|]);
      try apply List.Forall_nil; try discriminate.
    apply truthy_not_undefined, Hk.
  - eapply Forall_impl; [exact Hv|]. intros kv. apply null_or_text_defined.
Qed.

Lemma server_answer_has_the_fields_of_the_carrier_witness :
  exists details,
    Server.api_track true
      (Browser (fun _ => Return (Page (js "Estado: En camino") [] [])) (fun _ _ => Throw URIError))
      (Request (VString (js "DHL")) (VString (js "55"))) []
    = (Return (Response 200
                 (link_fields (VString (js "DHL")) (VString (js "55"))
                    (link (Js.toLowerCase (js "DHL")) (js "55")) ++ details)),
       [] ++ [link (Js.toLowerCase (js "DHL")) (js "55")])
    /\ List.map fst details = server_fields (Js.toLowerCase (js "DHL"))
    /\ Forall (fun kv => null_or_text (snd kv)) details.
Proof.
  exact (server_answer_has_the_fields_of_the_carrier
           (Browser (fun _ => Return (Page (js "Estado: En camino") [] []))
                    (fun _ _ => Throw URIError))
           (js "DHL") (VString (js "55")) (js "55") (Page (js "Estado: En camino") [] []) []
           eq_refl eq_refl eq_refl eq_refl).
Defined.

(** ** The text the scrapers of src/server.js read *)

Lemma server_readBodyText_squeeze (p : page) :
  Server.readBodyText p = squeeze is_blank [32%N] false (unbreak (text_nodes p)).
Proof. unfold Server.readBodyText, unbreak. now rewrite replace_nbsp, replace_blanks. Qed.

Lemma tidy_blank (P : N -> bool) (s : jsstring) (c : N) :
  tidy P s = true -> In c s -> P c = true -> c = 32%N.
Proof.
  induction s as [|d s IH]; [easy|]. cbn [tidy In].
  intros [Hd Hs]%andb_true_iff [->|Hc] Pc; [|now apply IH].
  rewrite Pc in Hd. apply andb_true_iff in Hd as [Hd _]. now apply N.eqb_eq in Hd.
Qed.

(** X25: [readBodyText] of src/server.js leaves a text in which every blank
    stands alone: no tab, no no-break space, no two blanks in a row.  It
    changes nothing else (the line breaks, on which the patterns of the
    scrapers rely, stay), and reading its result again changes nothing. *)
Theorem readBodyText_tidies_blanks (p : page) :
  let text := Server.readBodyText p in
  tidy is_blank text = true
  /\ ~ In 0xA0%N text /\ ~ In 9%N text
  /\ List.filter (fun c => negb (is_blank c)) text
     = List.filter (fun c => negb (is_blank c)) (unbreak (text_nodes p))
  /\ Server.readBodyText (Page text (innerText p) (title p)) = text.
Proof.
  cbv zeta. rewrite !server_readBodyText_squeeze. cbn [text_nodes].
  set (y := squeeze is_blank [32%N] false (unbreak (text_nodes p))).
  assert (T : tidy is_blank y = true) by now apply squeeze_tidy.
  assert (A : Forall (fun c => c <> 0xA0%N) y).
  { apply squeeze_forall; [repeat constructor; discriminate|apply unbreak_forall]. }
  split; [exact T|]. split; [|split; [|split]].
  - intros H. exact (proj1 (List.Forall_forall _ _) A _ H eq_refl).
  - intros H. assert (E := tidy_blank is_blank y 9%N T H eq_refl). discriminate.
  - now apply squeeze_keeps_the_rest.
  - rewrite (unbreak_id _ A). now apply tidy_fixed.
Qed.

(** ** The guards of part_001 *)

(** X26: The destination that a scraper of part_001 returns never holds the
    words [main content], in any letter case: [null] takes its place. *)
Theorem main_content_is_never_a_destination (d : value) :
  (Part001.main_content d = d \/ Part001.main_content d = VNull)
  /\ forall s, Part001.main_content d = VString s ->
               occurs true (js "main content") s = false.
Proof.
  unfold Part001.main_content.
  replace (re "main content" "i") with (RegExp.RegExp (RegExp.lit (js "main content")) true)
    by (vm_compute; reflexivity).
  rewrite test_lit.
  destruct (truthy d) eqn:Hd; cbn [andb].
  - destruct (occurs true (js "main content") (toString d)) eqn:Ho.
    + split; [now right|]. discriminate.
    + split; [now left|]. intros s ->. exact Ho.
  - split; [now left|]. intros s ->. destruct s; [vm_compute; reflexivity|discriminate].
Qed.

(** ** [cap] of part_001 *)

Section Runs.
Import RegExp.

Lemma rep_min_S (body : mstate -> list mstate) (fuel m : nat) (st : mstate) :
  rep body true (S fuel) (S m) None st
  = flat_map (fun st' => rep body true fuel m None st') (body st).
Proof. reflexivity. Qed.

Lemma run_class_two (ic neg : bool) (items : list citem) (st : mstate) :
  head (run ic (Quant 2 None true (Class neg items)) st)
  = match rest st with
    | d1 :: d2 :: _ =>
      if xorb neg (class_has ic items d1) && xorb neg (class_has ic items d2)
      then Some (advance (span (fun c => xorb neg (class_has ic items c)) (rest st)) st)
      else None
    | _ => None
    end.
Proof.
  set (body := fun st => run ic (Class neg items) (clear_caps [] st)).
  assert (B : forall st, body st
                         = match rest st with
                           | d :: t => if xorb neg (class_has ic items d)
                                       then [step d t st] else []
                           | [] => []
                           end).
  { intros st0. unfold body. now rewrite clear_caps_nil. }
  change (run ic (Quant 2 None true (Class neg items)) st)
    with (rep body true (S (S (S (length (rest st))))) 2 None st).
  rewrite rep_min_S, B.
  destruct (rest st) as [|d1 t1] eqn:E1; [reflexivity|].
  destruct (xorb neg (class_has ic items d1)) eqn:P1; cbn [andb flat_map];
    [|destruct t1; reflexivity].
  rewrite app_nil_r, rep_min_S, B. cbn [rest step].
  destruct t1 as [|d2 t2]; [reflexivity|].
  destruct (xorb neg (class_has ic items d2)) eqn:P2; cbn [flat_map]; [|reflexivity].
  rewrite app_nil_r. unfold body.
  rewrite (rep_class_star ic neg items _ (step d2 t2 (step d1 (d2 :: t2) st)))
    by (cbn [rest step length]; lia).
  cbn [rest step span]. rewrite P1, P2.
  rewrite (advance_step _ d2 t2 (step d1 (d2 :: t2) st) eq_refl).
  now rewrite (advance_step _ d1 (d2 :: t2) st E1).
Qed.

Lemma match_at_class_two (ic neg : bool) (items : list citem) (p : option N)
      (s : jsstring) :
  pos <$> match_at (RegExp (Seq (Quant 2 None true (Class neg items)) Eps) ic) p s
  = match s with
    | d1 :: d2 :: _ =>
      if xorb neg (class_has ic items d1) && xorb neg (class_has ic items d2)
      then Some (span (fun c => xorb neg (class_has ic items c)) s)
      else None
    | _ => None
    end.
Proof.
  unfold match_at. cbn [pattern ignoreCase]. rewrite run_seq_eps, run_class_two.
  cbn [rest]. destruct s as [|d1 [|d2 t]]; try reflexivity.
  now destruct (xorb neg (class_has ic items d1) && xorb neg (class_has ic items d2)).
Qed.

Variable re : regexp.
Variable P : N -> bool.
Variable b0 : N.
Hypothesis re_runs :
  forall p s,
    pos <$> match_at re p s
    = match s with
      | d1 :: d2 :: _ => if P d1 && P d2 then Some (span P s) else None
      | _ => None
      end.

Lemma replace_runs_nil (p : option N) (k : nat) : replace_from re [b0] p [] k = [].
Proof using Type re_runs.
  destruct k; [|reflexivity]. cbn [replace_from].
  assert (E := re_runs p []). destruct (match_at re p []); [discriminate|reflexivity].
Qed.

(** One step of the replacement: a run of two or more gives way to the
    replacement, any other code unit is kept. *)
Lemma replace_runs_cons (p : option N) (c : N) (t : jsstring) :
  replace_from re [b0] p (c :: t) 0
  = if P c && match t with d :: _ => P d | [] => false end
    then b0 :: replace_from re [b0] (Some c) t (span P t)
    else c :: replace_from re [b0] (Some c) t 0.
Proof using Type re_runs.
  assert (E := re_runs p (c :: t)). cbn [replace_from].
  destruct t as [|d t']; [rewrite andb_false_r|].
  - destruct (match_at re p [c]); [discriminate|reflexivity].
  - destruct (P c && P d) eqn:Hcd.
    + destruct (match_at re p (c :: d :: t')) as [st'|]; [|discriminate].
      cbn in E. injection E as E. apply andb_true_iff in Hcd as [Hc Hd].
      cbn [span] in E. rewrite Hc in E. rewrite E. reflexivity.
    + destruct (match_at re p (c :: d :: t')); [discriminate|reflexivity].
Qed.

Lemma replace_runs_skip (p : option N) (c : N) (t : jsstring) :
  replace_from re [b0] p (c :: t) (span P (c :: t))
  = if P c then replace_from re [b0] (Some c) t (span P t)
    else replace_from re [b0] p (c :: t) 0.
Proof. cbn [span]. destruct (P c); reflexivity. Qed.

Lemma sparse_cons (c : N) (x : jsstring) :
  (P c = true -> clear_start P x = true) -> sparse P x = true -> sparse P (c :: x) = true.
Proof.
  intros H Hx. cbn [sparse]. rewrite Hx, andb_true_r. destruct x as [|d x]; [reflexivity|].
  destruct (P c); [|reflexivity]. cbn [andb]. exact (H eq_refl).
Qed.

Lemma replace_runs_sparse (s : jsstring) (p : option N) :
  (sparse P (replace_from re [b0] p s 0) = true
   /\ (clear_start P s = true -> clear_start P (replace_from re [b0] p s 0) = true))
  /\ sparse P (replace_from re [b0] p s (span P s)) = true
  /\ clear_start P (replace_from re [b0] p s (span P s)) = true.
Proof using Type re_runs.
  revert p. induction s as [|c t IH]; intros p.
  - cbn [span]. rewrite replace_runs_nil. now repeat split.
  - assert (A : sparse P (replace_from re [b0] p (c :: t) 0) = true
                /\ (clear_start P (c :: t) = true
                    -> clear_start P (replace_from re [b0] p (c :: t) 0) = true)).
    { rewrite replace_runs_cons. destruct (IH (Some c)) as [[I1 I2] [I3 I4]].
      destruct (P c && match t with d :: _ => P d | [] => false end) eqn:Hcd.
      - apply andb_true_iff in Hcd as [Hc _]. split.
        + apply sparse_cons; [intros _; exact I4|exact I3].
        + cbn [clear_start]. rewrite Hc. discriminate.
      - split; [|now intros H].
        apply sparse_cons; [|exact I1]. intros Hc. apply I2.
        rewrite Hc in Hcd. cbn [andb] in Hcd. destruct t; [reflexivity|].
        cbn [clear_start]. now rewrite Hcd. }
    split; [exact A|]. rewrite replace_runs_skip. destruct (P c) eqn:Hc.
    + apply IH.
    + destruct A as [A1 A2]. split; [exact A1|]. apply A2. cbn [clear_start]. now rewrite Hc.
Qed.

Lemma replace_runs_fixed (s : jsstring) (p : option N) :
  sparse P s = true -> replace_from re [b0] p s 0 = s.
Proof using Type re_runs.
  revert p. induction s as [|c t IH]; intros p; [intros _; apply replace_runs_nil|].
  cbn [sparse]. intros [Hc Ht]%andb_true_iff. rewrite replace_runs_cons.
  replace (P c && match t with d :: _ => P d | [] => false end) with false.
  - now rewrite IH.
  - destruct t; [now rewrite andb_false_r|]. now apply negb_true_iff in Hc.
Qed.

Lemma last_cons_Some {A} (x d : A) (l : list A) : last l = Some d -> last (x :: l) = Some d.
Proof. destruct l; [discriminate|]. now intros <-. Qed.

Lemma replace_runs_last (s : jsstring) (p : option N) (d : N) :
  last s = Some d -> P d = false ->
  last (replace_from re [b0] p s 0) = Some d
  /\ last (replace_from re [b0] p s (span P s)) = Some d.
Proof using Type re_runs.
  intros Hl Hd. revert p Hl. induction s as [|c t IH]; intros p Hl; [discriminate|].
  assert (A : last (replace_from re [b0] p (c :: t) 0) = Some d).
  { rewrite replace_runs_cons. destruct t as [|d2 t2].
    - cbn in Hl. injection Hl as ->. rewrite andb_false_r, replace_runs_nil. reflexivity.
    - assert (Hl' : last (d2 :: t2) = Some d) by exact Hl.
      destruct (IH (Some c) Hl') as [I1 I2].
      destruct (P c && P d2); now apply last_cons_Some. }
  split; [exact A|]. rewrite replace_runs_skip. destruct (P c) eqn:Hc; [|exact A].
  destruct t as [|d2 t2].
  - cbn in Hl. injection Hl as ->. congruence.
  - now apply IH.
Qed.

End Runs.

Lemma trim_clear (s : jsstring) :
  clear_start Js.is_space s = true -> clear_end Js.is_space s = true -> Js.trim s = s.
Proof.
  unfold clear_start, clear_end, Js.trim. intros Hs He.
  assert (E : Js.trimStart s = s).
  { destruct s as [|c t]; [reflexivity|]. cbn [Js.trimStart].
    now rewrite (proj1 (negb_true_iff _) Hs). }
  rewrite E. unfold Js.trimEnd. destruct (last s) as [d|] eqn:Hl.
  - apply last_Some in Hl as (l' & ->). rewrite rev_app_distr. cbn [rev app Js.trimStart].
    rewrite (proj1 (negb_true_iff _) He). cbn [rev]. now rewrite rev_involutive.
  - apply last_None in Hl. now subst s.
Qed.

Lemma trim_is_clear (s : jsstring) :
  clear_start Js.is_space (Js.trim s) = true /\ clear_end Js.is_space (Js.trim s) = true.
Proof.
  unfold Js.trim, clear_start, clear_end. split.
  - assert (H := trimStart_head s). destruct (Js.trimStart s) as [|c t]; [reflexivity|].
    destruct (trimEnd_head c t H) as (t' & ->). now rewrite H.
  - unfold Js.trimEnd. assert (H := trimStart_head (rev (Js.trimStart s))).
    destruct (Js.trimStart (rev (Js.trimStart s))) as [|c t]; [reflexivity|].
    cbn [rev]. rewrite last_snoc. now rewrite H.
Qed.

Lemma cap_string (s : jsstring) :
  Part001.cap (VString s)
  = VString (match s with
             | [] => []
             | _ :: _ =>
               RegExp.replace_from
                 (RegExp.RegExp
                    (RegExp.Seq (RegExp.Quant 2 None true
                                   (RegExp.Class false [RegExp.ISpace false]))
                                RegExp.Eps) false)
                 [32%N] None (Js.trim s) 0
             end).
Proof.
  unfold Part001.cap. destruct s as [|c s]; [reflexivity|]. cbn [truthy toString].
  replace (re "\s{2,}" "g")
    with (RegExp.RegExp
            (RegExp.Seq (RegExp.Quant 2 None true (RegExp.Class false [RegExp.ISpace false]))
                        RegExp.Eps) false)
    by (vm_compute; reflexivity).
  reflexivity.
Qed.

Lemma space_runs (p : option N) (s : jsstring) :
  RegExp.pos <$> RegExp.match_at
    (RegExp.RegExp
       (RegExp.Seq (RegExp.Quant 2 None true (RegExp.Class false [RegExp.ISpace false]))
                   RegExp.Eps) false) p s
  = match s with
    | d1 :: d2 :: _ =>
      if Js.is_space d1 && Js.is_space d2 then Some (span Js.is_space s) else None
    | _ => None
    end.
Proof.
  rewrite match_at_class_two. destruct s as [|d1 [|d2 t]]; try reflexivity.
  cbn [RegExp.class_has existsb RegExp.item_has xorb]. rewrite !orb_false_r.
  destruct (Js.is_space d1 && Js.is_space d2); [|reflexivity].
  f_equal. apply span_ext. intros c.
  cbn [RegExp.class_has existsb RegExp.item_has xorb]. now rewrite orb_false_r.
Qed.

(** What [cap] makes of a string: trimmed, and with no two white spaces
    in a row. *)
Lemma cap_clean (s : jsstring) :
  exists r, Part001.cap (VString s) = VString r
            /\ sparse Js.is_space r = true
            /\ clear_start Js.is_space r = true /\ clear_end Js.is_space r = true.
Proof.
  rewrite cap_string. eexists. split; [reflexivity|]. destruct s as [|c s]; [now repeat split|].
  set (x := Js.trim (c :: s)). destruct (trim_is_clear (c :: s)) as [Hs He]. fold x in Hs, He.
  destruct (replace_runs_sparse _ Js.is_space 32%N space_runs x None) as [[S1 S2] _].
  split; [exact S1|]. split; [exact (S2 Hs)|].
  unfold clear_end in *. destruct (last x) as [d|] eqn:Hl.
  - apply negb_true_iff in He.
    now rewrite (proj1 (replace_runs_last _ Js.is_space 32%N space_runs x None d Hl He)), He.
  - apply last_None in Hl. rewrite Hl, (replace_runs_nil _ Js.is_space 32%N space_runs).
    reflexivity.
Qed.

(** X27: [cap] leaves [null], [undefined] and the empty string as they are;
    of a string it makes a trimmed text with no two white spaces in a row;
    and, unlike [sanitize], it is idempotent. *)
Theorem cap_is_idempotent (v : value) :
  v = VNull \/ v = VUndefined \/ (exists s, v = VString s) ->
  Part001.cap (Part001.cap v) = Part001.cap v
  /\ (truthy v = false -> Part001.cap v = v)
  /\ (forall s, v = VString s ->
      exists r, Part001.cap v = VString r
                /\ sparse Js.is_space r = true
                /\ clear_start Js.is_space r = true /\ clear_end Js.is_space r = true).
Proof.
  intros Hv. split; [|split].
  - destruct Hv as [->|[->|[s ->]]]; [reflexivity|reflexivity|].
    destruct (cap_clean s) as (r & -> & Hsp & Hs & He).
    rewrite cap_string. f_equal. destruct r as [|c r]; [reflexivity|].
    rewrite (trim_clear _ Hs He).
    apply (replace_runs_fixed _ Js.is_space 32%N space_runs), Hsp.
  - unfold Part001.cap. now intros ->.
  - intros s ->. apply cap_clean.
Qed.

Lemma cap_is_idempotent_witness :
  Part001.cap (Part001.cap (VString (js "  En   camino  ")))
  = Part001.cap (VString (js "  En   camino  ")).
Proof.
  exact (proj1 (cap_is_idempotent (VString (js "  En   camino  "))
                  (or_intror (or_intror (ex_intro _ _ eq_refl))))).
Defined.

(** ** The answer of part_001 when the page loads *)

Lemma cap_stringish (v : value) : stringish v -> stringish (Part001.cap v).
Proof.
  intros [->|[->|[s ->]]]; [now left|right; now left|].
  unfold Part001.cap. destruct (truthy (VString s)); right; right; eauto.
Qed.

Lemma main_content_stringish (v : value) : stringish v -> stringish (Part001.main_content v).
Proof.
  intros H. unfold Part001.main_content. destruct (_ && _); [now left|exact H].
Qed.

Lemma or_stringish (a b : value) : stringish a -> stringish b -> stringish (a ||| b).
Proof. apply stringish_or. Qed.

Lemma match_stringish (text : jsstring) (r : RegExp.regexp) (i : nat) :
  stringish (match_ text r i).
Proof. apply match_cases. Qed.

Lemma null_stringish : stringish VNull.
Proof. now left. Qed.

Ltac stringish_field :=
  repeat first [ apply match_stringish | apply null_stringish | apply cap_stringish
               | apply main_content_stringish | apply or_stringish
               | match goal with |- stringish (if ?c then _ else _) => destruct c end ].

Ltac part001_scraper_fields Hl :=
  unfold Part001.scrapeFedEx, Part001.scrapeDHL, Part001.scrapeUPS,
    Part001.scrapeDeltaCargo, Part001.scrapeExpeditors, mbind, io_bind, goto; rewrite Hl;
  eexists; split; [reflexivity|]; split; [reflexivity|];
  repeat (apply List.Forall_cons; [cbn [snd]; stringish_field|]); apply List.Forall_nil.

Lemma part001_scrapeFedEx_fields (b : browser) (url : jsstring) (p : page)
      (t : list jsstring) :
  load b url = Return p ->
  exists d, Part001.scrapeFedEx b url t = (Return d, t ++ [url])
            /\ List.map fst d
               = ["status"; "deliveredAt"; "signedBy"; "eta"; "origin"; "destination"]%string
            /\ Forall (fun kv => stringish (snd kv)) d.
Proof. intros Hl. part001_scraper_fields Hl. Qed.

Lemma part001_scrapeDHL_fields (b : browser) (url : jsstring) (p : page)
      (t : list jsstring) :
  load b url = Return p ->
  exists d, Part001.scrapeDHL b url t = (Return d, t ++ [url])
            /\ List.map fst d = ["status"; "eta"; "deliveredAt"]%string
            /\ Forall (fun kv => stringish (snd kv)) d.
Proof. intros Hl. part001_scraper_fields Hl. Qed.

Lemma part001_scrapeUPS_fields (b : browser) (url : jsstring) (p : page)
      (t : list jsstring) :
  load b url = Return p ->
  exists d, Part001.scrapeUPS b url t = (Return d, t ++ [url])
            /\ List.map fst d
               = ["status"; "eta"; "deliveredAt"; "signedBy"; "destination"]%string
            /\ Forall (fun kv => stringish (snd kv)) d.
Proof. intros Hl. part001_scraper_fields Hl. Qed.

Lemma part001_scrapeDeltaCargo_fields (b : browser) (url : jsstring) (p : page)
      (t : list jsstring) :
  load b url = Return p ->
  exists d, Part001.scrapeDeltaCargo b url t = (Return d, t ++ [url])
            /\ List.map fst d = ["status"; "eta"; "lastScan"]%string
            /\ Forall (fun kv => stringish (snd kv)) d.
Proof. intros Hl. part001_scraper_fields Hl. Qed.

Lemma part001_scrapeExpeditors_fields (b : browser) (url : jsstring) (p : page)
      (t : list jsstring) :
  load b url = Return p ->
  exists d, Part001.scrapeExpeditors b url t = (Return d, t ++ [url])
            /\ List.map fst d = ["status"]%string
            /\ Forall (fun kv => stringish (snd kv)) d.
Proof. intros Hl. part001_scraper_fields Hl. Qed.

Lemma part001_scrapeByCarrier_fields (b : browser) (s url : jsstring) (p : page)
      (t : list jsstring) :
  supported s = true -> load b url = Return p ->
  exists d, Part001.scrapeByCarrier b (VString s) url t = (Return d, t ++ [url])
            /\ List.map fst d = part001_fields (Js.toLowerCase s)
            /\ Forall (fun kv => stringish (snd kv)) d.
Proof.
  intros Hs Hl. unfold Part001.scrapeByCarrier. rewrite or_empty_string, lift_bind.
  destruct (supported_cases s Hs) as [H|[H|[H|[H|[H|[H|H]]]]]]; rewrite H;
    eval_includes; cbv iota;
    match goal with
    | |- context [part001_fields ?c] =>
      let v := eval vm_compute in (part001_fields c) in change (part001_fields c) with v
    end.
  - now apply part001_scrapeDHL_fields with p.
  - now apply part001_scrapeFedEx_fields with p.
  - now apply part001_scrapeUPS_fields with p.
  - now apply part001_scrapeDeltaCargo_fields with p.
  - now apply part001_scrapeDeltaCargo_fields with p.
  - now apply part001_scrapeDeltaCargo_fields with p.
  - now apply part001_scrapeExpeditors_fields with p.
Qed.

Lemma part001_fields_fresh (c : jsstring) (cr cd : value) (url : jsstring) :
  List.NoDup (part001_fields c)
  /\ forall k, In k (part001_fields c) -> ~ In k (List.map fst (link_fields cr cd url)).
Proof.
  unfold part001_fields, link_fields. cbn [List.map fst].
  repeat case_bool_decide;
    (split; [repeat (apply List.NoDup_cons; [not_among|]); apply List.NoDup_nil
            |intros k Hk; cbn [In] in Hk;
             repeat (destruct Hk as [<-|Hk]; [not_among|]); destruct Hk]).
Qed.

Lemma json_app (o1 o2 : object) : json (o1 ++ o2) = json o1 ++ json o2.
Proof. unfold json. apply List.filter_app. Qed.

(** What JSON keeps of an object of strings, [null]s and [undefined]s:
    some of its fields, in their order, none of them [undefined]. *)
Lemma json_stringish (d : object) :
  Forall (fun kv => stringish (snd kv)) d ->
  sublist (List.map fst (json d)) (List.map fst d)
  /\ Forall (fun kv => snd kv = VNull \/ exists x, snd kv = VString x) (json d).
Proof.
  unfold json. induction 1 as [|[k v] d Hv _ [IH1 IH2]]; [split; constructor|].
  cbn [List.filter List.map fst snd] in *.
  destruct Hv as [->|[->|[x ->]]]; cbn [negb].
  - split; [now constructor|]. constructor; [now left|exact IH2].
  - rewrite bool_decide_eq_true_2 by reflexivity. cbn [negb].
    split; [now constructor|exact IH2].
  - split; [now constructor|]. constructor; [right; eauto|exact IH2].
Qed.

(** X28: With scraping on, when the page of a supported carrier loads, the
    answer of part_001 is status 200 with [ok], [carrier], [code] and
    [officialUrl] followed by some of the fields of the scraper of the
    carrier, in their order, each [null] or a string.  A field may be
    missing: where src/server.js ends a field with [|| null], part_001
    often does not, and a field left [undefined] is not sent.  On a page
    without text its answer for FedEx has [eta] alone, where that of
    src/server.js has its six fields, all [null]. *)
Theorem part001_answer_may_lack_fields (b : browser) (s : jsstring)
        (cd : value) (enc : jsstring) (p : page) (t : list jsstring) :
  supported s = true -> truthy cd = true ->
  Js.encode (toString cd) = Some enc ->
  load b (link (Js.toLowerCase s) enc) = Return p ->
  let url := link (Js.toLowerCase s) enc in
  (exists details,
    Part001.api_track true b (Request (VString s) cd) t
    = (Return (Response 200 (link_fields (VString s) cd url ++ details)), t ++ [url])
    /\ sublist (List.map fst details) (part001_fields (Js.toLowerCase s))
    /\ Forall (fun kv => snd kv = VNull \/ exists x, snd kv = VString x) details)
  /\ fst (Part001.api_track true (showing (Page [] [] []))
            (Request (VString (js "fedex")) (VString (js "1"))) [])
     = Return (Response 200
                 (link_fields (VString (js "fedex")) (VString (js "1"))
                    (js "https://www.fedex.com/fedextrack/?trknbr=1&cntry_code=mx_esp")
                  ++ [("eta", VNull)]%string))
  /\ fst (Server.api_track true (showing (Page [] [] []))
            (Request (VString (js "fedex")) (VString (js "1"))) [])
     = Return (Response 200
                 (link_fields (VString (js "fedex")) (VString (js "1"))
                    (js "https://www.fedex.com/fedextrack/?trknbr=1&cntry_code=mx_esp")
                  ++ [("status", VNull); ("deliveredAt", VNull); ("signedBy", VNull);
                      ("eta", VNull); ("origin", VNull); ("destination", VNull)]%string)).
Proof.
  intros Hs Hk He Hl. cbv zeta. split; [|split; vm_compute; reflexivity].
  destruct (part001_scrapeByCarrier_fields b s _ p t Hs Hl) as (d & Hd & Hf & Hv).
  destruct (json_stringish d Hv) as [J1 J2]. rewrite Hf in J1.
  exists (json d). split; [|now split].
  unfold Part001.api_track, Part001.officialLink. cbn [carrier code].
  rewrite (supported_truthy s Hs), Hk. cbn [negb orb].
  rewrite (officialLink_supported s cd enc Hs He).
  unfold try_catch at 1. rewrite lift_bind. rewrite link_truthy. cbn [negb].
  unfold mbind at 1, io_bind. unfold try_catch. cbn [toString].
  rewrite Hd. cbn [mret io_ret]. unfold res_json.
  fold (link_fields (VString s) cd (link (Js.toLowerCase s) enc)).
  destruct (part001_fields_fresh (Js.toLowerCase s) (VString s) cd
              (link (Js.toLowerCase s) enc)) as [Hn Hfr].
  rewrite spread_fresh by (rewrite Hf; assumption).
  rewrite json_app, json_defined; [reflexivity|].
  unfold link_fields. repeat (apply List.Forall_cons; [cbn [snd]|]);
    try apply List.Forall_nil; try discriminate.
  apply truthy_not_undefined, Hk.
Qed.

Lemma part001_answer_may_lack_fields_witness :
  exists details,
    Part001.api_track true (showing (Page (js "Estado: En camino") [] []))
      (Request (VString (js "DHL")) (VString (js "55"))) []
    = (Return (Response 200
                 (link_fields (VString (js "DHL")) (VString (js "55"))
                    (link (Js.toLowerCase (js "DHL")) (js "55")) ++ details)),
       [] ++ [link (Js.toLowerCase (js "DHL")) (js "55")])
    /\ sublist (List.map fst details) (part001_fields (Js.toLowerCase (js "DHL")))
    /\ Forall (fun kv => snd kv = VNull \/ exists x, snd kv = VString x) details.
Proof.
  exact (proj1 (part001_answer_may_lack_fields
                  (showing (Page (js "Estado: En camino") [] []))
                  (js "DHL") (VString (js "55")) (js "55") (Page (js "Estado: En camino") [] [])
                  [] eq_refl eq_refl eq_refl eq_refl)).
Defined.

(** ** The first program of src/app.js with scraping on *)

Lemma app_scrapeFedEx_fields (b : browser) (url : jsstring) (p : page)
      (t : list jsstring) :
  load b url = Return p ->
  exists d, App.scrapeFedEx true b url t = (Return d, t ++ [url])
            /\ List.map fst d = ["status"; "deliveredAt"; "signedBy"; "eta"]%string
            /\ Forall (fun kv => null_or_text (snd kv)) d.
Proof.
  intros Hl. unfold App.scrapeFedEx, App.withPage, mbind, io_bind, goto. cbn [negb].
  rewrite Hl. eexists. split; [reflexivity|]. split; [reflexivity|].
  repeat (apply List.Forall_cons; [cbn [snd]; field|]); apply List.Forall_nil.
Qed.

(** X29: With scraping on, the first program of src/app.js reads the page of
    FedEx, and of no other carrier: when the page loads, the answer is
    status 200 with the four link fields followed by [status],
    [deliveredAt], [signedBy] and [eta], each present and either [null] or a
    string that is not empty. *)
Theorem app_fedex_answer_has_four_fields (b : browser) (s : jsstring) (cd : value)
        (enc : jsstring) (p : page) (t : list jsstring) :
  Js.toLowerCase s = js "fedex" -> truthy cd = true ->
  Js.encode (toString cd) = Some enc ->
  load b (link (js "fedex") enc) = Return p ->
  let url := link (js "fedex") enc in
  exists details,
    App.api_track true b (Request (VString s) cd) t
    = (Return (Response 200 (link_fields (VString s) cd url ++ details)), t ++ [url])
    /\ List.map fst details = ["status"; "deliveredAt"; "signedBy"; "eta"]%string
    /\ Forall (fun kv => null_or_text (snd kv)) details.
Proof.
  intros Hf Hk He Hl. cbv zeta.
  assert (Hs : supported s = true).
  { unfold supported. rewrite Hf. vm_compute. reflexivity. }
  assert (Hd : Js.toLowerCase s <> js "deltacargo").
  { rewrite Hf. vm_compute. discriminate. }
  destruct (app_scrapeFedEx_fields b _ p t Hl) as (d & Hsc & Hfs & Hv).
  exists d. split; [|now split].
  unfold App.api_track. cbn [carrier code].
  rewrite (supported_truthy s Hs), Hk. cbn [negb orb].
  rewrite (app_officialLink_as_server s cd Hd), (officialLink_supported s cd enc Hs He), Hf.
  unfold try_catch at 1. rewrite lift_bind. rewrite link_truthy. cbn [negb].
  unfold mbind at 1, io_bind. unfold try_catch. cbn [toString].
  unfold App.scrapeByCarrier. rewrite or_empty_string, lift_bind, Hf.
  eval_includes. cbv iota. rewrite Hsc. cbn [mret io_ret]. unfold res_json.
  fold (link_fields (VString s) cd (link (js "fedex") enc)).
  rewrite spread_fresh.
  - rewrite json_defined; [reflexivity|]. apply Forall_app. split.
    + unfold link_fields. repeat (apply List.Forall_cons; [cbn [snd]|]);
        try apply List.Forall_nil; try discriminate.
      apply truthy_not_undefined, Hk.
    + eapply Forall_impl; [exact Hv|]. intros kv. apply null_or_text_defined.
  - rewrite Hfs. repeat (apply List.NoDup_cons; [not_among|]). apply List.NoDup_nil.
  - rewrite Hfs. unfold link_fields. cbn [List.map fst]. intros k Hk'. cbn [In] in Hk'.
    repeat (destruct Hk' as [<-|Hk']; [not_among|]). destruct Hk'.
Qed.

Lemma app_fedex_answer_has_four_fields_witness :
  exists details,
    App.api_track true (showing (Page [] (js "Entregado") [])) 
      (Request (VString (js "FedEx")) (VString (js "7"))) []
    = (Return (Response 200 (link_fields (VString (js "FedEx")) (VString (js "7"))
                               (link (js "fedex") (js "7")) ++ details)),
       [] ++ [link (js "fedex") (js "7")])
    /\ List.map fst details = ["status"; "deliveredAt"; "signedBy"; "eta"]%string
    /\ Forall (fun kv => null_or_text (snd kv)) details.
Proof.
  exact (app_fedex_answer_has_four_fields (showing (Page [] (js "Entregado") []))
           (js "FedEx") (VString (js "7")) (js "7") (Page [] (js "Entregado") []) []
           eq_refl eq_refl eq_refl eq_refl).
Defined.

(** ** The air waybill that [scrapeDelta] types *)

Section Delete.
Import RegExp.

Lemma match_at_class_one (ic neg : bool) (items : list citem) (p : option N)
      (s : jsstring) :
  pos <$> match_at (RegExp (Seq (Class neg items) Eps) ic) p s
  = match s with
    | d :: _ => if xorb neg (class_has ic items d) then Some 1 else None
    | [] => None
    end.
Proof.
  unfold match_at. cbn [pattern ignoreCase]. rewrite run_seq_eps. cbn [run rest].
  destruct s as [|d t]; [reflexivity|].
  now destruct (xorb neg (class_has ic items d)).
Qed.

(** Replacing every code unit of a class by nothing filters the string. *)
Lemma replace_class_delete (r : regexp) (P : N -> bool) :
  (forall p s,
      pos <$> match_at r p s
      = match s with d :: _ => if P d then Some 1 else None | [] => None end) ->
  forall s p, replace_from r [] p s 0 = List.filter (fun c => negb (P c)) s.
Proof.
  intros H. induction s as [|c t IH]; intros p; cbn [replace_from List.filter].
  - assert (E := H p []). destruct (match_at r p []); [discriminate|reflexivity].
  - assert (E := H p (c :: t)). cbn beta iota in E. destruct (P c); cbn [negb].
    + destruct (match_at r p (c :: t)) as [st'|]; [|discriminate].
      cbn in E. injection E as ->. cbn [app]. apply IH.
    + destruct (match_at r p (c :: t)); [discriminate|]. now rewrite IH.
Qed.

End Delete.

(** X30: The number that [scrapeDelta] works with is the tracking number
    without every code unit that is not an ASCII letter or digit (dashes,
    blanks, letters of other alphabets), the others in their order; the
    prefix is its first three code units, or all of it when it is shorter,
    and the serial number is the rest. *)
Theorem delta_air_waybill_split (trackingNumber : jsstring) :
  ScrapeDelta.normalized trackingNumber = List.filter alnum trackingNumber
  /\ ScrapeDelta.awbPrefix trackingNumber ++ ScrapeDelta.awbNumber trackingNumber
     = ScrapeDelta.normalized trackingNumber
  /\ length (ScrapeDelta.awbPrefix trackingNumber)
     = Nat.min 3 (length (ScrapeDelta.normalized trackingNumber))
  /\ (forallb alnum trackingNumber = true ->
      ScrapeDelta.normalized trackingNumber = trackingNumber)
  /\ ScrapeDelta.awbPrefix (js "006-1234 5675") = js "006"
  /\ ScrapeDelta.awbNumber (js "006-1234 5675") = js "12345675".
Proof.
  assert (E : forall s, ScrapeDelta.normalized s = List.filter alnum s).
  { intros s. unfold ScrapeDelta.normalized.
    replace (re "[^A-Za-z0-9]" "g")
      with (RegExp.RegExp
              (RegExp.Seq (RegExp.Class true [RegExp.IRange 65 90; RegExp.IRange 97 122;
                                              RegExp.IRange 48 57]) RegExp.Eps) false)
      by (vm_compute; reflexivity).
    unfold RegExp.replace_g.
    rewrite (replace_class_delete _ _ (match_at_class_one _ _ _) s None).
    apply List.filter_ext. intros c. unfold alnum.
    cbn [RegExp.class_has existsb RegExp.item_has xorb negb].
    rewrite orb_false_r, orb_assoc.
    now destruct (Js.in_range 65 90 c || Js.in_range 97 122 c || Js.in_range 48 57 c). }
  split; [apply E|]. split; [apply take_drop|]. split; [apply length_take|].
  split; [|split; vm_compute; reflexivity].
  intros H. rewrite E. induction trackingNumber as [|c t IH]; [reflexivity|].
  cbn [forallb] in H. apply andb_true_iff in H as [Hc Ht].
  cbn [List.filter]. now rewrite Hc, (IH Ht).
Qed.

(** ** Unsupported carriers and supported ones *)

Lemma server_answer_with (s : jsstring) (cd : value) (url : jsstring) (d : object) :
  truthy cd = true ->
  d = [] \/ (List.map fst d = server_fields (Js.toLowerCase s)
             /\ Forall (fun kv => null_or_text (snd kv)) d) ->
  res_json (spread (link_fields (VString s) cd url) d)
  = Response 200 (link_fields (VString s) cd url ++ d).
Proof.
  intros Hk Hd. unfold res_json.
  assert (Hl : Forall (fun kv : string * value => snd kv <> VUndefined)
                      (link_fields (VString s) cd url)).
  { unfold link_fields. repeat (apply List.Forall_cons; [cbn [snd]|]);
      try apply List.Forall_nil; try discriminate.
    apply truthy_not_undefined, Hk. }
  destruct Hd as [->|[Hf Hv]].
  - cbn [spread fold_left]. rewrite app_nil_r. now rewrite json_defined.
  - destruct (server_fields_fresh (Js.toLowerCase s) (VString s) cd url) as [Hn Hfr].
    rewrite spread_fresh by (rewrite Hf; assumption).
    rewrite json_defined; [reflexivity|]. apply Forall_app. split; [exact Hl|].
    eapply Forall_impl; [exact Hv|]. intros kv. apply null_or_text_defined.
Qed.

(** Whatever the browser does, a supported carrier with a code that
    encodes is answered by src/server.js with status 200 and the link
    fields, followed by what the scraper found. *)
Lemma server_supported_answer (U : bool) (b : browser) (s : jsstring) (cd : value)
      (enc : jsstring) (t : list jsstring) :
  supported s = true -> truthy cd = true -> Js.encode (toString cd) = Some enc ->
  exists details t',
    Server.api_track U b (Request (VString s) cd) t
    = (Return (Response 200 (link_fields (VString s) cd (link (Js.toLowerCase s) enc)
                             ++ details)), t').
Proof.
  intros Hs Hk He. unfold Server.api_track. cbn [carrier code].
  rewrite (supported_truthy s Hs), Hk. cbn [negb orb].
  rewrite (officialLink_supported s cd enc Hs He).
  unfold try_catch at 1. rewrite lift_bind. rewrite link_truthy. cbn [negb].
  unfold mbind at 1, io_bind. cbn [toString].
  fold (link_fields (VString s) cd (link (Js.toLowerCase s) enc)).
  destruct U.
  - unfold try_catch.
    destruct (load b (link (Js.toLowerCase s) enc)) as [p|e] eqn:Hl.
    + destruct (server_scrapeByCarrier_fields b s _ p t Hs Hl) as (d & Hd & Hf & Hv).
      rewrite Hd. cbn [mret io_ret]. exists d, (t ++ [link (Js.toLowerCase s) enc]).
      rewrite server_answer_with; [reflexivity|exact Hk|right; now split].
    + rewrite (server_scrapeByCarrier_throws b s _ e t Hs Hl). cbn [mret io_ret].
      exists [], (t ++ [link (Js.toLowerCase s) enc]).
      rewrite server_answer_with; [reflexivity|exact Hk|now left].
  - cbn [mret io_ret]. exists [], t.
    rewrite server_answer_with; [reflexivity|exact Hk|now left].
Qed.

(** And by part_000 with status 200 and its seven fields. *)
Lemma part000_supported_answer (b : browser) (s : jsstring) (cd : value)
      (enc : jsstring) (t : list jsstring) :
  supported s = true -> truthy cd = true -> Js.encode (toString cd) = Some enc ->
  exists st eta ti t',
    Part000.api_track b (Request (VString s) cd) t
    = (Return (part000_answer (VString s) cd (link (Js.toLowerCase s) enc) st eta ti), t').
Proof.
  intros Hs Hk He. unfold Part000.api_track. cbn [carrier code].
  rewrite (supported_truthy s Hs), Hk. cbn [negb orb].
  rewrite part000_officialLink_string, (officialLink_supported s cd enc Hs He).
  unfold try_catch at 1. rewrite lift_bind. rewrite link_truthy. cbn [negb].
  unfold mbind at 1, io_bind at 1.
  assert (A : forall st eta ti,
             null_or_text st -> null_or_text eta -> (ti = VNull \/ exists x, ti = VString x) ->
             res_json [("ok", VBool true); ("carrier", VString s); ("code", cd);
                       ("officialUrl", VString (link (Js.toLowerCase s) enc));
                       ("status", st); ("eta", eta); ("title", ti)]%string
             = part000_answer (VString s) cd (link (Js.toLowerCase s) enc) st eta ti).
  { intros st eta ti H1 H2 H3. unfold res_json, part000_answer. f_equal.
    apply json_defined. repeat (apply List.Forall_cons; [cbn [snd]|]);
      try apply List.Forall_nil; try discriminate;
      auto using truthy_not_undefined, null_or_text_defined.
    destruct H3 as [->|(x & ->)]; discriminate. }
  unfold try_catch, Part000.scrapePublicPage, mbind, io_bind, goto. cbn [toString].
  destruct (load b (link (Js.toLowerCase s) enc)) as [p|e]; cbn [mret io_ret].
  - eexists _, _, _, _. rewrite A; [reflexivity|apply status_cases|apply eta_cases|].
    right. eexists. reflexivity.
  - exists VNull, VNull, VNull, (t ++ [link (Js.toLowerCase s) enc]).
    cbn [or_ truthy]. rewrite (A VNull VNull VNull); [reflexivity|now left|now left|now left].
Qed.

(** C8: for a carrier id that is not one of the known ids (in any letter
    case) and a non-empty code, the [/api/track] handlers of src/server.js
    and of part_000 answer, without throwing and without a page load, with
    status 400, [ok: false], the error [Carrier no soportado] and the carrier;
    the link resolved for it is [null] and the answer carries no
    [officialUrl].  A supported carrier with a code that encodes is told
    apart from that by every field of the signal: whatever the browser does
    and whatever is found, it is answered with status 200, [ok: true] and its
    official URL; in particular when the page fails to load and nothing is
    extracted, where the answer is the link alone (in part_000 with
    [status], [eta] and [title] all [null]). *)
Theorem unsupported_carrier_is_client_error (USE_SCRAPE : bool) (b : browser)
        (s : jsstring) (cd : value) :
  s <> [] -> supported s = false -> truthy cd = true ->
  Server.officialLink (VString s) cd = Return VNull
  /\ Server.api_track USE_SCRAPE b (Request (VString s) cd) []
     = (Return (Server.unsupported (VString s)), [])
  /\ Part000.api_track b (Request (VString s) cd) []
     = (Return (Server.unsupported (VString s)), [])
  /\ Server.unsupported (VString s)
     = Response 400 [("ok", VBool false);
                     ("error", VString (js "Carrier no soportado"));
                     ("carrier", VString s)]%string
  /\ get "officialUrl" (body (Server.unsupported (VString s))) = None
  /\ forall (U' : bool) (b' : browser) (s' : jsstring) (cd' : value) (enc : jsstring)
            (t : list jsstring),
       supported s' = true -> truthy cd' = true -> Js.encode (toString cd') = Some enc ->
       let url := link (Js.toLowerCase s') enc in
       (exists r t',
           Server.api_track U' b' (Request (VString s') cd') t = (Return r, t')
           /\ status r = 200 /\ get "ok" (body r) = Some (VBool true)
           /\ get "officialUrl" (body r) = Some (VString url))
       /\ (exists r t',
              Part000.api_track b' (Request (VString s') cd') t = (Return r, t')
              /\ status r = 200 /\ get "ok" (body r) = Some (VBool true)
              /\ get "officialUrl" (body r) = Some (VString url))
       /\ (forall e, load b' url = Throw e ->
                     Server.api_track true b' (Request (VString s') cd') []
                     = (Return (link_only (VString s') cd' url), [url])
                     /\ Part000.api_track b' (Request (VString s') cd') []
                        = (Return (link_and_nulls (VString s') cd' url), [url])).
Proof.
  intros Hn Hs Hk.
  split; [now apply officialLink_unsupported|].
  split; [now apply server_unsupported|].
  split; [now apply part000_unsupported|].
  split; [vm_compute; reflexivity|]. split; [vm_compute; reflexivity|].
  intros U' b' s' cd' enc t Hs' Hk' He. cbv zeta. split; [|split].
  - destruct (server_supported_answer U' b' s' cd' enc t Hs' Hk' He) as (d & t' & E).
    eexists _, t'. split; [exact E|]. split; [reflexivity|]. split; reflexivity.
  - destruct (part000_supported_answer b' s' cd' enc t Hs' Hk' He)
      as (st & eta & ti & t' & E).
    eexists _, t'. split; [exact E|]. split; [reflexivity|]. split; reflexivity.
  - intros e Hl. split.
    + now apply server_fetch_failure with e.
    + now apply part000_fetch_failure with e.
Qed.

Lemma unsupported_carrier_is_client_error_witness :
  Server.api_track true offline (Request (VString (js "zzz-unknown")) (VString (js "ABC"))) []
  = (Return (Server.unsupported (VString (js "zzz-unknown"))), []).
Proof.
  refine (proj1 (proj2 (unsupported_carrier_is_client_error true offline
                          (js "zzz-unknown") (VString (js "ABC")) _ eq_refl eq_refl))).
  vm_compute. discriminate.
Defined.
